(** * Change detection of the website monitor

    A shallow embedding of [src/services/websiteMonitor.js]: the pure
    comparison functions ([detectChanges], [compareMetrics],
    [calculateChangeRate]), the snapshot store ([saveSnapshot],
    [loadPreviousSnapshot]) and the orchestration ([monitorWebsite],
    [monitorAll]), followed by the properties of the specification.

    Conventions of the embedding:
    - strings are lists of UTF-16 code units, compared unit by unit as
      [===] does;
    - metric counts are integers and their quotients exact rationals; the
      comparisons with 0.1 and 0.5 agree with those on doubles for counts
      below 2^50, far beyond what a page holds; the change rate and the
      percentage printed in a metric record are rounded to a double at
      each operation;
    - a metrics object is the list of its properties in enumeration
      order;
    - asynchronous methods are computations over an explicit environment
      (files, rendered pages, clock, log) that return a value or throw;
      [await] is sequencing, and the two-second pauses are left out. *)

From Stdlib Require Import ZArith QArith Qabs Qround Qpower Lia Lqa Ascii String.
From stdpp Require Import gmap list sorting.

Set Default Proof Using "Type".
Set Warnings "-register-all".
Local Open Scope Z_scope.

(** ** JavaScript strings

    A JavaScript string is a sequence of UTF-16 code units.  Code units
    are kept as [N]; nothing below depends on the 16-bit bound. *)

Definition jsstring : Type := list N.

(** An ASCII literal as a JavaScript string. *)
Fixpoint lit (s : string) : jsstring :=
  match s with
  | EmptyString => []
  | String c s' => N_of_ascii c :: lit s'
  end.

(** The double-quote character, for template literals that embed it. *)
Definition dquote : jsstring := [34%N].

(** The class [\s] of an ECMAScript regular expression (WhiteSpace and
    LineTerminator code points; all of them lie in the basic plane, so a
    test on code units is exact). *)
Definition is_whitespace (c : N) : bool :=
  ((9 <=? c) && (c <=? 13) || (c =? 32) || (c =? 160) || (c =? 5760)
   || (8192 <=? c) && (c <=? 8202) || (c =? 8232) || (c =? 8233)
   || (c =? 8239) || (c =? 8287) || (c =? 12288) || (c =? 65279))%N.

(** [s.split(/\s+/)].  The matcher takes a maximal run of whitespace as
    one separator; the text between two separators (and before the first,
    after the last) is a token, possibly empty at either end of the
    string.  [tok] accumulates the current token in reverse; [in_sep]
    records that the previous code unit belonged to a separator. *)
Fixpoint split_from (s : jsstring) (tok : jsstring) (in_sep : bool)
  : list jsstring :=
  match s with
  | [] => [rev tok]
  | c :: s' =>
      if is_whitespace c then
        if in_sep then split_from s' [] true
        else rev tok :: split_from s' [] true
      else split_from s' (c :: tok) false
  end.

(** The first [lim] elements of an array. *)
Fixpoint limit {A} (lim : N) (l : list A) : list A :=
  match l with
  | [] => []
  | x :: l' =>
      match lim with
      | N0 => []
      | _ => x :: limit (N.pred lim) l'
      end
  end.

(** Without a second argument [split] stops after 2^32 - 1 elements
    (ECMAScript, RegExp.prototype[@@split], the default of [limit]). *)
Definition split_limit : N := 4294967295%N.

Definition split_whitespace (s : jsstring) : list jsstring :=
  limit split_limit (split_from s [] false).

(** [array.includes(word)] on an array of strings. *)
Definition includes (l : list jsstring) (word : jsstring) : bool :=
  bool_decide (word ∈ l).

(** ** JavaScript numbers

    A finite number is kept as a rational.  Metric counts are integers.
    The quotient that [compareMetrics] forms is kept exact: its
    comparisons with 0.1 and 0.5 come out as on doubles for counts below
    2^50, and the value it records is the exact quotient, which stands
    for the double nearest to it.  What is printed or handed on as a
    value, the percentage of a metric record and the change rate, is
    rounded as doubles are ([round_double] below).  The three non-finite values are kept
    apart, so that a division by zero or arithmetic on [undefined] is
    visible in the model. *)

Inductive number : Type :=
  | Finite (q : Q)
  | Infinity
  | NegInfinity
  | NaN.

Definition of_Z (z : Z) : number := Finite (inject_Z z).

(** [ToNumber] of a property read: a missing property reads as
    [undefined], which converts to [NaN]. *)
Definition to_number (v : option Z) : number :=
  match v with
  | Some z => of_Z z
  | None => NaN
  end.

(** Truthiness of a property read holding an integer or [undefined]. *)
Definition truthy (v : option Z) : bool :=
  match v with
  | Some z => negb (z =? 0)
  | None => false
  end.

(** Strict comparison of exact values. *)
Definition Qltb (a b : Q) : bool := negb (Qle_bool b a).

Definition js_sub (x y : number) : number :=
  match x, y with
  | NaN, _ | _, NaN => NaN
  | Finite a, Finite b => Finite (a - b)
  | Infinity, Infinity | NegInfinity, NegInfinity => NaN
  | Infinity, _ | _, NegInfinity => Infinity
  | NegInfinity, _ | _, Infinity => NegInfinity
  end.

Definition js_abs (x : number) : number :=
  match x with
  | Finite a => Finite (Qabs a)
  | Infinity | NegInfinity => Infinity
  | NaN => NaN
  end.

Definition signed_infinity (s : comparison) : number :=
  match s with
  | Gt => Infinity
  | Lt => NegInfinity
  | Eq => NaN
  end.

Definition js_div (x y : number) : number :=
  match x, y with
  | NaN, _ | _, NaN => NaN
  | Finite a, Finite b =>
      if Qeq_bool b 0 then signed_infinity (a ?= 0)%Q else Finite (a / b)
  | Finite _, (Infinity | NegInfinity) => Finite 0
  | (Infinity | NegInfinity), (Infinity | NegInfinity) => NaN
  | Infinity, Finite b => if Qltb b 0 then NegInfinity else Infinity
  | NegInfinity, Finite b => if Qltb b 0 then Infinity else NegInfinity
  end.

Definition js_mul (x y : number) : number :=
  match x, y with
  | NaN, _ | _, NaN => NaN
  | Finite a, Finite b => Finite (a * b)
  | Finite a, Infinity | Infinity, Finite a => signed_infinity (a ?= 0)%Q
  | Finite a, NegInfinity | NegInfinity, Finite a => signed_infinity (0 ?= a)%Q
  | Infinity, Infinity | NegInfinity, NegInfinity => Infinity
  | Infinity, NegInfinity | NegInfinity, Infinity => NegInfinity
  end.

(** [x > y]. *)
Definition js_gt (x y : number) : bool :=
  match x, y with
  | NaN, _ | _, NaN => false
  | Finite a, Finite b => Qltb b a
  | Infinity, (Finite _ | NegInfinity) => true
  | Finite _, NegInfinity => true
  | _, _ => false
  end.

(** ** Rounding to doubles

    The value of an arithmetic operation on doubles is the exact result
    rounded to the nearest double, to the one with an even significand on
    a tie (IEEE 754 binary64: 53 significant bits, exponents from -1022
    to 1023, subnormal numbers below, infinity from 2^1024 - 2^970 on).
    The sign of a zero is not kept. *)

(** [2^e], for negative [e] too. *)
Definition pow2 (e : Z) : Q := Qpower 2 e.

(** The nearest integer, the even one of two that are equally near. *)
Definition round_half_even (q : Q) : Z :=
  let f := Qfloor q in
  match (q - inject_Z f ?= 1 # 2)%Q with
  | Lt => f
  | Gt => f + 1
  | Eq => if Z.even f then f else f + 1
  end.

(** The [e] with [2^e <= q < 2^(e+1)], for a positive [q]. *)
Definition exponent (q : Q) : Z :=
  let c := Z.log2 (Qnum q) - Z.log2 (Zpos (Qden q)) in
  if Qle_bool (pow2 c) q then c else c - 1.

(** The double nearest to [q].  A [q] that is a double is returned as it
    stands. *)
Definition round_double (q : Q) : number :=
  if Qeq_bool q 0 then Finite q
  else
    let a := Qabs q in
    let e := Z.max (exponent a) (-1022) in
    let ulp := pow2 (e - 52) in
    let r := (inject_Z (round_half_even (a / ulp)) * ulp)%Q in
    if Qle_bool (pow2 1024) r then
      if Qltb q 0 then NegInfinity else Infinity
    else if Qeq_bool r a then Finite q
    else Finite (if Qltb q 0 then - r else r)%Q.

Definition rounded (x : number) : number :=
  match x with
  | Finite q => round_double q
  | _ => x
  end.

(** [x - y], [x / y] and [x * y] on doubles. *)
Definition double_sub (x y : number) : number := rounded (js_sub x y).

Definition double_div (x y : number) : number := rounded (js_div x y).

Definition double_mul (x y : number) : number := rounded (js_mul x y).

(** Decimal rendering of an integer count ([String(n)]). *)
Definition digit_char (d : Z) : N := (48 + Z.to_N d)%N.

Fixpoint digits_of (fuel : nat) (n : Z) (acc : jsstring) : jsstring :=
  match fuel with
  | O => acc
  | S fuel' =>
      let acc' := digit_char (n mod 10) :: acc in
      if n <? 10 then acc' else digits_of fuel' (n / 10) acc'
  end.

Definition string_of_nonneg (n : Z) : jsstring :=
  digits_of (S (Z.to_nat (Z.log2 n))) n [].

Definition string_of_Z (n : Z) : jsstring :=
  if n <? 0 then lit "-" ++ string_of_nonneg (- n) else string_of_nonneg n.

(** A property read inside a template literal. *)
Definition string_of_value (v : option Z) : jsstring :=
  match v with
  | Some z => string_of_Z z
  | None => lit "undefined"
  end.

(** [x.toFixed(1)] on a value below 10^21: the multiple of one tenth
    nearest to the exact value of [x], the larger one on a tie. *)
Definition toFixed1 (x : number) : jsstring :=
  match x with
  | Finite q =>
      let n := Qfloor (Qabs q * 10 + (1 # 2))%Q in
      (if Qltb q 0 then lit "-" else [])
      ++ string_of_nonneg (n / 10) ++ lit "." ++ string_of_nonneg (n mod 10)
  | Infinity => lit "Infinity"
  | NegInfinity => lit "-Infinity"
  | NaN => lit "NaN"
  end.

(** ** Page content, snapshots and change records *)

(** A metrics object, as the list of its own properties in the order
    [Object.keys] enumerates them. *)
Definition Metrics : Type := list (jsstring * Z).

Definition Object_keys (o : Metrics) : list jsstring := map fst o.

(** The property read [o[key]]; [None] stands for [undefined]. *)
Fixpoint get (o : Metrics) (key : jsstring) : option Z :=
  match o with
  | [] => None
  | (k, v) :: o' => if bool_decide (k = key) then Some v else get o' key
  end.

(** The object built by [getPageContent], and, with the [hash] property
    added by [monitorWebsite], the snapshot kept on disk.  A content
    object fresh from [getPageContent] has no [hash] property: reading it
    gives [undefined], here [None]. *)
Record Content : Type := {
  html : jsstring;
  title : jsstring;
  url : jsstring;
  textContent : jsstring;
  metrics : Metrics;
  timestamp : jsstring;
  hash : option jsstring
}.

Inductive ChangeType : Type :=
  | type_content
  | type_title
  | type_url
  | type_metric.

Inductive Severity : Type :=
  | high
  | medium.

Record ChangeRecord : Type := {
  type : ChangeType;
  metric : option jsstring;
  description : jsstring;
  severity : Severity;
  change : option number
}.

(** Exceptions carry their message, the only part the monitor reads. *)
Record Error : Type := { message : jsstring }.

(** The outcome of a synchronous call: a value or a thrown exception. *)
Inductive Completion (A : Type) : Type :=
  | Normal (a : A)
  | Throw (e : Error).
Arguments Normal {A} a.
Arguments Throw {A} e.

(** ** The comparison functions *)

Definition threshold : number := Finite (1 # 10).

(** The object pushed by the [forEach] callback of [compareMetrics] for
    the key [metric] when the relative change is [change], the exact
    quotient.  The percentage in the description is printed from the
    doubles: the quotient rounded, times 100, rounded. *)
Definition metric_record (current previous : Metrics) (metric : jsstring)
    (change : number) : ChangeRecord :=
  {| type := type_metric;
     metric := Some metric;
     description :=
       metric ++ lit " changed from " ++ string_of_value (get previous metric)
         ++ lit " to " ++ string_of_value (get current metric)
         ++ lit " (" ++ toFixed1 (double_mul (rounded change) (of_Z 100))
         ++ lit "% change)";
     severity := if js_gt change (Finite (1 # 2)) then high else medium;
     change := Some change |}.

(** The body of the [forEach] callback of [compareMetrics] for one key of
    [current]: the records it pushes. *)
Definition compareMetric (current previous : Metrics) (metric : jsstring)
  : list ChangeRecord :=
  if truthy (get previous metric) then
    let change :=
      js_div (js_abs (js_sub (to_number (get current metric))
                             (to_number (get previous metric))))
             (to_number (get previous metric)) in
    if js_gt change threshold then
      [metric_record current previous metric change]
    else []
  else [].

Definition compareMetrics (current previous : Metrics) : list ChangeRecord :=
  flat_map (compareMetric current previous) (Object_keys current).

(** The three objects that [detectChanges] pushes itself. *)
Definition content_record : ChangeRecord :=
  {| type := type_content; metric := None;
     description := lit "Page content has changed";
     severity := medium; change := None |}.

Definition title_record (current previous : Content) : ChangeRecord :=
  {| type := type_title; metric := None;
     description :=
       lit "Title changed from " ++ dquote ++ title previous ++ dquote
         ++ lit " to " ++ dquote ++ title current ++ dquote;
     severity := high; change := None |}.

Definition url_record (current previous : Content) : ChangeRecord :=
  {| type := type_url; metric := None;
     description :=
       lit "URL changed from " ++ dquote ++ url previous ++ dquote
         ++ lit " to " ++ dquote ++ url current ++ dquote;
     severity := high; change := None |}.

(** [detectChanges(current, previous)].  The function reads
    [previous.hash] first, which throws a [TypeError] when [previous] is
    [null]. *)
Definition detectChanges (current : Content) (previous : option Content)
  : Completion (list ChangeRecord) :=
  match previous with
  | None =>
      Throw {| message := lit "Cannot read properties of null (reading 'hash')" |}
  | Some previous =>
      Normal (
        (if bool_decide (hash current ≠ hash previous)
         then [content_record] else [])
        ++ (if bool_decide (title current ≠ title previous)
            then [title_record current previous] else [])
        ++ (if bool_decide (url current ≠ url previous)
            then [url_record current previous] else [])
        ++ compareMetrics (metrics current) (metrics previous))
  end.

(** [calculateChangeRate(current, previous)].  The lengths are below
    2^32 and so doubles; the quotient and the difference are rounded. *)
Definition calculateChangeRate (current previous : Content) : number :=
  let currentWords := split_whitespace (textContent current) in
  let previousWords := split_whitespace (textContent previous) in
  let commonWords :=
    List.filter (fun word => includes previousWords word) currentWords in
  double_sub (of_Z 1)
    (double_div (of_Z (Z.of_nat (length commonWords)))
                (of_Z (Z.max (Z.of_nat (length currentWords))
                             (Z.of_nat (length previousWords))))).

(** The object returned by [calculateMetrics]. *)
Record CalculatedMetrics : Type := {
  currentMetrics : Metrics;
  previousMetrics : Metrics;
  changeRate : number
}.

Definition calculateMetrics (current : Content) (previous : option Content)
  : CalculatedMetrics :=
  {| currentMetrics := metrics current;
     previousMetrics :=
       match previous with Some p => metrics p | None => [] end;
     changeRate :=
       match previous with
       | Some p => calculateChangeRate current p
       | None => of_Z 0
       end |}.

(** ** The environment of a run

    What the monitor reaches through Node and the browser: the files
    under the snapshots directory, the pages the browser renders, the
    clock and the log.  [write_errors] lists the paths at which
    [fs.writeFile] is rejected, with the message of the rejection;
    [launch_error] is the rejection of [puppeteer.launch], if any. *)

(** What the browser reports for a loaded page. *)
Record Page : Type := {
  page_content : jsstring;
  page_title : jsstring;
  page_url : jsstring;
  innerText : jsstring;
  links : Z;
  images : Z;
  headings : Z
}.

(** The calls made on [logger], in order; durations are left out. *)
Inductive LogEvent : Type :=
  | StartingWebsiteMonitoring (name website : jsstring)
  | WebsiteMonitoringCompleted (name : jsstring) (changes errors : nat)
  | WebsiteMonitoringFailed (name : jsstring) (error : Error)
  | FailedToGetPageContent (url : jsstring) (error : Error)
  | FailedToSaveSnapshot (competitorId : jsstring) (error : Error)
  | StartingAll (competitors : nat)
  | CompletedAll (results : nat).

Record World : Type := {
  files : gmap jsstring jsstring;
  write_errors : gmap jsstring jsstring;
  web : gmap jsstring Page;
  launch_error : option Error;
  now : jsstring;
  log : list LogEvent
}.

Definition set_files (f : gmap jsstring jsstring) (w : World) : World :=
  {| files := f; write_errors := write_errors w; web := web w;
     launch_error := launch_error w; now := now w; log := log w |}.

Definition add_log (e : LogEvent) (w : World) : World :=
  {| files := files w; write_errors := write_errors w; web := web w;
     launch_error := launch_error w; now := now w; log := log w ++ [e] |}.

(** Computations that read and change the environment and may throw. *)
Definition M (A : Type) : Type := World -> Completion A * World.

Definition ret {A} (a : A) : M A := fun w => (Normal a, w).

Definition bind {A B} (m : M A) (k : A -> M B) : M B :=
  fun w =>
    match m w with
    | (Normal a, w') => k a w'
    | (Throw e, w') => (Throw e, w')
    end.

Definition throw {A} (e : Error) : M A := fun w => (Throw e, w).

(** [try { body } catch (error) { handler }]. *)
Definition try_catch {A} (body : M A) (handler : Error -> M A) : M A :=
  fun w =>
    match body w with
    | (Normal a, w') => (Normal a, w')
    | (Throw e, w') => handler e w'
    end.

(** A synchronous call inside an asynchronous function. *)
Definition call {A} (c : Completion A) : M A := fun w => (c, w).

Declare Scope js_scope.
Delimit Scope js_scope with js.
Notation "'let!' x ':=' m 'in' k" := (bind m (fun x => k))
  (at level 10, x name, m at level 100, k at level 200) : js_scope.
Notation "m ';;;' k" := (bind m (fun _ => k))
  (at level 100, k at level 200, right associativity) : js_scope.
Local Open Scope js_scope.

Definition logger (e : LogEvent) : M unit :=
  fun w => (Normal tt, add_log e w).

(** [new Date().toISOString()]. *)
Definition Date_toISOString : M jsstring := fun w => (Normal (now w), w).

(** [fs.readFile(path, 'utf8')]. *)
Definition readFile (path : jsstring) : M jsstring :=
  fun w =>
    match files w !! path with
    | Some data => (Normal data, w)
    | None =>
        (Throw {| message := lit "ENOENT: no such file or directory, open '"
                               ++ path ++ lit "'" |}, w)
    end.

(** [fs.writeFile(path, data)]. *)
Definition writeFile (path data : jsstring) : M unit :=
  fun w =>
    match write_errors w !! path with
    | Some msg => (Throw {| message := msg |}, w)
    | None => (Normal tt, set_files (<[path := data]> (files w)) w)
    end.

Record Competitor : Type := {
  id : jsstring;
  name : jsstring;
  website : jsstring;
  monitoring_website : bool
}.

(** The object returned by [monitorWebsite]; [res_metrics] is [None] for
    the empty object. *)
Record Results : Type := {
  res_competitor : jsstring;
  res_website : jsstring;
  res_timestamp : jsstring;
  res_changes : list ChangeRecord;
  res_errors : list jsstring;
  res_metrics : option CalculatedMetrics
}.

(** The object literal returned at the end of the [try] block of
    [getPageContent], from what the page reports. *)
Definition content_of_page (page : Page) (stamp : jsstring) : Content :=
  {| html := page_content page;
     title := page_title page;
     url := page_url page;
     textContent := innerText page;
     metrics :=
       [ (lit "wordCount",
          Z.of_nat (length (split_whitespace (innerText page))));
         (lit "linkCount", links page);
         (lit "imageCount", images page);
         (lit "headingCount", headings page) ];
     timestamp := stamp;
     hash := None |}.

Definition initBrowser : M unit :=
  fun w =>
    match launch_error w with
    | Some e => (Throw e, w)
    | None => (Normal tt, w)
    end.

Definition page_goto (target : jsstring) : M Page :=
  fun w =>
    match web w !! target with
    | Some page => (Normal page, w)
    | None => (Throw {| message := lit "net::ERR_FAILED at " ++ target |}, w)
    end.

(** Reading a [const] of the enclosing block before its declaration has
    been evaluated. *)
Definition read_before_initialization {A} (x : string) : M A :=
  throw {| message := lit "Cannot access '" ++ lit x
                        ++ lit "' before initialization" |}.

(** [getPageContent(url)] as the class defines it.  The [try] block
    declares [const url = page.url()] after the call [page.goto(url, ...)],
    so the argument of [goto] names the block's own, still uninitialised
    [url], not the parameter: evaluating it throws a [ReferenceError],
    the [catch] logs it and the method returns [null].  A failed browser
    launch happens before the [try] and is thrown to the caller. *)
Definition getPageContent (url_param : jsstring) : M (option Content) :=
  initBrowser ;;;
  try_catch
    (let! url_block := read_before_initialization "url" in
     let! page := page_goto url_block in
     let! stamp := Date_toISOString in
     ret (Some (content_of_page page stamp)))
    (fun error => logger (FailedToGetPageContent url_param error) ;;; ret None).

(** A fetcher that delivers what the browser renders for the URL it is
    given; [None] when the navigation fails. *)
Definition browser_fetch (target : jsstring) : M (option Content) :=
  initBrowser ;;;
  try_catch
    (let! page := page_goto target in
     let! stamp := Date_toISOString in
     ret (Some (content_of_page page stamp)))
    (fun error => logger (FailedToGetPageContent target error) ;;; ret None).

Section Monitor.

(** Services of the runtime: the SHA-256 digest in hexadecimal,
    [JSON.stringify(_, null, 2)] and [JSON.parse] on snapshot objects
    ([None] when the parser throws), [path.join], and the configured
    reports directory.  [this_getPageContent] is the fetcher the
    monitor calls through [this]; the specification treats it as an
    external collaborator, and the properties below hold for every
    fetcher.

    The store is read as what the monitor writes to it: the text of a
    snapshot, or a text that [JSON.parse] rejects.  A text that is JSON
    of another shape (an empty object, say) is not in the domain of the
    model: the code hands the parsed value on to the comparison, which
    then throws or compares with [undefined].  The properties that
    depend on what a run loads say what the store holds. *)
Variable sha256_hex : jsstring -> jsstring.
Variable JSON_stringify : Content -> jsstring.
Variable JSON_parse : jsstring -> option Content.
Variable path_join : jsstring -> jsstring -> jsstring.
Variable reports : jsstring.
Variable this_getPageContent : jsstring -> M (option Content).

Definition snapshotsDir : jsstring := path_join reports (lit "snapshots").

Definition generateHash (content : jsstring) : jsstring := sha256_hex content.

Definition snapshotPath (competitorId : jsstring) : jsstring :=
  path_join snapshotsDir (competitorId ++ lit ".json").

Definition loadPreviousSnapshot (competitorId : jsstring)
  : M (option Content) :=
  try_catch
    (let! snapshotData := readFile (snapshotPath competitorId) in
     match JSON_parse snapshotData with
     | Some snapshot => ret (Some snapshot)
     | None => throw {| message := lit "Unexpected token in JSON" |}
     end)
    (fun _ => ret None).

Definition saveSnapshot (competitorId : jsstring) (snapshot : Content)
  : M unit :=
  try_catch
    (writeFile (snapshotPath competitorId) (JSON_stringify snapshot))
    (fun error => logger (FailedToSaveSnapshot competitorId error)).

(** The snapshot object [{...currentContent, hash, timestamp}]. *)
Definition snapshot_of (currentContent : Content)
    (contentHash stamp : jsstring) : Content :=
  {| html := html currentContent;
     title := title currentContent;
     url := url currentContent;
     textContent := textContent currentContent;
     metrics := metrics currentContent;
     timestamp := stamp;
     hash := Some contentHash |}.

Definition empty_results (competitor : Competitor) (stamp : jsstring)
    (errors : list jsstring) : Results :=
  {| res_competitor := name competitor;
     res_website := website competitor;
     res_timestamp := stamp;
     res_changes := [];
     res_errors := errors;
     res_metrics := None |}.

Definition monitorWebsite (competitor : Competitor) : M Results :=
  logger (StartingWebsiteMonitoring (name competitor) (website competitor)) ;;;
  try_catch
    (let! stamp := Date_toISOString in
     let results := empty_results competitor stamp [] in
     let! currentContent := this_getPageContent (website competitor) in
     match currentContent with
     | None =>
         ret (empty_results competitor stamp
                [lit "Failed to fetch page content"])
     | Some currentContent =>
         let contentHash := generateHash (html currentContent) in
         let! previousSnapshot := loadPreviousSnapshot (id competitor) in
         let! results :=
           match previousSnapshot with
           | Some _ =>
               let! changes :=
                 call (detectChanges currentContent previousSnapshot) in
               ret {| res_competitor := res_competitor results;
                      res_website := res_website results;
                      res_timestamp := res_timestamp results;
                      res_changes := changes;
                      res_errors := res_errors results;
                      res_metrics :=
                        Some (calculateMetrics currentContent
                                               previousSnapshot) |}
           | None => ret results
           end in
         let! stamp' := Date_toISOString in
         saveSnapshot (id competitor)
           (snapshot_of currentContent contentHash stamp') ;;;
         logger (WebsiteMonitoringCompleted (name competitor)
                   (length (res_changes results))
                   (length (res_errors results))) ;;;
         ret results
     end)
    (fun error =>
       logger (WebsiteMonitoringFailed (name competitor) error) ;;;
       let! stamp := Date_toISOString in
       ret (empty_results competitor stamp [message error])).

(** [monitorAll(competitors)]: the [for] loop over the competitors whose
    [monitoring?.website] is truthy, then the function.  Closing the
    browser has no effect on the environment kept here. *)
Fixpoint monitorEach (competitors : list Competitor) (results : list Results)
  : M (list Results) :=
  match competitors with
  | [] => ret results
  | competitor :: rest =>
      if monitoring_website competitor then
        let! result := monitorWebsite competitor in
        monitorEach rest (results ++ [result])
      else monitorEach rest results
  end.

Definition monitorAll (competitors : list Competitor) : M (list Results) :=
  logger (StartingAll (length competitors)) ;;;
  let! results := monitorEach competitors [] in
  logger (CompletedAll (length results)) ;;;
  ret results.

End Monitor.

(** * An executable runtime

    Renderings of the runtime services the monitor is parameterised by,
    used to run it on concrete worlds: SHA-256 over the UTF-8 encoding
    with a hexadecimal digest, [JSON.stringify(_, null, 2)] and
    [JSON.parse] on snapshot objects, and POSIX [path.join]. *)

Module Node.

(** ** [crypto.createHash('sha256').update(content).digest('hex')] *)

Definition replacement_character : list Z := [0xEF; 0xBF; 0xBD].

Definition utf8_of_code_point (cp : Z) : list Z :=
  if cp <? 0x80 then [cp]
  else if cp <? 0x800 then
    [Z.lor 0xC0 (Z.shiftr cp 6); Z.lor 0x80 (Z.land cp 0x3F)]
  else if cp <? 0x10000 then
    [Z.lor 0xE0 (Z.shiftr cp 12);
     Z.lor 0x80 (Z.land (Z.shiftr cp 6) 0x3F);
     Z.lor 0x80 (Z.land cp 0x3F)]
  else
    [Z.lor 0xF0 (Z.shiftr cp 18);
     Z.lor 0x80 (Z.land (Z.shiftr cp 12) 0x3F);
     Z.lor 0x80 (Z.land (Z.shiftr cp 6) 0x3F);
     Z.lor 0x80 (Z.land cp 0x3F)].

Definition is_high_surrogate (c : Z) : bool := (0xD800 <=? c) && (c <? 0xDC00).
Definition is_low_surrogate (c : Z) : bool := (0xDC00 <=? c) && (c <? 0xE000).

(** A surrogate pair is one code point; a lone surrogate is encoded as
    U+FFFD. *)
Fixpoint utf8_encode (s : jsstring) : list Z :=
  match s with
  | [] => []
  | c :: s' =>
      let c := Z.of_N c in
      if is_high_surrogate c then
        match s' with
        | d :: s'' =>
            let d := Z.of_N d in
            if is_low_surrogate d then
              utf8_of_code_point
                (0x10000 + Z.shiftl (c - 0xD800) 10 + (d - 0xDC00))
                ++ utf8_encode s''
            else replacement_character ++ utf8_encode s'
        | [] => replacement_character
        end
      else if is_low_surrogate c then replacement_character ++ utf8_encode s'
      else utf8_of_code_point c ++ utf8_encode s'
  end.

Definition w32 (x : Z) : Z := x mod 2 ^ 32.
Definition add32 (x y : Z) : Z := w32 (x + y).
Definition rotr (n x : Z) : Z :=
  Z.lor (Z.shiftr x n) (w32 (Z.shiftl x (32 - n))).
Definition Ch (x y z : Z) : Z :=
  Z.lxor (Z.land x y) (Z.land (Z.lxor x 0xffffffff) z).
Definition Maj (x y z : Z) : Z :=
  Z.lxor (Z.lxor (Z.land x y) (Z.land x z)) (Z.land y z).
Definition Sigma0 (x : Z) : Z :=
  Z.lxor (Z.lxor (rotr 2 x) (rotr 13 x)) (rotr 22 x).
Definition Sigma1 (x : Z) : Z :=
  Z.lxor (Z.lxor (rotr 6 x) (rotr 11 x)) (rotr 25 x).
Definition sigma0 (x : Z) : Z :=
  Z.lxor (Z.lxor (rotr 7 x) (rotr 18 x)) (Z.shiftr x 3).
Definition sigma1 (x : Z) : Z :=
  Z.lxor (Z.lxor (rotr 17 x) (rotr 19 x)) (Z.shiftr x 10).

(** The round constants and the initial state: the first 32 bits of the
    fractional parts of the cube roots, respectively square roots, of
    the first primes. *)
Fixpoint is_prime_from (fuel : nat) (d n : Z) : bool :=
  match fuel with
  | O => true
  | S fuel' =>
      if n <? d * d then true
      else if n mod d =? 0 then false
      else is_prime_from fuel' (d + 1) n
  end.

Fixpoint primes_from (fuel count : nat) (n : Z) : list Z :=
  match fuel, count with
  | O, _ | _, O => []
  | S fuel', S count' =>
      if is_prime_from (Z.to_nat n) 2 n
      then n :: primes_from fuel' count' (n + 1)
      else primes_from fuel' count (n + 1)
  end.

(** The integer cube root, one bit at a time from bit [bits - 1] down. *)
Fixpoint cube_root (bits : nat) (n r : Z) : Z :=
  match bits with
  | O => r
  | S b =>
      let r' := r + 2 ^ Z.of_nat b in
      cube_root b n (if r' * r' * r' <=? n then r' else r)
  end.

Definition K256 : list Z :=
  Eval vm_compute in
    map (fun p => w32 (cube_root 40 (p * 2 ^ 96) 0)) (primes_from 400 64 2).

Definition H256 : list Z :=
  Eval vm_compute in
    map (fun p => w32 (Z.sqrt (p * 2 ^ 64))) (primes_from 400 8 2).

Definition big_endian (bytes : nat) (n : Z) : list Z :=
  map (fun i => Z.land (Z.shiftr n (8 * Z.of_nat i)) 0xff)
      (rev (seq 0 bytes)).

Definition pad (msg : list Z) : list Z :=
  let len := Z.of_nat (length msg) in
  msg ++ [0x80] ++ List.repeat 0 (Z.to_nat ((55 - len) mod 64))
      ++ big_endian 8 (8 * len).

Fixpoint words_of (bytes : list Z) : list Z :=
  match bytes with
  | a :: b :: c :: d :: rest =>
      (Z.shiftl a 24 + Z.shiftl b 16 + Z.shiftl c 8 + d) :: words_of rest
  | _ => []
  end.

(** The message schedule, latest word first. *)
Fixpoint extend (n : nat) (ws : list Z) : list Z :=
  match n with
  | O => ws
  | S n' =>
      extend n'
        (add32 (add32 (sigma1 (nth 1 ws 0)) (nth 6 ws 0))
               (add32 (sigma0 (nth 14 ws 0)) (nth 15 ws 0)) :: ws)
  end.

Definition schedule (block : list Z) : list Z :=
  rev (extend 48 (rev (words_of block))).

Definition round (st : list Z) (kw : Z * Z) : list Z :=
  match st with
  | [a; b; c; d; e; f; g; h] =>
      let t1 :=
        add32 (add32 (add32 h (Sigma1 e)) (Ch e f g))
              (add32 (fst kw) (snd kw)) in
      let t2 := add32 (Sigma0 a) (Maj a b c) in
      [add32 t1 t2; a; b; c; add32 d t1; e; f; g]
  | _ => st
  end.

Definition compress (st : list Z) (block : list Z) : list Z :=
  map (fun p => add32 (fst p) (snd p))
      (combine st (fold_left round (combine K256 (schedule block)) st)).

Fixpoint absorb (blocks : nat) (st : list Z) (bytes : list Z) : list Z :=
  match blocks with
  | O => st
  | S n => absorb n (compress st (firstn 64 bytes)) (skipn 64 bytes)
  end.

Definition hex_digit (d : Z) : N :=
  if d <? 10 then Z.to_N (48 + d) else Z.to_N (87 + d).

Definition hex (digits : nat) (n : Z) : jsstring :=
  map (fun i => hex_digit (Z.land (Z.shiftr n (4 * Z.of_nat i)) 0xf))
      (rev (seq 0 digits)).

Definition sha256_hex (content : jsstring) : jsstring :=
  let bytes := pad (utf8_encode content) in
  flat_map (hex 8) (absorb (length bytes / 64) H256 bytes).

(** ** [JSON.stringify(snapshot, null, 2)] *)

Definition backslash : jsstring := [92%N].
Definition newline : jsstring := [10%N].

(** [QuoteJSONString], one code unit at a time; [next] is the code unit
    that follows and [prev_high] tells whether the previous one was the
    first half of a surrogate pair. *)
Definition quote_unit (prev_high : bool) (c : N) (next : option N) : jsstring :=
  let z := Z.of_N c in
  if (c =? 34)%N then backslash ++ dquote
  else if (c =? 92)%N then backslash ++ backslash
  else if (c =? 8)%N then backslash ++ lit "b"
  else if (c =? 9)%N then backslash ++ lit "t"
  else if (c =? 10)%N then backslash ++ lit "n"
  else if (c =? 12)%N then backslash ++ lit "f"
  else if (c =? 13)%N then backslash ++ lit "r"
  else if (c <? 32)%N then backslash ++ lit "u" ++ hex 4 z
  else if is_high_surrogate z then
    match next with
    | Some d => if is_low_surrogate (Z.of_N d) then [c]
                else backslash ++ lit "u" ++ hex 4 z
    | None => backslash ++ lit "u" ++ hex 4 z
    end
  else if is_low_surrogate z then
    if prev_high then [c] else backslash ++ lit "u" ++ hex 4 z
  else [c].

Fixpoint quote_units (prev_high : bool) (s : jsstring) : jsstring :=
  match s with
  | [] => []
  | c :: s' =>
      let paired :=
        is_high_surrogate (Z.of_N c)
        && match s' with
           | d :: _ => is_low_surrogate (Z.of_N d)
           | [] => false
           end in
      quote_unit prev_high c (head s') ++ quote_units paired s'
  end.

Definition quote (s : jsstring) : jsstring :=
  dquote ++ quote_units false s ++ dquote.

Definition stringify_property (indent : jsstring) (key value : jsstring)
  : jsstring :=
  indent ++ quote key ++ lit ": " ++ value.

Fixpoint join_lines (lines : list jsstring) : jsstring :=
  match lines with
  | [] => []
  | [l] => l
  | l :: rest => l ++ lit "," ++ newline ++ join_lines rest
  end.

Definition stringify_metrics (o : Metrics) : jsstring :=
  match o with
  | [] => lit "{}"
  | _ =>
      lit "{" ++ newline
        ++ join_lines
             (map (fun kv => stringify_property (lit "    ") (fst kv)
                               (string_of_Z (snd kv))) o)
        ++ newline ++ lit "  }"
  end.

(** The properties in the order of [{...currentContent, hash,
    timestamp}]; an [undefined] property is left out. *)
Definition JSON_stringify (snapshot : Content) : jsstring :=
  lit "{" ++ newline
    ++ join_lines
         ([ stringify_property (lit "  ") (lit "html") (quote (html snapshot));
            stringify_property (lit "  ") (lit "title") (quote (title snapshot));
            stringify_property (lit "  ") (lit "url") (quote (url snapshot));
            stringify_property (lit "  ") (lit "textContent")
              (quote (textContent snapshot));
            stringify_property (lit "  ") (lit "metrics")
              (stringify_metrics (metrics snapshot));
            stringify_property (lit "  ") (lit "timestamp")
              (quote (timestamp snapshot)) ]
          ++ match hash snapshot with
             | Some h => [stringify_property (lit "  ") (lit "hash") (quote h)]
             | None => []
             end)
    ++ newline ++ lit "}".

(** ** [JSON.parse] *)

Inductive json : Type :=
  | JNull
  | JBool (b : bool)
  | JNumber (z : Z)
  | JString (s : jsstring)
  | JArray (elements : list json)
  | JObject (members : list (jsstring * json)).

Fixpoint skip_ws (s : jsstring) : jsstring :=
  match s with
  | c :: s' =>
      if ((c =? 32) || (c =? 9) || (c =? 10) || (c =? 13))%N
      then skip_ws s' else s
  | [] => []
  end.

Definition hex_value (c : N) : option Z :=
  let z := Z.of_N c in
  if (48 <=? z) && (z <=? 57) then Some (z - 48)
  else if (97 <=? z) && (z <=? 102) then Some (z - 87)
  else if (65 <=? z) && (z <=? 70) then Some (z - 55)
  else None.

Definition hex4 (a b c d : N) : option N :=
  match hex_value a, hex_value b, hex_value c, hex_value d with
  | Some x, Some y, Some z, Some w =>
      Some (Z.to_N (((x * 16 + y) * 16 + z) * 16 + w))
  | _, _, _, _ => None
  end.

Definition unescape (c : N) : option N :=
  if (c =? 34)%N then Some 34%N
  else if (c =? 92)%N then Some 92%N
  else if (c =? 47)%N then Some 47%N
  else if (c =? 98)%N then Some 8%N
  else if (c =? 102)%N then Some 12%N
  else if (c =? 110)%N then Some 10%N
  else if (c =? 114)%N then Some 13%N
  else if (c =? 116)%N then Some 9%N
  else None.

(** The characters of a string literal after its opening quote. *)
Fixpoint parse_string (s : jsstring) (acc : jsstring)
  : option (jsstring * jsstring) :=
  match s with
  | [] => None
  | c :: s' =>
      if (c =? 34)%N then Some (rev acc, s')
      else if (c =? 92)%N then
        match s' with
        | e :: s'' =>
            if (e =? 117)%N then
              match s'' with
              | a :: b :: x :: y :: s''' =>
                  match hex4 a b x y with
                  | Some u => parse_string s''' (u :: acc)
                  | None => None
                  end
              | _ => None
              end
            else
              match unescape e with
              | Some u => parse_string s'' (u :: acc)
              | None => None
              end
        | [] => None
        end
      else if (c <? 32)%N then None
      else parse_string s' (c :: acc)
  end.

Definition is_digit (c : N) : bool := ((48 <=? c) && (c <=? 57))%N.

Fixpoint parse_digits (s : jsstring) (acc : Z) : Z * jsstring :=
  match s with
  | c :: s' =>
      if is_digit c then parse_digits s' (10 * acc + (Z.of_N c - 48))
      else (acc, s)
  | [] => (acc, [])
  end.

(** Integers only: a fraction or an exponent is not a count. *)
Definition parse_number (s : jsstring) : option (Z * jsstring) :=
  let '(negative, s1) :=
    match s with
    | c :: s' => if (c =? 45)%N then (true, s') else (false, s)
    | [] => (false, s)
    end in
  match s1 with
  | d :: s2 =>
      if is_digit d then
        if (d =? 48)%N && match s2 with e :: _ => is_digit e | [] => false end
        then None
        else
          let '(n, rest) := parse_digits s1 0 in
          match rest with
          | c :: _ =>
              if ((c =? 46) || (c =? 101) || (c =? 69))%N then None
              else Some (if negative then - n else n, rest)
          | [] => Some (if negative then - n else n, rest)
          end
      else None
  | [] => None
  end.

Definition expect (word : string) (v : json) (s : jsstring)
  : option (json * jsstring) :=
  if bool_decide (firstn (length (lit word)) s = lit word)
  then Some (v, skipn (length (lit word)) s) else None.

Fixpoint parse_value (fuel : nat) (s : jsstring) : option (json * jsstring) :=
  match fuel with
  | O => None
  | S fuel' =>
      match skip_ws s with
      | [] => None
      | c :: rest =>
          if (c =? 34)%N then
            match parse_string rest [] with
            | Some (str, rest') => Some (JString str, rest')
            | None => None
            end
          else if (c =? 123)%N then
            match skip_ws rest with
            | d :: rest' =>
                if (d =? 125)%N then Some (JObject [], rest')
                else parse_members fuel' rest []
            | [] => None
            end
          else if (c =? 91)%N then
            match skip_ws rest with
            | d :: rest' =>
                if (d =? 93)%N then Some (JArray [], rest')
                else parse_elements fuel' rest []
            | [] => None
            end
          else if (c =? 116)%N then expect "true" (JBool true) (c :: rest)
          else if (c =? 102)%N then expect "false" (JBool false) (c :: rest)
          else if (c =? 110)%N then expect "null" JNull (c :: rest)
          else
            match parse_number (c :: rest) with
            | Some (n, rest') => Some (JNumber n, rest')
            | None => None
            end
      end
  end
with parse_members (fuel : nat) (s : jsstring) (acc : list (jsstring * json))
  : option (json * jsstring) :=
  match fuel with
  | O => None
  | S fuel' =>
      match skip_ws s with
      | c :: rest =>
          if (c =? 34)%N then
            match parse_string rest [] with
            | Some (key, rest1) =>
                match skip_ws rest1 with
                | colon :: rest2 =>
                    if (colon =? 58)%N then
                      match parse_value fuel' rest2 with
                      | Some (v, rest3) =>
                          match skip_ws rest3 with
                          | d :: rest4 =>
                              if (d =? 44)%N then
                                parse_members fuel' rest4 ((key, v) :: acc)
                              else if (d =? 125)%N then
                                Some (JObject (rev ((key, v) :: acc)), rest4)
                              else None
                          | [] => None
                          end
                      | None => None
                      end
                    else None
                | [] => None
                end
            | None => None
            end
          else None
      | [] => None
      end
  end
with parse_elements (fuel : nat) (s : jsstring) (acc : list json)
  : option (json * jsstring) :=
  match fuel with
  | O => None
  | S fuel' =>
      match parse_value fuel' s with
      | Some (v, rest) =>
          match skip_ws rest with
          | d :: rest' =>
              if (d =? 44)%N then parse_elements fuel' rest' (v :: acc)
              else if (d =? 93)%N then Some (JArray (rev (v :: acc)), rest')
              else None
          | [] => None
          end
      | None => None
      end
  end.

Definition parse_text (s : jsstring) : option json :=
  match parse_value (S (length s)) s with
  | Some (v, rest) =>
      match skip_ws rest with
      | [] => Some v
      | _ => None
      end
  | None => None
  end.

(** The value of a property; of two members with one key the later
    counts. *)
Definition member (key : jsstring) (members : list (jsstring * json))
  : option json :=
  snd <$> List.find (fun kv => bool_decide (fst kv = key)) (rev members).

(** Defining a property on an object under construction. *)
Fixpoint define (o : Metrics) (key : jsstring) (v : Z) : Metrics :=
  match o with
  | [] => [(key, v)]
  | (k, x) :: o' =>
      if bool_decide (k = key) then (k, v) :: o' else (k, x) :: define o' key v
  end.

Fixpoint metrics_of (members : list (jsstring * json)) (o : Metrics)
  : option Metrics :=
  match members with
  | [] => Some o
  | (k, JNumber z) :: rest => metrics_of rest (define o k z)
  | _ => None
  end.

(** The parsed document as a snapshot object; [None] when the text is
    not JSON.  A document that does not have the shape of a snapshot is
    outside the domain of the model (see the services of the monitor)
    and is given [None] as well. *)
Definition JSON_parse (text : jsstring) : option Content :=
  match parse_text text with
  | Some (JObject members) =>
      match member (lit "html") members, member (lit "title") members,
            member (lit "url") members, member (lit "textContent") members,
            member (lit "metrics") members, member (lit "timestamp") members
      with
      | Some (JString h), Some (JString t), Some (JString u),
        Some (JString x), Some (JObject ms), Some (JString stamp) =>
          match metrics_of ms [], member (lit "hash") members with
          | Some o, Some (JString digest) =>
              Some {| html := h; title := t; url := u; textContent := x;
                      metrics := o; timestamp := stamp;
                      hash := Some digest |}
          | Some o, None =>
              Some {| html := h; title := t; url := u; textContent := x;
                      metrics := o; timestamp := stamp; hash := None |}
          | _, _ => None
          end
      | _, _, _, _, _, _ => None
      end
  | _ => None
  end.

(** ** [path.join] *)

Definition slash : N := 47%N.

Fixpoint segments (s : jsstring) (seg : jsstring) : list jsstring :=
  match s with
  | [] => [rev seg]
  | c :: s' =>
      if (c =? slash)%N then rev seg :: segments s' []
      else segments s' (c :: seg)
  end.

(** Resolution of [.] and [..]; [stack] holds the kept segments, last
    first. *)
Fixpoint resolve (absolute : bool) (segs stack : list jsstring)
  : list jsstring :=
  match segs with
  | [] => rev stack
  | seg :: rest =>
      if bool_decide (seg = []) || bool_decide (seg = lit ".")
      then resolve absolute rest stack
      else if bool_decide (seg = lit "..") then
        match stack with
        | top :: below =>
            if bool_decide (top = lit "..")
            then resolve absolute rest (seg :: stack)
            else resolve absolute rest below
        | [] =>
            if absolute then resolve absolute rest []
            else resolve absolute rest [seg]
        end
      else resolve absolute rest (seg :: stack)
  end.

Fixpoint join_segments (segs : list jsstring) : jsstring :=
  match segs with
  | [] => []
  | [seg] => seg
  | seg :: rest => seg ++ [slash] ++ join_segments rest
  end.

Definition normalize (p : jsstring) : jsstring :=
  match p with
  | [] => lit "."
  | c :: _ =>
      let absolute := (c =? slash)%N in
      let trailing :=
        match last p with
        | Some c' => (c' =? slash)%N
        | None => false
        end in
      let body := join_segments (resolve absolute (segments p []) []) in
      let body :=
        match body with
        | [] => if absolute then [] else lit "."
        | _ => if trailing then body ++ [slash] else body
        end in
      if absolute then slash :: body else body
  end.

Definition path_join (a b : jsstring) : jsstring :=
  match a, b with
  | [], [] => lit "."
  | [], _ => normalize b
  | _, [] => normalize a
  | _, _ => normalize (a ++ [slash] ++ b)
  end.

(** [config.paths.reports] when [REPORTS_DIR] is not set. *)
Definition reports : jsstring := lit "./data/reports".

End Node.

(** * The report generator

    The data pipeline of [src/services/reportGenerator.js], which turns
    the results of [monitorAll] into counts, insights and
    recommendations.  Lengths and counts are natural numbers. *)

(** The argument of [generateWeeklyReport]; a missing property is
    [None].  Price and SEO records are passed through as they are. *)
Record MonitoringData : Type := {
  websiteMonitoring : option (list Results);
  priceMonitoring : option (list Node.json);
  seoMonitoring : option (list Node.json)
}.

(** An element of [processed.competitors]. *)
Record CompetitorSummary : Type := {
  cs_name : jsstring;
  cs_website : jsstring;
  cs_changes : nat;
  cs_errors : nat
}.

(** An element of [processed.websiteChanges]. *)
Record WebsiteChanges : Type := {
  wc_competitor : jsstring;
  wc_changes : list ChangeRecord;
  wc_metrics : option CalculatedMetrics
}.

Record SummaryStats : Type := {
  totalCompetitors : nat;
  totalWebsiteChanges : nat;
  activeCompetitors : nat
}.

(** The object built by [processData]; [summary] is [None] while it is
    still the empty object. *)
Record ProcessedData : Type := {
  competitors : list CompetitorSummary;
  websiteChanges : list WebsiteChanges;
  priceChanges : list Node.json;
  seoMetrics : list Node.json;
  summary : option SummaryStats
}.

(** [items.reduce((sum, item) => sum + item.changes.length, 0)]. *)
Definition sum_changes (items : list WebsiteChanges) : nat :=
  fold_left (fun sum item => (sum + length (wc_changes item))%nat) items 0%nat.

Definition generateSummaryStats (processedData : ProcessedData) : SummaryStats :=
  {| totalCompetitors := length (competitors processedData);
     totalWebsiteChanges := sum_changes (websiteChanges processedData);
     activeCompetitors :=
       length (List.filter (fun c => (0 <? cs_changes c)%nat)
                 (competitors processedData)) |}.

(** The two pushes of the [forEach] callback of [processData], folded
    over the results. *)
Definition process_result (processed : ProcessedData) (result : Results)
  : ProcessedData :=
  {| competitors :=
       competitors processed
         ++ [ {| cs_name := res_competitor result;
                 cs_website := res_website result;
                 cs_changes := length (res_changes result);
                 cs_errors := length (res_errors result) |} ];
     websiteChanges :=
       if (0 <? length (res_changes result))%nat then
         websiteChanges processed
           ++ [ {| wc_competitor := res_competitor result;
                   wc_changes := res_changes result;
                   wc_metrics := res_metrics result |} ]
       else websiteChanges processed;
     priceChanges := priceChanges processed;
     seoMetrics := seoMetrics processed;
     summary := summary processed |}.

Definition processData (data : MonitoringData) : ProcessedData :=
  let processed :=
    {| competitors := []; websiteChanges := []; priceChanges := [];
       seoMetrics := []; summary := None |} in
  let processed :=
    match websiteMonitoring data with
    | Some results => fold_left process_result results processed
    | None => processed
    end in
  let processed :=
    {| competitors := competitors processed;
       websiteChanges := websiteChanges processed;
       priceChanges :=
         match priceMonitoring data with
         | Some prices => prices
         | None => priceChanges processed
         end;
       seoMetrics :=
         match seoMonitoring data with
         | Some seo => seo
         | None => seoMetrics processed
         end;
       summary := summary processed |} in
  {| competitors := competitors processed;
     websiteChanges := websiteChanges processed;
     priceChanges := priceChanges processed;
     seoMetrics := seoMetrics processed;
     summary := Some (generateSummaryStats processed) |}.

(** An element of the array returned by [identifyTopCompetitors]. *)
Record TopCompetitor : Type := {
  tc_name : jsstring;
  tc_websiteChanges : nat;
  totalActivity : nat
}.

(** [competitors.sort((a, b) => b.totalActivity - a.totalActivity)]: the
    array sorted by decreasing activity, elements of equal activity in
    their original order ([Array.prototype.sort] is stable).
    [place x sorted] puts [x], which stood before the elements of
    [sorted], in front of the first element that is not more active. *)
Fixpoint place (x : TopCompetitor) (sorted : list TopCompetitor)
  : list TopCompetitor :=
  match sorted with
  | [] => [x]
  | y :: rest =>
      if (totalActivity x <? totalActivity y)%nat then y :: place x rest
      else x :: y :: rest
  end.

Definition sort_by_activity (l : list TopCompetitor) : list TopCompetitor :=
  fold_right place [] l.

Definition identifyTopCompetitors (processedData : ProcessedData)
  : list TopCompetitor :=
  sort_by_activity
    (map (fun comp => {| tc_name := cs_name comp;
                         tc_websiteChanges := cs_changes comp;
                         totalActivity := cs_changes comp |})
         (competitors processedData)).

(** The [competitors] property of an insight: names for a website
    insight, competitor objects for a competitive one. *)
Inductive InsightCompetitors : Type :=
  | Names (names : list jsstring)
  | Tops (tops : list TopCompetitor).

Record Insight : Type := {
  insight_type : jsstring;
  insight_title : jsstring;
  insight_description : jsstring;
  insight_severity : Severity;
  insight_competitors : InsightCompetitors
}.

Definition string_of_nat (n : nat) : jsstring := string_of_Z (Z.of_nat n).

Definition generateInsights (processedData : ProcessedData) : list Insight :=
  (if (0 <? length (websiteChanges processedData))%nat then
     let totalChanges := sum_changes (websiteChanges processedData) in
     [ {| insight_type := lit "website";
          insight_title := lit "Website Activity Detected";
          insight_description :=
            string_of_nat totalChanges
              ++ lit " website changes detected across "
              ++ string_of_nat (length (websiteChanges processedData))
              ++ lit " competitors";
          insight_severity := if (5 <? totalChanges)%nat then high else medium;
          insight_competitors :=
            Names (map wc_competitor (websiteChanges processedData)) |} ]
   else [])
  ++ (let topCompetitors := identifyTopCompetitors processedData in
      match topCompetitors with
      | top :: _ =>
          [ {| insight_type := lit "competitive";
               insight_title := lit "Top Performing Competitors";
               insight_description :=
                 tc_name top ++ lit " shows the highest activity level";
               insight_severity := medium;
               insight_competitors := Tops (firstn 3 topCompetitors) |} ]
      | [] => []
      end).

Record Recommendation : Type := {
  rec_title : jsstring;
  rec_description : jsstring;
  priority : Severity;
  action : jsstring
}.

(** [insight.competitors[0].name] in a template literal: the name of
    the first competitor object; [undefined] when the first element is
    a string; a [TypeError] when there is no first element. *)
Definition first_competitor_name (competitors : InsightCompetitors)
  : Completion jsstring :=
  match competitors with
  | Tops (top :: _) => Normal (tc_name top)
  | Names (_ :: _) => Normal (lit "undefined")
  | Tops [] | Names [] =>
      Throw {| message :=
                 lit "Cannot read properties of undefined (reading 'name')" |}
  end.

(** The [switch] in the callback of [generateRecommendations]: the
    recommendations pushed for one insight. *)
Definition recommend (insight : Insight) : Completion (list Recommendation) :=
  if bool_decide (insight_type insight = lit "website") then
    Normal
      [ {| rec_title := lit "Monitor Website Changes Closely";
           rec_description :=
             lit "Competitors are actively updating their websites. Consider reviewing your own website strategy.";
           priority :=
             match insight_severity insight with
             | high => high
             | medium => medium
             end;
           action := lit "Review website content and consider updates" |} ]
  else if bool_decide (insight_type insight = lit "competitive") then
    match first_competitor_name (insight_competitors insight) with
    | Normal name =>
        Normal
          [ {| rec_title := lit "Analyze Top Competitor Strategies";
               rec_description :=
                 lit "Study " ++ name
                   ++ lit "'s approach to identify opportunities.";
               priority := high;
               action := lit "Conduct detailed competitor analysis" |} ]
    | Throw e => Throw e
    end
  else Normal [].

Definition general_recommendation : Recommendation :=
  {| rec_title := lit "Regular Monitoring Schedule";
     rec_description :=
       lit "Continue weekly monitoring to track trends and identify patterns.";
     priority := medium;
     action := lit "Maintain current monitoring schedule" |}.

(** The [forEach] of [generateRecommendations]; a throw in the callback
    ends it. *)
Fixpoint recommend_each (insights : list Insight)
    (recommendations : list Recommendation)
  : Completion (list Recommendation) :=
  match insights with
  | [] => Normal recommendations
  | insight :: rest =>
      match recommend insight with
      | Normal pushed => recommend_each rest (recommendations ++ pushed)
      | Throw e => Throw e
      end
  end.

Definition generateRecommendations (insights : list Insight)
  : Completion (list Recommendation) :=
  match recommend_each insights [] with
  | Normal recommendations =>
      Normal (recommendations ++ [general_recommendation])
  | Throw e => Throw e
  end.

Definition countTotalChanges (processedData : ProcessedData) : nat :=
  (0 + sum_changes (websiteChanges processedData))%nat.

Definition calculateTotalEngagement (processedData : ProcessedData) : nat :=
  0%nat.

(** The object returned by [generateSummary]. *)
Record ReportSummary : Type := {
  summary_totalCompetitors : nat;
  summary_websiteChanges : nat;
  summary_totalEngagement : nat
}.

Definition generateSummary (processedData : ProcessedData) : ReportSummary :=
  {| summary_totalCompetitors := length (competitors processedData);
     summary_websiteChanges := countTotalChanges processedData;
     summary_totalEngagement := calculateTotalEngagement processedData |}.

(** * The competitors loader

    [src/utils/competitorsLoader.js]: the competitors file as the agent
    and the monitor see it. *)

(** A competitor object of the competitors file.  A property that may
    be missing is an [option]; [monitoring] maps the name of a switch
    ([enabled], [website], [socialMedia], ...) to its boolean;
    [socialMedia] maps a platform to a handle. *)
Record CompetitorEntry : Type := {
  entry_id : option jsstring;
  entry_name : jsstring;
  entry_website : jsstring;
  monitoring : option (list (jsstring * bool));
  socialMedia : option (list (jsstring * jsstring));
  ecommerce_url : option jsstring
}.

(** [comp.monitoring?.[key]]. *)
Definition switch (comp : CompetitorEntry) (key : jsstring) : option bool :=
  match monitoring comp with
  | Some switches =>
      snd <$> List.find (fun kv => bool_decide (fst kv = key)) switches
  | None => None
  end.

(** [value !== false] on a switch. *)
Definition not_false (value : option bool) : bool :=
  match value with
  | Some false => false
  | _ => true
  end.

(** The competitor as [monitorWebsite] and [monitorAll] read it: the id
    inside a template literal, and the truthiness of
    [monitoring?.website]. *)
Definition monitor_view (comp : CompetitorEntry) : Competitor :=
  {| id := match entry_id comp with
           | Some i => i
           | None => lit "undefined"
           end;
     name := entry_name comp;
     website := entry_website comp;
     monitoring_website :=
       match switch comp (lit "website") with
       | Some true => true
       | _ => false
       end |}.

(** [competitors.find(comp => comp.id === id) || null]. *)
Definition find_by_id (competitors : list CompetitorEntry) (id : jsstring)
  : option CompetitorEntry :=
  List.find (fun comp => bool_decide (entry_id comp = Some id)) competitors.

Definition find_by_name (competitors : list CompetitorEntry) (name : jsstring)
  : option CompetitorEntry :=
  List.find (fun comp => bool_decide (entry_name comp = name)) competitors.

Definition active_competitors (competitors : list CompetitorEntry)
  : list CompetitorEntry :=
  List.filter (fun comp => not_false (switch comp (lit "enabled"))) competitors.

Definition competitors_with_monitoring (competitors : list CompetitorEntry)
    (monitoringType : jsstring) : list CompetitorEntry :=
  List.filter
    (fun comp => not_false (switch comp (lit "enabled"))
                 && not_false (switch comp monitoringType))
    competitors.

(** ** [generateCompetitorId] *)

Definition is_lower_alnum (c : N) : bool :=
  ((97 <=? c) && (c <=? 122) || (48 <=? c) && (c <=? 57))%N.

Definition dash : N := 45%N.

(** [name.toLowerCase().replace(/[^a-z0-9]/g, '-')], one code unit at a
    time.  The code units whose lower case holds a letter or digit of
    ASCII are the capitals A to Z, the Kelvin sign U+212A (lower case
    k) and U+0130 (lower case i followed by U+0307); every other code
    unit becomes one or more dashes, never a letter or digit. *)
Definition lower_or_dash (c : N) : jsstring :=
  if is_lower_alnum c then [c]
  else if ((65 <=? c) && (c <=? 90))%N then [(c + 32)%N]
  else if (c =? 8490)%N then [107%N]
  else if (c =? 304)%N then [105%N; dash]
  else [dash].

(** [.replace(/-+/g, '-')]. *)
Fixpoint squeeze_dashes (s : jsstring) : jsstring :=
  match s with
  | [] => []
  | c :: rest =>
      if (c =? dash)%N then
        match rest with
        | d :: _ => if (d =? dash)%N then squeeze_dashes rest
                    else c :: squeeze_dashes rest
        | [] => [c]
        end
      else c :: squeeze_dashes rest
  end.

(** [.replace(/^-|-$/g, '')]: one dash off the front, one off the end. *)
Definition strip_front (s : jsstring) : jsstring :=
  match s with
  | c :: rest => if (c =? dash)%N then rest else s
  | [] => []
  end.

Definition strip_dashes (s : jsstring) : jsstring :=
  rev (strip_front (rev (strip_front s))).

Definition base_id (name : jsstring) : jsstring :=
  strip_dashes (squeeze_dashes (flat_map lower_or_dash name)).

(** * Report files and the analysis run

    [generateWeeklyReport] and [saveReports] of the report generator,
    and [runAnalysis] and [sendEmailReport] of [src/index.js], the
    caller of [monitorAll].  They run over the environment of the
    monitor extended with the state of the agent, its own log and the
    mail it sends. *)

(** What is passed to [transporter.sendMail] (sender and recipient are
    configuration constants). *)
Record MailOptions : Type := {
  mail_subject : jsstring;
  mail_html : jsstring;
  attachment_filename : jsstring;
  attachment_path : jsstring
}.

(** The calls on [logger] made by the report generator and the agent. *)
Inductive Notice : Type :=
  | StartingReportGeneration
  | TemplateNotFound
  | ReportGenerated (reportId : jsstring) (formats : list jsstring)
  | ReportGenerationFailed (error : Error)
  | StartingAnalysis
  | LoadedCompetitors (count : nat)
  | StartingMonitoring
  | GeneratingReport
  | AnalysisCompleted (competitors websiteChanges : nat) (reportId : jsstring)
  | AnalysisFailed (error : Error)
  | EmailSent
  | EmailFailed (error : Error)
  | LoadFailed (error : Error).

(** [loaded] and [lastLoaded] are the cache of the competitors loader;
    [mail_error] is the rejection of [transporter.sendMail], if any. *)
Record System : Type := {
  world : World;
  isRunning : bool;
  lastRun : option jsstring;
  loaded : list CompetitorEntry;
  lastLoaded : option jsstring;
  notices : list Notice;
  outbox : list MailOptions;
  mail_error : option Error
}.

Definition Run (A : Type) : Type := System -> Completion A * System.

Definition run_ret {A} (a : A) : Run A := fun s => (Normal a, s).

Definition run_bind {A B} (m : Run A) (k : A -> Run B) : Run B :=
  fun s =>
    match m s with
    | (Normal a, s') => k a s'
    | (Throw e, s') => (Throw e, s')
    end.

Definition run_throw {A} (e : Error) : Run A := fun s => (Throw e, s).

Definition run_try {A} (body : Run A) (handler : Error -> Run A) : Run A :=
  fun s =>
    match body s with
    | (Normal a, s') => (Normal a, s')
    | (Throw e, s') => handler e s'
    end.

(** [try { body } finally { cleanup }], for a [cleanup] that does not
    throw. *)
Definition run_finally {A} (body : Run A) (cleanup : System -> System)
  : Run A :=
  fun s => let '(c, s') := body s in (c, cleanup s').

Definition set_world (w : World) (s : System) : System :=
  {| world := w; isRunning := isRunning s; lastRun := lastRun s;
     loaded := loaded s; lastLoaded := lastLoaded s;
     notices := notices s; outbox := outbox s; mail_error := mail_error s |}.

(** A computation of the monitor's environment inside the system. *)
Definition in_world {A} (m : M A) : Run A :=
  fun s => let '(c, w') := m (world s) in (c, set_world w' s).

Definition run_call {A} (c : Completion A) : Run A := fun s => (c, s).

Definition notice (n : Notice) : Run unit :=
  fun s =>
    (Normal tt,
     {| world := world s; isRunning := isRunning s; lastRun := lastRun s;
        loaded := loaded s; lastLoaded := lastLoaded s;
        notices := notices s ++ [n]; outbox := outbox s;
        mail_error := mail_error s |}).

Definition set_isRunning (b : bool) (s : System) : System :=
  {| world := world s; isRunning := b; lastRun := lastRun s;
     loaded := loaded s; lastLoaded := lastLoaded s;
     notices := notices s; outbox := outbox s; mail_error := mail_error s |}.

Definition set_lastRun (stamp : jsstring) (s : System) : System :=
  {| world := world s; isRunning := isRunning s; lastRun := Some stamp;
     loaded := loaded s; lastLoaded := lastLoaded s;
     notices := notices s; outbox := outbox s; mail_error := mail_error s |}.

Definition set_loaded (competitors : list CompetitorEntry) (stamp : jsstring)
    (s : System) : System :=
  {| world := world s; isRunning := isRunning s; lastRun := lastRun s;
     loaded := competitors; lastLoaded := Some stamp;
     notices := notices s; outbox := outbox s; mail_error := mail_error s |}.

(** [transporter.sendMail(mailOptions)]. *)
Definition sendMail (mail : MailOptions) : Run unit :=
  fun s =>
    match mail_error s with
    | Some e => (Throw e, s)
    | None =>
        (Normal tt,
         {| world := world s; isRunning := isRunning s; lastRun := lastRun s;
            loaded := loaded s; lastLoaded := lastLoaded s;
            notices := notices s; outbox := outbox s ++ [mail];
            mail_error := mail_error s |})
    end.

Notation "'let!!' x ':=' m 'in' k" := (run_bind m (fun x => k))
  (at level 10, x name, m at level 100, k at level 200) : js_scope.
Notation "m ';;;;' k" := (run_bind m (fun _ => k))
  (at level 100, k at level 200, right associativity) : js_scope.

(** [String(n).padStart(2, '0')]. *)
Definition padStart2 (s : jsstring) : jsstring :=
  List.repeat 48%N (2 - length s) ++ s.

(** The id built by [generateReportId] from [getFullYear()],
    [getMonth()] and [getDate()]. *)
Definition report_id (year month date : Z) : jsstring :=
  lit "weekly-" ++ string_of_Z year ++ lit "-"
    ++ padStart2 (string_of_Z (month + 1)) ++ lit "-"
    ++ padStart2 (string_of_Z date).

Record ReportMetadata : Type := {
  meta_competitors : nat;
  meta_totalChanges : nat;
  meta_totalEngagement : nat
}.

(** The object handed to the template and to [JSON.stringify]. *)
Record ReportData : Type := {
  reportId : jsstring;
  generatedAt : jsstring;
  period : jsstring;
  report_summary : ReportSummary;
  insights : list Insight;
  recommendations : list Recommendation;
  detailedData : ProcessedData;
  metadata : ReportMetadata
}.

(** The object returned by [generateWeeklyReport]; [result_files] maps
    a format to the path of its file, in the order of saving. *)
Record ReportResult : Type := {
  result_reportId : jsstring;
  result_generatedAt : jsstring;
  result_files : list (jsstring * jsstring);
  result_summary : ReportSummary;
  result_insights : nat;
  result_recommendations : nat
}.

(** The object returned by [runAnalysis] (its [duration] is left out). *)
Record AnalysisResult : Type := {
  success : bool;
  analysis_reportId : jsstring;
  analysis_summary : ReportSummary;
  analysis_insights : nat;
  analysis_recommendations : nat
}.

(** [files[format]] on the object of saved files. *)
Fixpoint file_of (files : list (jsstring * jsstring)) (format : jsstring)
  : option jsstring :=
  match files with
  | [] => None
  | (k, path) :: rest =>
      if bool_decide (k = format) then Some path else file_of rest format
  end.

Section Agent.

(** The services of the monitor, and besides: the local calendar date
    (year, month index, day) of a clock reading; [moment]'s rendering of
    the current week; the application of a compiled Handlebars template
    to the report data, which may throw; [JSON.stringify] on report
    data; the text of the built-in template; the templates directory;
    the configured report format and email switch; the path of the
    competitors file, and [JSON.parse(data).competitors || []] on its
    text, which may throw. *)
Variable sha256_hex : jsstring -> jsstring.
Variable JSON_stringify : Content -> jsstring.
Variable JSON_parse : jsstring -> option Content.
Variable path_join : jsstring -> jsstring -> jsstring.
Variable reports : jsstring.
Variable this_getPageContent : jsstring -> M (option Content).
Variable calendar : jsstring -> Z * Z * Z.
Variable getReportPeriod : jsstring -> jsstring.
Variable apply_template : jsstring -> ReportData -> Completion jsstring.
Variable stringify_report : ReportData -> jsstring.
Variable default_template : jsstring.
Variable templatesDir : jsstring.
Variable report_format : jsstring.
Variable emailEnabled : bool.
Variable competitors_file : jsstring.
Variable parse_competitors : jsstring -> Completion (list CompetitorEntry).

(** [getCompetitors()]: the cached array; while the cache is empty the
    file is read and parsed first, and a failure of that is logged and
    answered with an empty array. *)
Definition getCompetitors : Run (list CompetitorEntry) :=
  fun s =>
    if (length (loaded s) =? 0)%nat then
      run_try
        (let!! data := in_world (readFile competitors_file) in
         let!! competitors := run_call (parse_competitors data) in
         let!! stamp := in_world Date_toISOString in
         (fun s' => (Normal tt, set_loaded competitors stamp s')) ;;;;
         (fun s' => (Normal (loaded s'), s')))
        (fun error => notice (LoadFailed error) ;;;; run_ret [])
        s
    else (Normal (loaded s), s).

Definition getCompetitorsCount : Run nat :=
  let!! competitors := getCompetitors in run_ret (length competitors).

Definition getCompetitorById (id : jsstring) : Run (option CompetitorEntry) :=
  let!! competitors := getCompetitors in run_ret (find_by_id competitors id).

Definition getActiveCompetitors : Run (list CompetitorEntry) :=
  let!! competitors := getCompetitors in
  run_ret (active_competitors competitors).

Definition getCompetitorsWithMonitoring (monitoringType : jsstring)
  : Run (list CompetitorEntry) :=
  let!! competitors := getCompetitors in
  run_ret (competitors_with_monitoring competitors monitoringType).

(** The [while] loop of [generateCompetitorId], entered with [id] and
    [counter]; [fuel] bounds the number of rounds, and [None] is the
    answer when they are used up. *)
Fixpoint next_free_id (fuel : nat) (baseId id : jsstring) (counter : Z)
  : Run (option jsstring) :=
  let!! found := getCompetitorById id in
  match found with
  | None => run_ret (Some id)
  | Some _ =>
      match fuel with
      | O => run_ret None
      | S fuel' =>
          next_free_id fuel' baseId
            (baseId ++ lit "-" ++ string_of_Z counter) (counter + 1)
      end
  end.

Definition generateCompetitorId (fuel : nat) (name : jsstring)
  : Run (option jsstring) :=
  next_free_id fuel (base_id name) (base_id name) 1.

Definition generateReportId : Run jsstring :=
  let!! stamp := in_world Date_toISOString in
  let '(year, month, date) := calendar stamp in
  run_ret (report_id year month date).

Definition templatePath : jsstring :=
  path_join templatesDir (lit "weekly-report.hbs").

Definition createDefaultTemplate : Run unit :=
  in_world (writeFile templatePath default_template).

(** [loadHTMLTemplate]: the text of the template file; when it cannot be
    read, the built-in template is written in its place and read back.
    ([Handlebars.compile] parses only when the template is applied.) *)
Definition loadHTMLTemplate : Run jsstring :=
  run_try
    (in_world (readFile templatePath))
    (fun _ =>
       notice TemplateNotFound ;;;;
       createDefaultTemplate ;;;;
       in_world (readFile templatePath)).

Definition generateHTMLReport (reportData : ReportData) : Run jsstring :=
  let!! template := loadHTMLTemplate in
  run_call (apply_template template reportData).

Definition generateJSONReport (reportData : ReportData) : Run jsstring :=
  run_ret (stringify_report reportData).

(** [saveReports]: the loop over [Object.entries(reports)]. *)
Fixpoint saveReports (reportId : jsstring)
    (reports_made : list (jsstring * jsstring))
    (savedFiles : list (jsstring * jsstring))
  : Run (list (jsstring * jsstring)) :=
  match reports_made with
  | [] => run_ret savedFiles
  | (format, content) :: rest =>
      let filename :=
        lit "competitors-report-" ++ reportId ++ lit "." ++ format in
      let filepath := path_join reports filename in
      in_world (writeFile filepath content) ;;;;
      saveReports reportId rest (savedFiles ++ [(format, filepath)])
  end.

Definition generateWeeklyReport (data : MonitoringData) : Run ReportResult :=
  notice StartingReportGeneration ;;;;
  run_try
    (let!! reportId := generateReportId in
     let!! reportDate := in_world Date_toISOString in
     let processedData := processData data in
     let insights := generateInsights processedData in
     let!! recommendations := run_call (generateRecommendations insights) in
     let reportData :=
       {| reportId := reportId;
          generatedAt := reportDate;
          period := getReportPeriod reportDate;
          report_summary := generateSummary processedData;
          insights := insights;
          recommendations := recommendations;
          detailedData := processedData;
          metadata :=
            {| meta_competitors := length (competitors processedData);
               meta_totalChanges := countTotalChanges processedData;
               meta_totalEngagement :=
                 calculateTotalEngagement processedData |} |} in
     let!! html_made :=
       if bool_decide (report_format = lit "html")
          || bool_decide (report_format = lit "all")
       then let!! html := generateHTMLReport reportData in
            run_ret [(lit "html", html)]
       else run_ret [] in
     let!! json_made :=
       if bool_decide (report_format = lit "json")
          || bool_decide (report_format = lit "all")
       then let!! json := generateJSONReport reportData in
            run_ret [(lit "json", json)]
       else run_ret [] in
     let!! savedFiles := saveReports reportId (html_made ++ json_made) [] in
     notice (ReportGenerated reportId (map fst savedFiles)) ;;;;
     run_ret {| result_reportId := reportId;
                result_generatedAt := reportDate;
                result_files := savedFiles;
                result_summary := report_summary reportData;
                result_insights := length insights;
                result_recommendations := length recommendations |})
    (fun error => notice (ReportGenerationFailed error) ;;;; run_throw error).

(** [sendEmailReport]: every failure is caught and logged.  Without an
    html file, [fs.readFile(undefined)] throws. *)
Definition sendEmailReport (reportResult : ReportResult) : Run unit :=
  run_try
    (match file_of (result_files reportResult) (lit "html") with
     | Some htmlReportPath =>
         let!! htmlContent := in_world (readFile htmlReportPath) in
         sendMail
           {| mail_subject :=
                lit "Competitors Analysis Report - "
                  ++ result_reportId reportResult;
              mail_html := htmlContent;
              attachment_filename :=
                lit "competitors-report-" ++ result_reportId reportResult
                  ++ lit ".html";
              attachment_path := htmlReportPath |} ;;;;
         notice EmailSent
     | None =>
         run_throw
           {| message :=
                lit "The " ++ dquote ++ lit "path" ++ dquote
                  ++ lit " argument must be of type string or an instance of Buffer or URL. Received undefined" |}
     end)
    (fun error => notice (EmailFailed error)).

(** [fs.access(path)]. *)
Definition access (path : jsstring) : M unit :=
  fun w =>
    match files w !! path with
    | Some _ => (Normal tt, w)
    | None =>
        (Throw {| message := lit "ENOENT: no such file or directory, access '"
                               ++ path ++ lit "'" |}, w)
    end.

(** [getReportPath(reportId)]: the path of the html report of that id
    when the file is there, [null] otherwise. *)
Definition getReportPath (reportId : jsstring) : Run (option jsstring) :=
  run_try
    (let htmlPath :=
       path_join reports
         (lit "competitors-report-" ++ reportId ++ lit ".html") in
     in_world (access htmlPath) ;;;;
     run_ret (Some htmlPath))
    (fun _ => run_ret None).

(** [results.websiteMonitoring.reduce((sum, r) => sum + r.changes.length, 0)]. *)
Definition count_changes (results : list Results) : nat :=
  fold_left (fun sum r => (sum + length (res_changes r))%nat) results 0%nat.

Definition runAnalysis : Run AnalysisResult :=
  fun s =>
    if isRunning s then
      (Throw {| message := lit "Analysis already running" |}, s)
    else
      run_finally
        (run_try
           (notice StartingAnalysis ;;;;
            let!! competitors := getCompetitors in
            if (length competitors =? 0)%nat then
              run_throw {| message := lit "No competitors configured" |}
            else
              notice (LoadedCompetitors (length competitors)) ;;;;
              notice StartingMonitoring ;;;;
              let!! websiteMonitoring :=
                in_world (monitorAll sha256_hex JSON_stringify JSON_parse
                            path_join reports this_getPageContent
                            (map monitor_view competitors)) in
              let results :=
                {| websiteMonitoring := Some websiteMonitoring;
                   priceMonitoring := Some [];
                   seoMonitoring := Some [] |} in
              notice GeneratingReport ;;;;
              let!! reportResult := generateWeeklyReport results in
              (if emailEnabled then sendEmailReport reportResult
               else run_ret tt) ;;;;
              let!! stamp := in_world Date_toISOString in
              (fun s' => (Normal tt, set_lastRun stamp s')) ;;;;
              notice (AnalysisCompleted (length competitors)
                        (count_changes websiteMonitoring)
                        (result_reportId reportResult)) ;;;;
              run_ret {| success := true;
                         analysis_reportId := result_reportId reportResult;
                         analysis_summary := result_summary reportResult;
                         analysis_insights := result_insights reportResult;
                         analysis_recommendations :=
                           result_recommendations reportResult |})
           (fun error => notice (AnalysisFailed error) ;;;; run_throw error))
        (set_isRunning false)
        (set_isRunning true s).

End Agent.

(** * Vocabulary of the properties *)

Definition is_finite (x : number) : Prop := exists q, x = Finite q.

(** The words of [current] that occur among the words of [previous],
    each occurrence counted. *)
Definition shared_words (current previous : Content) : list jsstring :=
  List.filter
    (fun word => bool_decide (word ∈ split_whitespace (textContent previous)))
    (split_whitespace (textContent current)).

Definition most_words (current previous : Content) : Z :=
  Z.max (Z.of_nat (length (split_whitespace (textContent current))))
        (Z.of_nat (length (split_whitespace (textContent previous)))).

(** The words of a text, as the specification has them: what lies
    between the runs of whitespace.  A text is a first word, then
    alternately a run of whitespace and a word.  No word holds
    whitespace; a run is not empty and what follows it does not start
    with whitespace, so that only the first and the last word can be
    empty. *)
Definition whitespace_free (t : jsstring) : Prop :=
  Forall (fun c => is_whitespace c = false) t.

Definition whitespace_run (sep : jsstring) : Prop :=
  sep <> [] /\ Forall (fun c => is_whitespace c = true) sep.

Definition starts_with_word (rest : jsstring) : Prop :=
  match rest with
  | [] => True
  | c :: _ => is_whitespace c = false
  end.

Inductive words_of : jsstring -> list jsstring -> Prop :=
| words_last (t : jsstring) :
    whitespace_free t -> words_of t [t]
| words_more (t sep rest : jsstring) (ws : list jsstring) :
    whitespace_free t -> whitespace_run sep -> starts_with_word rest ->
    words_of rest ws -> words_of (t ++ sep ++ rest) (t :: ws).

(** A content object with the given text, for examples. *)
Definition text_only (text : jsstring) : Content :=
  {| html := []; title := []; url := []; textContent := text;
     metrics := []; timestamp := []; hash := None |}.

(** The relative change [|c - p| / p] of a count. *)
Definition relative_change (c p : Z) : Q :=
  (Qabs (inject_Z c - inject_Z p) / inject_Z p)%Q.

(** The records of a change list that carry the metric name [key]. *)
Definition records_for (key : jsstring) (l : list ChangeRecord)
  : list ChangeRecord :=
  List.filter (fun r => bool_decide (metric r = Some key)) l.

(** A page and its snapshot as stored, for examples. *)
Definition home_html : jsstring :=
  lit "<html><head><title>Home</title></head><body>a b c d</body></html>".

Definition home_snapshot : Content :=
  {| html := home_html;
     title := lit "Home";
     url := lit "https://example.com/";
     textContent := lit "a b c d";
     metrics := [ (lit "wordCount", 4); (lit "linkCount", 0);
                  (lit "imageCount", 0); (lit "headingCount", 0) ];
     timestamp := lit "2024-01-01T09:00:00.000Z";
     hash := Some (Node.sha256_hex home_html) |}.

(** The same snapshot taken later, its metrics listed in another order. *)
Definition home_snapshot_again : Content :=
  {| html := home_html;
     title := lit "Home";
     url := lit "https://example.com/";
     textContent := lit "a b c d";
     metrics := [ (lit "headingCount", 0); (lit "imageCount", 0);
                  (lit "linkCount", 0); (lit "wordCount", 4) ];
     timestamp := lit "2024-01-02T09:00:00.000Z";
     hash := Some (Node.sha256_hex home_html) |}.

(** What the store holds for a competitor when the monitor alone writes
    to it: nothing, or a text that [JSON.parse] reads as a snapshot. *)
Definition snapshot_or_nothing (JSON_parse : jsstring -> option Content)
    (stored : option jsstring) : Prop :=
  match stored with
  | None => True
  | Some data => exists previous, JSON_parse data = Some previous
  end.

(** ** Worlds for examples

    One competitor whose page the browser renders, on the executable
    runtime with a fetcher that delivers the rendered page. *)

Definition acme : Competitor :=
  {| id := lit "acme"; name := lit "Acme";
     website := lit "https://example.com"; monitoring_website := true |}.

Definition home_page : Page :=
  {| page_content := home_html;
     page_title := lit "Home";
     page_url := lit "https://example.com/";
     innerText := lit "a b c d";
     links := 0; images := 0; headings := 0 |}.

(** The same page with another [<title>]. *)
Definition retitled_page : Page :=
  {| page_content :=
       lit "<html><head><title>Welcome</title></head><body>a b c d</body></html>";
     page_title := lit "Welcome";
     page_url := lit "https://example.com/";
     innerText := lit "a b c d";
     links := 0; images := 0; headings := 0 |}.

Definition first_world : World :=
  {| files := ∅; write_errors := ∅;
     web := {[ lit "https://example.com" := home_page ]};
     launch_error := None;
     now := lit "2024-01-01T09:00:00.000Z";
     log := [] |}.

(** The site as it is at a later time. *)
Definition later (stamp : jsstring) (page : Page) (w : World) : World :=
  {| files := files w; write_errors := write_errors w;
     web := {[ lit "https://example.com" := page ]};
     launch_error := launch_error w; now := stamp; log := log w |}.


Definition run_monitorWebsite (competitor : Competitor) : M Results :=
  monitorWebsite Node.sha256_hex Node.JSON_stringify Node.JSON_parse
    Node.path_join Node.reports browser_fetch competitor.

(** The monitor as the class wires it, with its own [getPageContent]. *)
Definition WebsiteMonitor_monitorWebsite (competitor : Competitor) : M Results :=
  monitorWebsite Node.sha256_hex Node.JSON_stringify Node.JSON_parse
    Node.path_join Node.reports getPageContent competitor.

(** The worlds after the first and the second run of the scenario; the
    page is unchanged between the two runs. *)
Definition after_first_run : World := snd (run_monitorWebsite acme first_world).

Definition after_second_run : World :=
  snd (run_monitorWebsite acme
         (later (lit "2024-01-02T09:00:00.000Z") home_page after_first_run)).

(** The result of a run in which the fetcher delivers [content]. *)
Definition compared (competitor : Competitor) (stamp : jsstring)
    (content : Content) (previous : option Content) : Results :=
  match previous with
  | Some p =>
      {| res_competitor := name competitor;
         res_website := website competitor;
         res_timestamp := stamp;
         res_changes :=
           (if bool_decide (hash content ≠ hash p)
            then [content_record] else [])
           ++ (if bool_decide (title content ≠ title p)
               then [title_record content p] else [])
           ++ (if bool_decide (url content ≠ url p)
               then [url_record content p] else [])
           ++ compareMetrics (metrics content) (metrics p);
         res_errors := [];
         res_metrics := Some (calculateMetrics content previous) |}
  | None => empty_results competitor stamp []
  end.

(** The content object the fetcher delivers for [home_page] with the
    title in lower case; everything else as in [home_snapshot]. *)
Definition lowercase_home : Content :=
  {| html := html home_snapshot;
     title := lit "home";
     url := url home_snapshot;
     textContent := textContent home_snapshot;
     metrics := metrics home_snapshot;
     timestamp := lit "2024-01-02T09:00:00.000Z";
     hash := hash home_snapshot |}.

(** * Vocabulary of the further properties *)

(** What every result of a run satisfies. *)
Definition well_formed_result (competitor : Competitor) (results : Results)
  : Prop :=
  res_competitor results = name competitor
  /\ res_website results = website competitor
  /\ (length (res_errors results) <= 1)%nat
  /\ (res_errors results <> [] ->
      res_changes results = [] /\ res_metrics results = None).

(** The results handed to the report generator, [[]] when the property
    is missing. *)
Definition monitored (data : MonitoringData) : list Results :=
  match websiteMonitoring data with
  | Some results => results
  | None => []
  end.

(** The number of change records in a list of results: what
    [runAnalysis] logs as [websiteChanges]. *)
Definition total_changes (results : list Results) : nat :=
  list_sum (map (fun r => length (res_changes r)) results).

Definition has_changes (result : Results) : bool :=
  (0 <? length (res_changes result))%nat.

Definition summary_of (result : Results) : CompetitorSummary :=
  {| cs_name := res_competitor result;
     cs_website := res_website result;
     cs_changes := length (res_changes result);
     cs_errors := length (res_errors result) |}.

Definition changes_of (result : Results) : WebsiteChanges :=
  {| wc_competitor := res_competitor result;
     wc_changes := res_changes result;
     wc_metrics := res_metrics result |}.

(** Decreasing activity. *)
Definition at_least_as_active (a b : TopCompetitor) : Prop :=
  (totalActivity b <= totalActivity a)%nat.

Definition top_of (comp : CompetitorSummary) : TopCompetitor :=
  {| tc_name := cs_name comp;
     tc_websiteChanges := cs_changes comp;
     totalActivity := cs_changes comp |}.

Definition with_activity (k : nat) (l : list TopCompetitor)
  : list TopCompetitor :=
  List.filter (fun x => (totalActivity x =? k)%nat) l.

(** The website insight and the competitive insight as
    [generateInsights] builds them. *)
Definition website_insight (p : ProcessedData) : Insight :=
  {| insight_type := lit "website";
     insight_title := lit "Website Activity Detected";
     insight_description :=
       string_of_nat (sum_changes (websiteChanges p))
         ++ lit " website changes detected across "
         ++ string_of_nat (length (websiteChanges p))
         ++ lit " competitors";
     insight_severity :=
       if (5 <? sum_changes (websiteChanges p))%nat then high else medium;
     insight_competitors := Names (map wc_competitor (websiteChanges p)) |}.

Definition competitive_insight (p : ProcessedData) (top : TopCompetitor)
  : Insight :=
  {| insight_type := lit "competitive";
     insight_title := lit "Top Performing Competitors";
     insight_description :=
       tc_name top ++ lit " shows the highest activity level";
     insight_severity := medium;
     insight_competitors := Tops (firstn 3 (identifyTopCompetitors p)) |}.

(** The recommendations for the two insights. *)
Definition website_recommendation (s : Severity) : Recommendation :=
  {| rec_title := lit "Monitor Website Changes Closely";
     rec_description :=
       lit "Competitors are actively updating their websites. Consider reviewing your own website strategy.";
     priority := s;
     action := lit "Review website content and consider updates" |}.

Definition competitive_recommendation (name : jsstring) : Recommendation :=
  {| rec_title := lit "Analyze Top Competitor Strategies";
     rec_description :=
       lit "Study " ++ name ++ lit "'s approach to identify opportunities.";
     priority := high;
     action := lit "Conduct detailed competitor analysis" |}.

(** Results for examples: one competitor with the two changes of the
    retitled page, one without changes. *)
Definition busy_result : Results :=
  {| res_competitor := lit "Acme"; res_website := lit "https://example.com";
     res_timestamp := lit "2024-01-03T09:00:00.000Z";
     res_changes := [content_record; title_record lowercase_home home_snapshot];
     res_errors := []; res_metrics := None |}.

Definition quiet_result : Results :=
  {| res_competitor := lit "Bolt"; res_website := lit "https://bolt.example";
     res_timestamp := lit "2024-01-03T09:00:02.000Z";
     res_changes := []; res_errors := [lit "Failed to fetch page content"];
     res_metrics := None |}.

Definition example_data : MonitoringData :=
  {| websiteMonitoring := Some [quiet_result; busy_result];
     priceMonitoring := Some []; seoMonitoring := Some [] |}.

(** The [TypeError] of reading [name] of a missing first competitor. *)
Definition no_first_competitor : Error :=
  {| message := lit "Cannot read properties of undefined (reading 'name')" |}.

(** A competitive insight without competitors, and an insight of a type
    the generator does not know. *)
Definition hollow_insight : Insight :=
  {| insight_type := lit "competitive";
     insight_title := lit "Top Performing Competitors";
     insight_description := lit "nobody shows the highest activity level";
     insight_severity := medium;
     insight_competitors := Tops [] |}.

Definition pricing_insight : Insight :=
  {| insight_type := lit "pricing";
     insight_title := lit "Price Changes";
     insight_description := lit "3 price changes";
     insight_severity := high;
     insight_competitors := Names [lit "Acme"] |}.

(** * Vocabulary of the properties of the agent *)

(** [m] leaves the part [f] of the system as it finds it. *)
Definition keeps {A B} (f : System -> B) (m : Run A) : Prop :=
  forall s, f (snd (m s)) = f s.

(** The decimal value of a string of digits. *)
Definition value_from (start : Z) (s : jsstring) : Z :=
  fold_left (fun a c => 10 * a + (Z.of_N c - 48)) s start.

(** The ids [generateCompetitorId] tries, in order: the base id, then
    the base id with the counters 1, 2, ... *)
Definition candidate (baseId : jsstring) (j : nat) : jsstring :=
  match j with
  | O => baseId
  | S _ => baseId ++ lit "-" ++ string_of_Z (Z.of_nat j)
  end.

(** A code unit of an id: a lower-case letter, a digit or a dash. *)
Definition id_char (c : N) : bool := is_lower_alnum c || (c =? dash)%N.

(** A code unit with a letter or digit in its lower case. *)
Definition alnum_when_lowered (c : N) : bool :=
  is_lower_alnum c || ((65 <=? c) && (c <=? 90))%N
  || (c =? 8490)%N || (c =? 304)%N.

(** No two dashes in a row. *)
Fixpoint single_dashes (s : jsstring) : Prop :=
  match s with
  | c :: (d :: _) as rest => ~ (c = dash /\ d = dash) /\ single_dashes rest
  | _ => True
  end.

(** The parts of the system that only the agent, the loader and the
    mailer change. *)
Definition agent_state (s : System)
  : bool * option jsstring * list CompetitorEntry * list MailOptions
    * option Error :=
  (isRunning s, lastRun s, loaded s, outbox s, mail_error s).

(** A part of the system that neither the files nor the log touch. *)
Definition agent_part {B} (f : System -> B) : Prop :=
  (forall w s, f (set_world w s) = f s)
  /\ (forall n s, f (snd (notice n s)) = f s).

(** The file of the report [reportId] in the given format. *)
Definition report_file (path_join : jsstring -> jsstring -> jsstring)
    (reports reportId format : jsstring) : jsstring :=
  path_join reports
    (lit "competitors-report-" ++ reportId ++ lit "." ++ format).

(** The files after the given writes (path and text), in order. *)
Definition write_all (fs : gmap jsstring jsstring)
    (writes : list (jsstring * jsstring)) : gmap jsstring jsstring :=
  fold_left (fun fs pc => <[fst pc := snd pc]> fs) writes fs.

(** The formats written for a configured report format. *)
Definition formats_of (report_format : jsstring) : list jsstring :=
  (if bool_decide (report_format = lit "html")
      || bool_decide (report_format = lit "all")
   then [lit "html"] else [])
  ++ (if bool_decide (report_format = lit "json")
         || bool_decide (report_format = lit "all")
      then [lit "json"] else []).

Definition report_id_of (ymd : Z * Z * Z) : jsstring :=
  let '(year, month, date) := ymd in report_id year month date.

(** The competitors [monitorAll] takes up: those whose
    [monitoring.website] is [true]. *)
Definition website_on (comp : CompetitorEntry) : bool :=
  bool_decide (switch comp (lit "website") = Some true).

Definition is_normal {A} (c : Completion A) : Prop :=
  match c with
  | Normal _ => True
  | Throw _ => False
  end.

(** The mail [sendEmailReport] sends for a report whose html file is
    [path] and holds [html]. *)
Definition report_mail (reportId path html : jsstring) : MailOptions :=
  {| mail_subject := lit "Competitors Analysis Report - " ++ reportId;
     mail_html := html;
     attachment_filename :=
       lit "competitors-report-" ++ reportId ++ lit ".html";
     attachment_path := path |}.

Definition already_running : Error :=
  {| message := lit "Analysis already running" |}.

Definition no_competitors : Error :=
  {| message := lit "No competitors configured" |}.

(** ** An agent for examples

    The executable runtime of the monitor, a clock read in UTC, a
    renderer that appends the report id to the template, and a
    competitors file that lists two competitors: one with website
    monitoring switched on, one without monitoring settings. *)

Definition utc_calendar (stamp : jsstring) : Z * Z * Z :=
  (value_from 0 (take 4 stamp),
   value_from 0 (take 2 (drop 5 stamp)) - 1,
   value_from 0 (take 2 (drop 8 stamp))).

Definition plain_render (template : jsstring) (reportData : ReportData)
  : Completion jsstring :=
  Normal (template ++ lit " " ++ reportId reportData).

Definition brief_json (reportData : ReportData) : jsstring :=
  lit "{ reportId: " ++ reportId reportData ++ lit " }".

Definition acme_entry : CompetitorEntry :=
  {| entry_id := Some (lit "acme"); entry_name := lit "Acme";
     entry_website := lit "https://example.com";
     monitoring := Some [(lit "enabled", true); (lit "website", true)];
     socialMedia := None; ecommerce_url := None |}.

Definition bolt_entry : CompetitorEntry :=
  {| entry_id := Some (lit "bolt"); entry_name := lit "Bolt";
     entry_website := lit "https://bolt.example";
     monitoring := None; socialMedia := None; ecommerce_url := None |}.

Definition roster_file : jsstring := lit "./data/competitors.json".

Definition roster_text : jsstring := lit "{ competitors: [acme, bolt] }".

Definition read_roster (data : jsstring) : Completion (list CompetitorEntry) :=
  if bool_decide (data = roster_text) then Normal [acme_entry; bolt_entry]
  else Throw {| message := lit "Unexpected end of JSON input" |}.

Definition example_runAnalysis (report_format : jsstring)
    (emailEnabled : bool) : Run AnalysisResult :=
  runAnalysis Node.sha256_hex Node.JSON_stringify Node.JSON_parse
    Node.path_join Node.reports browser_fetch utc_calendar
    (fun _ => lit "Dec 31 - Jan 06, 2024") plain_render brief_json
    (lit "<html>{{reportId}}</html>") (lit "src/templates")
    report_format emailEnabled roster_file read_roster.

(** The agent at rest, before its first run, in a world with the given
    files. *)
Definition at_rest (fs : gmap jsstring jsstring) : System :=
  {| world := set_files fs first_world;
     isRunning := false; lastRun := None;
     loaded := []; lastLoaded := None;
     notices := []; outbox := []; mail_error := None |}.

Definition office : System := at_rest {[ roster_file := roster_text ]}.

(** The data [runAnalysis] hands to the report generator, and the
    object it returns for a report. *)
Definition data_of (results : list Results) : MonitoringData :=
  {| websiteMonitoring := Some results;
     priceMonitoring := Some [];
     seoMonitoring := Some [] |}.

Definition analysis_of (reportResult : ReportResult) : AnalysisResult :=
  {| success := true;
     analysis_reportId := result_reportId reportResult;
     analysis_summary := result_summary reportResult;
     analysis_insights := result_insights reportResult;
     analysis_recommendations := result_recommendations reportResult |}.

(** Two systems that differ at most in the log of the agent, the mails
    sent and the state of the mail transport. *)
Definition agree (s s' : System) : Prop :=
  world s = world s' /\ isRunning s = isRunning s'
  /\ lastRun s = lastRun s' /\ loaded s = loaded s'
  /\ lastLoaded s = lastLoaded s'.



(** Calendar dates with a four-digit year. *)
Definition calendar_date (year month date : Z) : Prop :=
  1000 <= year <= 9999 /\ 0 <= month <= 11 /\ 1 <= date <= 31.

(** * Properties *)

(** ** Exact arithmetic *)

Lemma Qltb_lt (a b : Q) : Qltb a b = true <-> (a < b)%Q.
Proof.
  unfold Qltb. rewrite negb_true_iff. split.
  - intros H. apply Qnot_le_lt. intros Hle.
    apply Qle_bool_iff in Hle. congruence.
  - intros H. destruct (Qle_bool b a) eqn:E; [|reflexivity].
    apply Qle_bool_iff in E. exfalso. exact (Qlt_not_le _ _ H E).
Qed.

Lemma Qltb_ge (a b : Q) : Qltb a b = false <-> (b <= a)%Q.
Proof.
  unfold Qltb. rewrite negb_false_iff. apply Qle_bool_iff.
Qed.

Lemma inject_Z_nonzero (z : Z) : z <> 0 -> Qeq_bool (inject_Z z) 0 = false.
Proof.
  intros Hz. destruct (Qeq_bool (inject_Z z) 0) eqn:E; [|reflexivity].
  apply Qeq_bool_eq in E. unfold Qeq in E. simpl in E. lia.
Qed.

Lemma js_div_of_Z (a b : Z) :
  b <> 0 -> js_div (of_Z a) (of_Z b) = Finite (inject_Z a / inject_Z b).
Proof.
  intros Hb. unfold js_div, of_Z. by rewrite inject_Z_nonzero.
Qed.

Lemma js_relative_change (c p : Z) :
  p <> 0 ->
  js_div (js_abs (js_sub (of_Z c) (of_Z p))) (of_Z p)
  = Finite (Qabs (inject_Z c - inject_Z p) / inject_Z p).
Proof.
  intros Hp. unfold js_div, js_abs, js_sub, of_Z.
  by rewrite inject_Z_nonzero.
Qed.

Lemma ratio_bounds (k m : Z) :
  0 <= k <= m -> 0 < m -> (0 <= inject_Z k / inject_Z m <= 1)%Q.
Proof.
  intros [Hk Hkm] Hm.
  assert (Hm' : (0 < inject_Z m)%Q).
  { change (inject_Z 0 < inject_Z m)%Q. rewrite <- Zlt_Qlt. exact Hm. }
  split.
  - apply Qle_shift_div_l; [exact Hm'|].
    rewrite Qmult_0_l. change (inject_Z 0 <= inject_Z k)%Q.
    rewrite <- Zle_Qle. exact Hk.
  - apply Qle_shift_div_r; [exact Hm'|].
    rewrite Qmult_1_l. rewrite <- Zle_Qle. exact Hkm.
Qed.


(** ** Rounding to doubles *)

Lemma pow2_pos (e : Z) : (0 < pow2 e)%Q.
Proof. apply Qpower_0_lt. reflexivity. Qed.

Lemma pow2_add (a b : Z) : (pow2 (a + b) == pow2 a * pow2 b)%Q.
Proof. apply Qpower_plus. discriminate. Qed.

Lemma pow2_le (a b : Z) : a <= b -> (pow2 a <= pow2 b)%Q.
Proof. intros H. apply Qpower_le_compat_l; [exact H | discriminate]. Qed.

Lemma pow2_inject (e : Z) : 0 <= e -> (pow2 e == inject_Z (2 ^ e))%Q.
Proof. intros H. symmetry. exact (Zpower_Qpower 2 e H). Qed.

Lemma round_half_even_cases (q : Q) :
  round_half_even q = Qfloor q
  \/ round_half_even q = Qfloor q + 1 /\ (1 # 2 <= q - inject_Z (Qfloor q))%Q.
Proof.
  unfold round_half_even.
  destruct (q - inject_Z (Qfloor q) ?= 1 # 2)%Q eqn:E.
  - apply Qeq_alt in E. destruct (Z.even (Qfloor q)); [by left|].
    right. split; [reflexivity|]. rewrite E. apply Qle_refl.
  - by left.
  - apply Qgt_alt in E. right. split; [reflexivity|]. by apply Qlt_le_weak.
Qed.

Lemma round_half_even_near (q : Q) :
  (Qabs (inject_Z (round_half_even q) - q) <= 1 # 2)%Q.
Proof.
  pose proof (Qfloor_le q) as Hlo. pose proof (Qlt_floor q) as Hhi.
  rewrite inject_Z_plus in Hhi. change (inject_Z 1) with 1%Q in Hhi.
  apply Qabs_Qle_condition.
  unfold round_half_even.
  destruct (q - inject_Z (Qfloor q) ?= 1 # 2)%Q eqn:E.
  - apply Qeq_alt in E. destruct (Z.even (Qfloor q)).
    + split; lra.
    + rewrite inject_Z_plus. change (inject_Z 1) with 1%Q. split; lra.
  - apply Qlt_alt in E. split; lra.
  - apply Qgt_alt in E. rewrite inject_Z_plus. change (inject_Z 1) with 1%Q.
    split; lra.
Qed.

Lemma round_half_even_between (a b : Z) (q : Q) :
  (inject_Z a <= q <= inject_Z b)%Q -> a <= round_half_even q <= b.
Proof.
  intros [Ha Hb].
  pose proof (Qfloor_le q) as Hlo.
  assert (Haf : a <= Qfloor q).
  { rewrite <- (Qfloor_Z a). by apply Qfloor_resp_le. }
  assert (Hfb : Qfloor q <= b).
  { rewrite <- (Qfloor_Z b). by apply Qfloor_resp_le. }
  destruct (round_half_even_cases q) as [-> | [-> Hhalf]]; [lia|].
  split; [lia|].
  destruct (Z.eq_dec (Qfloor q) b) as [Heq|]; [|lia].
  rewrite Heq in Hhalf. lra.
Qed.

Lemma exponent_unit (q : Q) :
  (0 < q <= 1)%Q -> exponent q <= 0 /\ (exponent q = 0 <-> (q == 1)%Q).
Proof.
  intros [Hpos Hle]. destruct q as [n d].
  assert (Hn : 0 < n) by (unfold Qlt in Hpos; simpl in Hpos; lia).
  assert (Hnd : n <= Z.pos d) by (unfold Qle in Hle; simpl in Hle; lia).
  pose proof (Z.log2_le_mono _ _ Hnd) as Hlog.
  unfold exponent. cbn [Qnum Qden].
  set (c := Z.log2 n - Z.log2 (Z.pos d)).
  assert (Hc : c <= 0) by (subst c; lia).
  destruct (Qle_bool (pow2 c) (n # d)) eqn:E.
  - split; [exact Hc|]. split.
    + intros Hz. rewrite Hz in E. apply Qle_bool_iff in E.
      change (pow2 0) with 1%Q in E. by apply Qle_antisym.
    + intros Hone. destruct (Z.eq_dec c 0) as [|Hne]; [assumption|].
      exfalso. unfold Qeq in Hone. simpl in Hone.
      assert (Hsame : n = Z.pos d) by lia.
      subst c. rewrite Hsame in Hne. lia.
  - split; [lia|]. split; [lia|].
    intros Hone. exfalso.
    assert (Hsame : n = Z.pos d) by (unfold Qeq in Hone; simpl in Hone; lia).
    assert (Hc0 : c = 0) by (subst c; rewrite Hsame; lia).
    rewrite Hc0 in E. change (pow2 0) with 1%Q in E.
    assert (Hq : Qle_bool 1 (n # d) = true).
    { apply Qle_bool_iff. rewrite Hone. apply Qle_refl. }
    congruence.
Qed.

Lemma pow2_inv (e : Z) : (/ pow2 e == pow2 (- e))%Q.
Proof. symmetry. apply Qpower_opp. Qed.

Lemma Qabs_sub_self (q : Q) : (Qabs (q - q) <= pow2 (-54))%Q.
Proof.
  assert (Hd : (q - q == 0)%Q) by ring. rewrite Hd.
  apply Qlt_le_weak, (pow2_pos (-54)).
Qed.

(** Rounding a number between 0 and 1: the double lies between 0 and 1
    and within [2^-54] of the number, and 0 and 1 are doubles. *)
Lemma round_double_unit (q : Q) :
  (0 <= q <= 1)%Q ->
  exists r : Q,
    round_double q = Finite r
    /\ (0 <= r <= 1)%Q
    /\ (Qabs (r - q) <= pow2 (-54))%Q
    /\ ((q == 0)%Q -> (r == 0)%Q)
    /\ ((q == 1)%Q -> (r == 1)%Q).
Proof.
  intros [H0 H1]. unfold round_double.
  destruct (Qeq_bool q 0) eqn:Ez.
  { exists q. split; [reflexivity|]. split; [done|]. split; [|done].
    apply Qabs_sub_self. }
  apply Qeq_bool_neq in Ez.
  assert (Hpos : (0 < q)%Q).
  { apply Qle_lteq in H0. destruct H0 as [|H0]; [assumption|].
    exfalso. apply Ez. by symmetry. }
  assert (Habs : Qabs q = q).
  { destruct q as [[|p|p] d]; [reflexivity|reflexivity|].
    unfold Qlt in Hpos. simpl in Hpos. lia. }
  rewrite Habs.
  destruct (exponent_unit q (conj Hpos H1)) as [He Hone].
  set (e := Z.max (exponent q) (-1022)).
  assert (He0 : e <= 0) by (subst e; lia).
  assert (He1 : e = 0 <-> (q == 1)%Q) by (subst e; rewrite <- Hone; lia).
  set (ulp := pow2 (e - 52)).
  assert (Hulp : (0 < ulp)%Q) by apply pow2_pos.
  assert (Hinv : (/ ulp == inject_Z (2 ^ (52 - e)))%Q).
  { unfold ulp. rewrite pow2_inv. replace (- (e - 52)) with (52 - e) by lia.
    apply pow2_inject. lia. }
  set (x := (q / ulp)%Q).
  assert (Hx : (x == q * inject_Z (2 ^ (52 - e)))%Q).
  { unfold x, Qdiv. by rewrite Hinv. }
  assert (Hbig : (0 < inject_Z (2 ^ (52 - e)))%Q).
  { rewrite <- Hinv. by apply Qinv_lt_0_compat. }
  assert (Hunit : (inject_Z (2 ^ (52 - e)) * ulp == 1)%Q).
  { rewrite <- Hinv. field. intros Hz. rewrite Hz in Hulp.
    exact (Qlt_irrefl _ Hulp). }
  set (k := round_half_even x).
  assert (Hk : 0 <= k <= 2 ^ (52 - e)).
  { apply round_half_even_between. rewrite Hx. split.
    - apply Qmult_le_0_compat; by apply Qlt_le_weak.
    - rewrite <- (Qmult_1_l (inject_Z (2 ^ (52 - e)))) at 2.
      apply Qmult_le_compat_r; [exact H1 | by apply Qlt_le_weak]. }
  set (r := (inject_Z k * ulp)%Q).
  assert (Hr0 : (0 <= r)%Q).
  { apply Qmult_le_0_compat; [|by apply Qlt_le_weak].
    change (inject_Z 0 <= inject_Z k)%Q. rewrite <- Zle_Qle. lia. }
  assert (Hr1 : (r <= 1)%Q).
  { rewrite <- Hunit. apply Qmult_le_compat_r; [|by apply Qlt_le_weak].
    rewrite <- Zle_Qle. lia. }
  assert (Herr : (Qabs (r - q) <= (1 # 2) * ulp)%Q).
  { assert (Hd : (r - q == (inject_Z k - x) * ulp)%Q).
    { unfold r, x. field. intros Hz. rewrite Hz in Hulp.
      exact (Qlt_irrefl _ Hulp). }
    rewrite Hd, Qabs_Qmult. rewrite (Qabs_pos ulp) by by apply Qlt_le_weak.
    apply Qmult_le_compat_r; [|by apply Qlt_le_weak].
    apply round_half_even_near. }
  assert (Hexact : e = 0 -> (r == q)%Q).
  { intros Hz. assert (Hq1 : (q == 1)%Q) by by apply He1.
    assert (Hk' : k = 2 ^ (52 - e)).
    { assert (2 ^ (52 - e) <= k <= 2 ^ (52 - e)); [|lia].
      apply round_half_even_between. rewrite Hx, Hq1, Qmult_1_l.
      split; apply Qle_refl. }
    unfold r. rewrite Hk', Hunit. by symmetry. }
  assert (Hover : Qle_bool (pow2 1024) r = false).
  { destruct (Qle_bool (pow2 1024) r) eqn:E; [|reflexivity].
    apply Qle_bool_iff in E. exfalso.
    assert (Hlt : (1 < pow2 1024)%Q) by (apply Qpower_1_lt; [reflexivity|lia]).
    lra. }
  rewrite Hover.
  destruct (Qeq_bool r q) eqn:Eq.
  { exists q. split; [reflexivity|]. split; [split; assumption|].
    split; [|done].
    apply Qabs_sub_self. }
  apply Qeq_bool_neq in Eq.
  assert (Hneg : e <= -1).
  { destruct (Z.eq_dec e 0) as [Hz|]; [|lia]. exfalso. by apply Eq, Hexact. }
  assert (Hsign : Qltb q 0 = false) by (apply Qltb_ge; exact H0).
  rewrite Hsign. exists r. split; [reflexivity|]. split; [split; assumption|].
  split; [|split].
  - eapply Qle_trans; [exact Herr|].
    assert (Hle : (ulp <= pow2 (-53))%Q) by (apply pow2_le; lia).
    assert (Hhalf : (pow2 (-53) == 2 * pow2 (-54))%Q) by reflexivity.
    lra.
  - intros Hz. exfalso. rewrite Hz in Hpos. exact (Qlt_irrefl _ Hpos).
  - intros Hq1. exfalso. apply He1 in Hq1. lia.
Qed.

(** The doubles nearest to 1/10, 1/3 and -2/3; a tie goes to the even
    significand; what lies halfway to 2^1024 or beyond is infinite, and
    half the smallest subnormal number rounds to 0. *)
Lemma round_double_examples :
  (exists r, round_double (1 # 10) = Finite r
             /\ (r == 3602879701896397 # 36028797018963968)%Q)
  /\ (exists r, round_double (1 # 3) = Finite r
                /\ (r == 6004799503160661 # 18014398509481984)%Q)
  /\ (exists r, round_double (- 2 # 3) = Finite r
                /\ (r == - 6004799503160661 # 9007199254740992)%Q)
  /\ (exists r, round_double (inject_Z (2 ^ 53 + 1)) = Finite r
                /\ (r == inject_Z (2 ^ 53))%Q)
  /\ (exists r, round_double (inject_Z (2 ^ 53 + 3)) = Finite r
                /\ (r == inject_Z (2 ^ 53 + 4))%Q)
  /\ round_double (pow2 1024 - pow2 971)
     = Finite (pow2 1024 - pow2 971)
  /\ round_double (pow2 1024 - pow2 970) = Infinity
  /\ round_double (- pow2 1024) = NegInfinity
  /\ (exists r, round_double (pow2 (-1074)) = Finite r
                /\ (r == pow2 (-1074))%Q)
  /\ (exists r, round_double (pow2 (-1075)) = Finite r /\ (r == 0)%Q).
Proof.
  repeat match goal with
         | |- _ /\ _ => split
         | |- exists r, _ => eexists; split; [vm_compute; reflexivity|]
         end;
    vm_compute; reflexivity.
Qed.

(** ** Splitting on whitespace *)

Lemma split_from_length (s tok : jsstring) (in_sep : bool) :
  (1 <= length (split_from s tok in_sep))%nat.
Proof.
  revert tok in_sep. induction s as [|c s IH]; intros tok in_sep; simpl.
  - lia.
  - destruct (is_whitespace c).
    + destruct in_sep; simpl; [apply IH | lia].
    + apply IH.
Qed.

Lemma limit_length {A} (lim : N) (l : list A) :
  length (limit lim l) = Nat.min (N.to_nat lim) (length l).
Proof.
  revert lim. induction l as [|x l IH]; intros lim; simpl; [lia|].
  destruct lim as [|p]; [reflexivity|].
  cbn [length]. rewrite IH. lia.
Qed.

Lemma limit_short {A} (lim : N) (l : list A) :
  (length l <= N.to_nat lim)%nat -> limit lim l = l.
Proof.
  revert lim. induction l as [|x l IH]; intros lim Hl; simpl; [reflexivity|].
  simpl in Hl. destruct lim as [|p]; [simpl in Hl; lia|].
  f_equal. apply IH. lia.
Qed.

Lemma split_whitespace_length (s : jsstring) :
  (1 <= length (split_whitespace s))%nat.
Proof.
  unfold split_whitespace. rewrite limit_length.
  pose proof (split_from_length s [] false).
  assert (Z.of_nat (N.to_nat split_limit) = 4294967295)
    by (unfold split_limit; lia).
  lia.
Qed.

Lemma split_whitespace_bound (s : jsstring) :
  Z.of_nat (length (split_whitespace s)) < 2 ^ 32.
Proof.
  unfold split_whitespace. rewrite limit_length.
  assert (Z.of_nat (N.to_nat split_limit) = 4294967295)
    by (unfold split_limit; lia).
  lia.
Qed.

Lemma filter_includes_self (l : list jsstring) :
  List.filter (fun word => includes l word) l = l.
Proof.
  apply forallb_filter_id. apply forallb_forall. intros w Hw.
  unfold includes. apply bool_decide_eq_true. by apply list_elem_of_In.
Qed.

(** [split_from] cuts a text into its words: after a word character it
    goes on with the word, and in a run of whitespace it skips to the end
    of the run. *)
Lemma split_from_words_of (s : jsstring) :
  (forall tok, whitespace_free tok ->
     words_of (rev tok ++ s) (split_from s tok false))
  /\ (exists sep rest,
        s = sep ++ rest
        /\ Forall (fun c => is_whitespace c = true) sep
        /\ starts_with_word rest
        /\ words_of rest (split_from s [] true)).
Proof.
  induction s as [|c s [IHword IHsep]].
  - split.
    + intros tok Htok. rewrite app_nil_r. simpl. apply words_last.
      by apply List.Forall_rev.
    + exists [], []. split; [reflexivity|]. split; [constructor|].
      split; [exact I|]. apply words_last. constructor.
  - destruct (is_whitespace c) eqn:Ec.
    + destruct IHsep as (sep & rest & -> & Hsep & Hrest & Hwords). split.
      * intros tok Htok. simpl. rewrite Ec.
        change (rev tok ++ c :: sep ++ rest)
          with (rev tok ++ (c :: sep) ++ rest).
        apply words_more; [by apply List.Forall_rev| |exact Hrest|exact Hwords].
        split; [discriminate | by constructor].
      * exists (c :: sep), rest. simpl. rewrite Ec.
        split; [reflexivity|]. split; [by constructor|].
        split; [exact Hrest | exact Hwords].
    + split.
      * intros tok Htok. simpl. rewrite Ec.
        replace (rev tok ++ c :: s) with (rev (c :: tok) ++ s)
          by (simpl; by rewrite <- app_assoc).
        apply IHword. by constructor.
      * exists [], (c :: s). simpl. rewrite Ec.
        split; [reflexivity|]. split; [constructor|]. split; [done|].
        apply (IHword [c]). by constructor.
Qed.

Lemma split_from_words (s : jsstring) : words_of s (split_from s [] false).
Proof. apply (proj1 (split_from_words_of s) []). constructor. Qed.

(** A text has one list of words.  Where a run of like code units ends
    is determined by the text. *)
Lemma run_unique (b : bool) (t t' a a' : jsstring) :
  Forall (fun c => is_whitespace c = b) t ->
  Forall (fun c => is_whitespace c = b) t' ->
  match a with [] => True | c :: _ => is_whitespace c = negb b end ->
  match a' with [] => True | c :: _ => is_whitespace c = negb b end ->
  t ++ a = t' ++ a' -> t = t' /\ a = a'.
Proof.
  intros Ht. revert t'. induction Ht as [|c t Hc Ht IH]; intros t' Ht' Ha Ha' E.
  - destruct Ht' as [|c' t' Hc' Ht']; [by split|].
    simpl in E. subst a. rewrite Hc' in Ha. by destruct b.
  - destruct Ht' as [|c' t' Hc' Ht'].
    + simpl in E. subst a'. rewrite Hc in Ha'. by destruct b.
    + simpl in E. injection E as -> E.
      destruct (IH t' Ht' Ha Ha' E) as [-> ->]. by split.
Qed.

Lemma words_of_unique (s : jsstring) (l1 l2 : list jsstring) :
  words_of s l1 -> words_of s l2 -> l1 = l2.
Proof.
  intros H1. revert l2.
  induction H1 as [t Ht | t sep rest ws Ht [Hne Hsep] Hrest Hws IH];
    intros l2 H2.
  - inversion H2 as [t' Ht' E1 E2 | t' sep' rest' ws' Ht' [Hne' Hsep'] Hrest' _ E1 E2];
      [reflexivity|].
    exfalso. subst t. destruct sep' as [|c sep']; [done|].
    apply Forall_app in Ht as [_ Ht]. apply Forall_app in Ht as [Ht _].
    apply Forall_cons in Ht as [Hc _]. apply Forall_cons in Hsep' as [Hc' _].
    congruence.
  - inversion H2 as [t' Ht' E1 E2 | t' sep' rest' ws' Ht' [Hne' Hsep'] Hrest' Hws' E1 E2].
    + exfalso. subst t'. destruct sep as [|c sep]; [done|].
      apply Forall_app in Ht' as [_ Ht']. apply Forall_app in Ht' as [Ht' _].
      apply Forall_cons in Ht' as [Hc _]. apply Forall_cons in Hsep as [Hc' _].
      congruence.
    + assert (Hstart : forall sep0 rest0 : jsstring,
                sep0 <> [] -> Forall (fun c => is_whitespace c = true) sep0 ->
                match sep0 ++ rest0 with
                | [] => True
                | c :: _ => is_whitespace c = negb false
                end).
      { intros [|c sep0] rest0 Hn Hall; [done|].
        by apply Forall_cons in Hall as [Hc _]. }
      destruct (run_unique false t' t (sep' ++ rest') (sep ++ rest))
        as [-> Erest]; [assumption|assumption|by apply Hstart|by apply Hstart
                        |assumption|].
      destruct (run_unique true sep' sep rest' rest) as [_ ->];
        [assumption|assumption|exact Hrest'|exact Hrest|assumption|].
      f_equal. by apply IH.
Qed.

(** The code units that [\s] matches: tab, line feed, vertical tab, form
    feed, carriage return, space, no-break space, the space separators
    of Unicode, the line and paragraph separators and the byte order
    mark. *)
Lemma is_whitespace_units (c : N) :
  is_whitespace c = true
  <-> c ∈ [9; 10; 11; 12; 13; 32; 160; 5760; 8192; 8193; 8194; 8195; 8196;
           8197; 8198; 8199; 8200; 8201; 8202; 8232; 8233; 8239; 8287;
           12288; 65279]%N.
Proof.
  unfold is_whitespace.
  rewrite !orb_true_iff, !andb_true_iff, !N.leb_le, !N.eqb_eq.
  rewrite !elem_of_cons, elem_of_nil. lia.
Qed.

(** Every text has its words, and only one list of them. *)
Lemma words_of_total (s : jsstring) :
  exists ws, words_of s ws /\ forall ws', words_of s ws' -> ws' = ws.
Proof.
  exists (split_from s [] false). split; [apply split_from_words|].
  intros ws' Hws. exact (words_of_unique s _ _ Hws (split_from_words s)).
Qed.

(** [split] yields the words of the text, the first 2^32 - 1 of them. *)
Lemma split_whitespace_words (s : jsstring) (ws : list jsstring) :
  words_of s ws -> split_whitespace s = limit split_limit ws.
Proof.
  intros H. unfold split_whitespace. f_equal.
  exact (words_of_unique s _ _ (split_from_words s) H).
Qed.

(** ** The change rate *)

Lemma most_words_pos (current previous : Content) :
  1 <= most_words current previous.
Proof.
  unfold most_words.
  pose proof (split_whitespace_length (textContent current)). lia.
Qed.

Lemma most_words_bound (current previous : Content) :
  most_words current previous < 2 ^ 32.
Proof.
  unfold most_words.
  pose proof (split_whitespace_bound (textContent current)).
  pose proof (split_whitespace_bound (textContent previous)). lia.
Qed.

Lemma shared_words_bound (current previous : Content) :
  0 <= Z.of_nat (length (shared_words current previous))
    <= most_words current previous.
Proof.
  unfold shared_words, most_words.
  pose proof (filter_length_le
    (fun word => bool_decide (word ∈ split_whitespace (textContent previous)))
    (split_whitespace (textContent current))).
  lia.
Qed.

Lemma shared_words_same (current previous : Content) :
  textContent current = textContent previous ->
  Z.of_nat (length (shared_words current previous))
  = most_words current previous.
Proof.
  intros Heq. unfold shared_words, most_words. rewrite Heq.
  pose proof (filter_includes_self (split_whitespace (textContent previous)))
    as Hself.
  unfold includes in Hself. rewrite Hself. lia.
Qed.

(** The two rounded operations on a quotient [n / m] between 0 and 1. *)
Lemma rounded_rate (n m : Z) :
  0 <= n <= m -> 0 < m ->
  exists q r : Q,
    round_double (inject_Z n / inject_Z m) = Finite q
    /\ round_double (1 - q) = Finite r
    /\ double_sub (of_Z 1) (double_div (of_Z n) (of_Z m)) = Finite r
    /\ (0 <= q <= 1)%Q
    /\ (Qabs (q - inject_Z n / inject_Z m) <= pow2 (-54))%Q
    /\ (0 <= r <= 1)%Q
    /\ (Qabs (r - (1 - q)) <= pow2 (-54))%Q
    /\ (n = 0 -> (r == 1)%Q)
    /\ (n = m -> (r == 0)%Q).
Proof.
  intros Hn Hm.
  pose proof (ratio_bounds n m Hn Hm) as Hratio.
  destruct (round_double_unit _ Hratio) as (q & Hq & Hq01 & Hqerr & Hq0 & Hq1).
  assert (Hrest : (0 <= 1 - q <= 1)%Q) by (split; lra).
  destruct (round_double_unit _ Hrest) as (r & Hr & Hr01 & Hrerr & Hr0 & Hr1).
  exists q, r. split; [exact Hq|]. split; [exact Hr|]. split.
  { unfold double_sub, double_div. rewrite js_div_of_Z by lia.
    cbn [rounded]. rewrite Hq. exact Hr. }
  split; [exact Hq01|]. split; [exact Hqerr|]. split; [exact Hr01|].
  split; [exact Hrerr|].
  assert (Hm' : ~ (inject_Z m == 0)%Q).
  { intros H0. unfold Qeq in H0. simpl in H0. lia. }
  split.
  - intros ->. apply Hr1.
    assert (Hz : (q == 0)%Q).
    { apply Hq0. change (inject_Z 0) with 0%Q. field. exact Hm'. }
    rewrite Hz. reflexivity.
  - intros ->. apply Hr0.
    assert (Hz : (q == 1)%Q).
    { apply Hq1. field. exact Hm'. }
    rewrite Hz. reflexivity.
Qed.

Lemma calculateChangeRate_rounded (current previous : Content) :
  exists q r : Q,
    round_double (inject_Z (Z.of_nat (length (shared_words current previous)))
                  / inject_Z (most_words current previous)) = Finite q
    /\ round_double (1 - q) = Finite r
    /\ calculateChangeRate current previous = Finite r
    /\ (0 <= q <= 1)%Q
    /\ (Qabs (q - inject_Z (Z.of_nat (length (shared_words current previous)))
                  / inject_Z (most_words current previous)) <= pow2 (-54))%Q
    /\ (0 <= r <= 1)%Q
    /\ (Qabs (r - (1 - q)) <= pow2 (-54))%Q
    /\ (Z.of_nat (length (shared_words current previous)) = 0 -> (r == 1)%Q)
    /\ (Z.of_nat (length (shared_words current previous))
        = most_words current previous -> (r == 0)%Q).
Proof.
  pose proof (most_words_pos current previous) as Hm.
  exact (rounded_rate _ _ (shared_words_bound current previous) ltac:(lia)).
Qed.

Lemma pow2_53 : (pow2 (-53) == 2 * pow2 (-54))%Q.
Proof. reflexivity. Qed.

(** C7: [calculateChangeRate(current, previous)] is one minus the number
    of words of the current text that occur among the words of the
    previous text (each occurrence counted) over the larger of the two
    word counts, both operations on doubles: the quotient is rounded to a
    double and so is the difference.  The words of a text are those that
    its runs of whitespace delimit, the first 2^32 - 1 of them, which are
    all the words of a text that has no more.  The rate is within 2^-53
    of the exact value of the formula and equal to it when that is 0 or
    1; it lies between 0 and 1, is 0 when the two texts are the same
    string, and is 1 for the texts "e f g h" and "a b c d". *)
Theorem calculateChangeRate_spec (current previous : Content)
    (current_words previous_words : list jsstring) :
  words_of (textContent current) current_words ->
  words_of (textContent previous) previous_words ->
  let cw := limit split_limit current_words in
  let pw := limit split_limit previous_words in
  let shared :=
    Z.of_nat (length (List.filter (fun w => bool_decide (w ∈ pw)) cw)) in
  let most := Z.max (Z.of_nat (length cw)) (Z.of_nat (length pw)) in
  (Z.of_nat (length current_words) < 2 ^ 32 -> cw = current_words)
  /\ (Z.of_nat (length previous_words) < 2 ^ 32 -> pw = previous_words)
  /\ exists q r : Q,
       round_double (inject_Z shared / inject_Z most) = Finite q
       /\ round_double (1 - q) = Finite r
       /\ calculateChangeRate current previous = Finite r
       /\ (Qabs (r - (1 - inject_Z shared / inject_Z most)) <= pow2 (-53))%Q
       /\ (shared = 0 \/ shared = most ->
           (r == 1 - inject_Z shared / inject_Z most)%Q)
       /\ (0 <= r <= 1)%Q
       /\ (textContent current = textContent previous -> (r == 0)%Q)
       /\ (textContent previous = lit "a b c d" ->
           textContent current = lit "e f g h" -> (r == 1)%Q).
Proof.
  intros Hcw Hpw cw pw shared most.
  assert (Hshort : forall l : list jsstring,
            Z.of_nat (length l) < 2 ^ 32 -> limit split_limit l = l).
  { intros l Hl. apply limit_short.
    assert (Z.of_nat (N.to_nat split_limit) = 4294967295)
      by (unfold split_limit; lia).
    lia. }
  split; [apply Hshort|]. split; [apply Hshort|].
  assert (Ec : split_whitespace (textContent current) = cw)
    by exact (split_whitespace_words _ _ Hcw).
  assert (Ep : split_whitespace (textContent previous) = pw)
    by exact (split_whitespace_words _ _ Hpw).
  assert (Es : Z.of_nat (length (shared_words current previous)) = shared).
  { unfold shared_words. by rewrite Ec, Ep. }
  assert (Em : most_words current previous = most).
  { unfold most_words. by rewrite Ec, Ep. }
  destruct (calculateChangeRate_rounded current previous)
    as (q & r & Hq & Hr & Hrate & Hq01 & Hqerr & Hr01 & Hrerr & Hnone & Hall).
  pose proof (most_words_pos current previous) as Hm.
  rewrite Es, Em in *.
  assert (Hm' : ~ (inject_Z most == 0)%Q).
  { intros H0. unfold Qeq in H0. simpl in H0. lia. }
  exists q, r. split; [exact Hq|]. split; [exact Hr|]. split; [exact Hrate|].
  split.
  { apply Qabs_Qle_condition in Hqerr, Hrerr. apply Qabs_Qle_condition.
    pose proof pow2_53. split; lra. }
  split.
  { intros [H0|H1].
    - rewrite (Hnone H0), H0. change (inject_Z 0) with 0%Q. field. exact Hm'.
    - rewrite (Hall H1), H1. field. exact Hm'. }
  split; [exact Hr01|]. split.
  - intros Heq. apply Hall. rewrite <- Es, <- Em.
    by apply shared_words_same.
  - intros Hp Hc. apply Hnone. rewrite <- Es.
    unfold shared_words. rewrite Hp, Hc. reflexivity.
Qed.

Lemma calculateChangeRate_spec_witness :
  words_of (lit "a b c e") [lit "a"; lit "b"; lit "c"; lit "e"]
  /\ words_of (lit "a b c d") [lit "a"; lit "b"; lit "c"; lit "d"]
  /\ exists r : Q,
       calculateChangeRate (text_only (lit "a b c e"))
         (text_only (lit "a b c d")) = Finite r
       /\ (Qabs (r - (1 - inject_Z 3 / inject_Z 4)) <= pow2 (-53))%Q.
Proof.
  assert (Hc : words_of (lit "a b c e") [lit "a"; lit "b"; lit "c"; lit "e"])
    by exact (split_from_words (lit "a b c e")).
  assert (Hp : words_of (lit "a b c d") [lit "a"; lit "b"; lit "c"; lit "d"])
    by exact (split_from_words (lit "a b c d")).
  split; [exact Hc|]. split; [exact Hp|].
  destruct (calculateChangeRate_spec (text_only (lit "a b c e"))
              (text_only (lit "a b c d")) _ _ Hc Hp)
    as (_ & _ & q & r & _ & _ & Hrate & Herr & _).
  exists r. split; [exact Hrate | exact Herr].
Defined.

(** The rate is the rounded value, not the exact one: for one shared
    word of three it is 0.6666666666666667, the double
    6004799503160662 / 2^53, and not 2/3; for three shared words of four
    it is 1/4. *)
Lemma calculateChangeRate_examples :
  (exists r : Q,
     calculateChangeRate (text_only (lit "a x y")) (text_only (lit "a b c"))
       = Finite r
     /\ (r == 6004799503160662 # 9007199254740992)%Q
     /\ ~ (r == 2 # 3)%Q)
  /\ (exists r : Q,
     calculateChangeRate (text_only (lit "a b c e")) (text_only (lit "a b c d"))
       = Finite r
     /\ (r == 1 # 4)%Q).
Proof.
  split; eexists; (split; [vm_compute; reflexivity|]).
  - split; [reflexivity | discriminate].
  - reflexivity.
Qed.

(** C10: [calculateChangeRate] is total.  Splitting any string on
    whitespace yields at least one token, and the empty string exactly
    one empty token; so the divisor, the larger of the two word counts,
    is at least 1 and the result is a finite number. *)
Theorem calculateChangeRate_total :
  (forall s : jsstring, (1 <= length (split_whitespace s))%nat)
  /\ split_whitespace [] = [[]]
  /\ (forall current previous : Content,
        1 <= Z.max (Z.of_nat (length (split_whitespace (textContent current))))
                   (Z.of_nat (length (split_whitespace (textContent previous))))
        /\ is_finite (calculateChangeRate current previous))
  /\ is_finite (calculateChangeRate (text_only []) (text_only [])).
Proof.
  assert (Hfin : forall current previous : Content,
            is_finite (calculateChangeRate current previous)).
  { intros current previous.
    destruct (calculateChangeRate_rounded current previous)
      as (q & r & _ & _ & Hrate & _).
    by exists r. }
  split; [exact split_whitespace_length|].
  split; [reflexivity|].
  split.
  - intros current previous. split.
    + exact (most_words_pos current previous).
    + apply Hfin.
  - apply Hfin.
Qed.

(** ** Metric comparison *)

Lemma get_Some_keys (o : Metrics) (key : jsstring) (v : Z) :
  get o key = Some v -> In key (Object_keys o).
Proof.
  induction o as [|[k x] o IH]; simpl; [discriminate|].
  case_bool_decide; [left; assumption | right; auto].
Qed.

Lemma get_None_keys (o : Metrics) (key : jsstring) :
  get o key = None -> ~ In key (Object_keys o).
Proof.
  induction o as [|[k x] o IH]; simpl; [tauto|].
  case_bool_decide; [discriminate|]. intros Hg [Hk|Hin]; [auto | by apply IH].
Qed.

Lemma compareMetric_falsy (current previous : Metrics) (key : jsstring) :
  truthy (get previous key) = false -> compareMetric current previous key = [].
Proof. intros H. unfold compareMetric. by rewrite H. Qed.

Lemma compareMetric_both (current previous : Metrics) (key : jsstring)
    (c p : Z) :
  get current key = Some c -> get previous key = Some p -> p <> 0 ->
  compareMetric current previous key
  = if Qltb (1 # 10) (relative_change c p)
    then [metric_record current previous key (Finite (relative_change c p))]
    else [].
Proof.
  intros Hc Hp Hnz. unfold compareMetric. rewrite Hc, Hp. simpl truthy.
  destruct (Z.eqb_spec p 0) as [|_]; [contradiction|]. simpl negb. cbv iota.
  unfold to_number. rewrite js_relative_change by exact Hnz.
  reflexivity.
Qed.

Lemma truthy_Some (v : option Z) :
  truthy v = true -> exists p, v = Some p /\ p <> 0.
Proof.
  destruct v as [p|]; simpl; [|discriminate].
  intros Hp. exists p. split; [reflexivity|].
  destruct (Z.eqb_spec p 0); [discriminate | assumption].
Qed.

(** The callback pushes nothing or one record, named after its key. *)
Lemma compareMetric_shape (current previous : Metrics) (key : jsstring) :
  compareMetric current previous key = []
  \/ exists r, compareMetric current previous key = [r]
               /\ metric r = Some key /\ type r = type_metric
               /\ truthy (get previous key) = true.
Proof.
  unfold compareMetric. destruct (truthy (get previous key)); [|by left].
  destruct (js_gt _ threshold); [|by left].
  right. eexists. split; [reflexivity|]. by simpl.
Qed.

Lemma records_for_same (current previous : Metrics) (key : jsstring) :
  records_for key (compareMetric current previous key)
  = compareMetric current previous key.
Proof.
  destruct (compareMetric_shape current previous key)
    as [->|(r & -> & Hm & _)]; [reflexivity|].
  unfold records_for. simpl. by rewrite bool_decide_eq_true_2.
Qed.

Lemma records_for_other (current previous : Metrics) (k key : jsstring) :
  k <> key -> records_for key (compareMetric current previous k) = [].
Proof.
  intros Hne.
  destruct (compareMetric_shape current previous k)
    as [->|(r & -> & Hm & _)]; [reflexivity|].
  unfold records_for. simpl. rewrite bool_decide_eq_false_2; [reflexivity|].
  rewrite Hm. congruence.
Qed.

Lemma records_for_absent (current previous : Metrics) (key : jsstring)
    (keys : list jsstring) :
  ~ In key keys ->
  records_for key (flat_map (compareMetric current previous) keys) = [].
Proof.
  induction keys as [|k keys IH]; simpl; [reflexivity|]. intros Hnot.
  unfold records_for in *. rewrite List.filter_app.
  rewrite IH by tauto. rewrite app_nil_r.
  apply records_for_other. intros ->. tauto.
Qed.

Lemma records_for_present (current previous : Metrics) (key : jsstring)
    (keys : list jsstring) :
  List.NoDup keys -> In key keys ->
  records_for key (flat_map (compareMetric current previous) keys)
  = compareMetric current previous key.
Proof.
  induction 1 as [|k keys Hk Hnd IH]; simpl; [tauto|]. intros Hin.
  change (records_for key (compareMetric current previous k
            ++ flat_map (compareMetric current previous) keys)
          = compareMetric current previous key).
  unfold records_for at 1. rewrite List.filter_app. fold (records_for key).
  destruct (decide (k = key)) as [->|Hne].
  - fold (records_for key (compareMetric current previous key)).
    rewrite records_for_same.
    fold (records_for key (flat_map (compareMetric current previous) keys)).
    rewrite records_for_absent by exact Hk. apply app_nil_r.
  - fold (records_for key (compareMetric current previous k)).
    rewrite records_for_other by exact Hne.
    fold (records_for key (flat_map (compareMetric current previous) keys)).
    apply IH. destruct Hin; [contradiction | assumption].
Qed.

Lemma compareMetrics_In (current previous : Metrics) (r : ChangeRecord) :
  In r (compareMetrics current previous) ->
  exists key, In key (Object_keys current)
              /\ compareMetric current previous key = [r].
Proof.
  unfold compareMetrics. rewrite in_flat_map. intros (key & Hkey & Hr).
  exists key. split; [exact Hkey|].
  destruct (compareMetric_shape current previous key)
    as [Hnil|(r' & Hone & _)].
  - rewrite Hnil in Hr. destruct Hr.
  - rewrite Hone in Hr |- *. destruct Hr as [->|[]]. reflexivity.
Qed.

Lemma records_for_key (current previous : Metrics) (key : jsstring) (c p : Z) :
  List.NoDup (Object_keys current) ->
  get current key = Some c -> get previous key = Some p -> p <> 0 ->
  records_for key (compareMetrics current previous)
  = if Qltb (1 # 10) (relative_change c p)
    then [metric_record current previous key (Finite (relative_change c p))]
    else [].
Proof.
  intros Hnd Hc Hp Hnz. unfold compareMetrics.
  rewrite records_for_present by eauto using get_Some_keys.
  by apply compareMetric_both.
Qed.

(** A record named [key] in the output is the record that the callback
    builds for [key], and is there exactly when the change exceeds the
    threshold. *)
Lemma compareMetrics_record_for (current previous : Metrics) (key : jsstring)
    (c p : Z) (r : ChangeRecord) :
  get current key = Some c -> get previous key = Some p -> p <> 0 ->
  In r (compareMetrics current previous) /\ metric r = Some key
  <-> r = metric_record current previous key (Finite (relative_change c p))
      /\ (1 # 10 < relative_change c p)%Q.
Proof.
  intros Hc Hp Hnz. split.
  - intros [Hin Hm].
    apply compareMetrics_In in Hin as (k & Hk & Hone).
    destruct (compareMetric_shape current previous k)
      as [Hnil|(r' & Hr' & Hmk & _)]; [congruence|].
    assert (r' = r) by congruence. subst r'.
    assert (k = key) by congruence. subst k.
    rewrite (compareMetric_both current previous key c p Hc Hp Hnz) in Hone.
    destruct (Qltb (1 # 10) (relative_change c p)) eqn:E; [|discriminate].
    apply Qltb_lt in E. split; [congruence | exact E].
  - intros [-> Hlt]. split; [|reflexivity].
    unfold compareMetrics. apply in_flat_map. exists key.
    split; [eauto using get_Some_keys|].
    rewrite (compareMetric_both current previous key c p Hc Hp Hnz).
    apply Qltb_lt in Hlt. rewrite Hlt. by left.
Qed.

(** C4: for a key that both metrics objects hold, with previous value
    [p > 0] and current value [c], a metric record is emitted exactly
    when [|c - p| / p] exceeds one tenth; its severity is high when the
    relative change exceeds one half and medium otherwise.  From 100 to
    109 nothing is emitted, from 100 to 111 one medium record, from 100
    to 160 one high record.  (The count "one" is for an object that
    holds each key once, as JavaScript objects do.) *)
Theorem compareMetrics_threshold
    (current previous : Metrics) (key : jsstring) (c p : Z) :
  get current key = Some c -> get previous key = Some p -> 0 < p ->
  let rel := relative_change c p in
  let emitted := records_for key (compareMetrics current previous) in
  ((exists r, In r (compareMetrics current previous) /\ metric r = Some key)
   <-> (1 # 10 < rel)%Q)
  /\ (forall r, In r (compareMetrics current previous) ->
      metric r = Some key ->
      type r = type_metric
      /\ ((1 # 2 < rel)%Q -> severity r = high)
      /\ (~ (1 # 2 < rel)%Q -> severity r = medium))
  /\ (List.NoDup (Object_keys current) ->
      ((1 # 10 < rel)%Q -> exists r, emitted = [r])
      /\ (~ (1 # 10 < rel)%Q -> emitted = []))
  /\ (p = 100 -> c = 109 ->
      forall r, In r (compareMetrics current previous) -> metric r <> Some key)
  /\ (p = 100 -> c = 111 ->
      (exists r, In r (compareMetrics current previous) /\ metric r = Some key
                 /\ type r = type_metric /\ severity r = medium)
      /\ (List.NoDup (Object_keys current) ->
          exists r, emitted = [r] /\ severity r = medium))
  /\ (p = 100 -> c = 160 ->
      (exists r, In r (compareMetrics current previous) /\ metric r = Some key
                 /\ type r = type_metric /\ severity r = high)
      /\ (List.NoDup (Object_keys current) ->
          exists r, emitted = [r] /\ severity r = high)).
Proof.
  intros Hc Hp Hpos rel emitted.
  assert (Hnz : p <> 0) by lia.
  pose proof (fun r => compareMetrics_record_for current previous key c p r
                         Hc Hp Hnz) as Hrec.
  fold rel in Hrec.
  set (record := metric_record current previous key (Finite rel)) in *.
  assert (Hem : List.NoDup (Object_keys current) ->
                emitted = if Qltb (1 # 10) rel then [record] else []).
  { intros Hnd. by apply records_for_key. }
  assert (Hsev : severity record = if Qltb (1 # 2) rel then high else medium)
    by reflexivity.
  split; [|split; [|split; [|split; [|split]]]].
  - split.
    + intros (r & Hin & Hm). by apply (Hrec r).
    + intros Hlt. exists record. by apply Hrec.
  - intros r Hin Hm. destruct (proj1 (Hrec r) (conj Hin Hm)) as [-> _].
    split; [reflexivity|]. rewrite Hsev. split.
    + intros Hlt. apply Qltb_lt in Hlt. by rewrite Hlt.
    + intros Hnlt. destruct (Qltb (1 # 2) rel) eqn:E; [|done].
      apply Qltb_lt in E. contradiction.
  - intros Hnd. rewrite (Hem Hnd). split.
    + intros Hlt. apply Qltb_lt in Hlt. rewrite Hlt. by eexists.
    + intros Hnlt. destruct (Qltb (1 # 10) rel) eqn:E; [|done].
      apply Qltb_lt in E. contradiction.
  - intros Hp100 Hc109 r Hin Hm. subst p c.
    destruct (proj1 (Hrec r) (conj Hin Hm)) as [_ Hlt].
    apply Qltb_lt in Hlt. discriminate Hlt.
  - intros Hp100 Hc111. subst p c.
    assert (Hlt : (1 # 10 < rel)%Q) by (by apply Qltb_lt).
    split.
    + exists record. split; [by apply Hrec|]. by repeat split.
    + intros Hnd. exists record. rewrite (Hem Hnd). by split.
  - intros Hp100 Hc160. subst p c.
    assert (Hlt : (1 # 10 < rel)%Q) by (by apply Qltb_lt).
    split.
    + exists record. split; [by apply Hrec|]. by repeat split.
    + intros Hnd. exists record. rewrite (Hem Hnd). by split.
Qed.

Lemma compareMetrics_threshold_witness :
  let current := [(lit "wordCount", 111)] in
  let previous := [(lit "wordCount", 100)] in
  exists r,
    records_for (lit "wordCount") (compareMetrics current previous) = [r]
    /\ severity r = medium.
Proof.
  intros current previous.
  assert (Hnd : List.NoDup (Object_keys current)).
  { constructor; [simpl; tauto | constructor]. }
  assert (Hpos : 0 < 100) by lia.
  pose proof (compareMetrics_threshold current previous (lit "wordCount")
                111 100 eq_refl eq_refl Hpos) as H.
  simpl in H.
  destruct H as (_ & _ & _ & _ & H111 & _).
  exact (proj2 (H111 eq_refl eq_refl) Hnd).
Defined.

Lemma filter_none {A} (f : A -> bool) (l : list A) :
  (forall x, In x l -> f x = false) -> List.filter f l = [].
Proof.
  induction l as [|a l IH]; simpl; [reflexivity|]. intros Hall.
  rewrite (Hall a) by (left; reflexivity). apply IH. intros x Hx.
  apply Hall. right. exact Hx.
Qed.

(** Every record of [compareMetrics] stems from a key that both objects
    hold, with a nonzero previous value, and carries the finite quotient
    computed for it. *)
Lemma compareMetrics_origin (current previous : Metrics) (r : ChangeRecord) :
  In r (compareMetrics current previous) ->
  exists key c p,
    get current key = Some c /\ get previous key = Some p /\ p <> 0
    /\ r = metric_record current previous key (Finite (relative_change c p))
    /\ (1 # 10 < relative_change c p)%Q.
Proof.
  intros Hr. apply compareMetrics_In in Hr as (key & Hkey & Hone).
  destruct (compareMetric_shape current previous key)
    as [Hnil|(r' & _ & _ & _ & Htruthy)]; [congruence|].
  apply truthy_Some in Htruthy as (p & Hp & Hnz).
  destruct (get current key) as [c|] eqn:Hc.
  - exists key, c, p. split; [exact Hc|]. split; [exact Hp|].
    split; [exact Hnz|].
    rewrite (compareMetric_both current previous key c p Hc Hp Hnz) in Hone.
    destruct (Qltb (1 # 10) (relative_change c p)) eqn:E; [|discriminate].
    apply Qltb_lt in E. split; [congruence | exact E].
  - exfalso. exact (get_None_keys _ _ Hc Hkey).
Qed.

(** C5: a key held by only one of the two metrics objects, or whose
    previous value is 0, produces no metric record whatever the current
    value is.  The division sits under the test of the previous value:
    where the test fails nothing is pushed, where it passes the previous
    value is a nonzero number; and every record that is produced carries
    the finite quotient by a nonzero previous value. *)
Theorem compareMetrics_skips
    (current previous : Metrics) (key : jsstring) :
  (get current key = None \/ get previous key = None
   \/ get previous key = Some 0 ->
   records_for key (compareMetrics current previous) = []
   /\ forall r, In r (compareMetrics current previous) -> metric r <> Some key)
  /\ (truthy (get previous key) = false ->
      compareMetric current previous key = [])
  /\ (truthy (get previous key) = true ->
      exists p, get previous key = Some p /\ p <> 0)
  /\ (forall r, In r (compareMetrics current previous) ->
      exists k c p,
        metric r = Some k /\ get current k = Some c
        /\ get previous k = Some p /\ p <> 0
        /\ change r = Some (Finite (relative_change c p))
        /\ js_div (js_abs (js_sub (to_number (get current k))
                                  (to_number (get previous k))))
                  (to_number (get previous k))
           = Finite (relative_change c p)).
Proof.
  split; [|split; [|split]].
  - intros Hmiss.
    assert (Hnone : forall r, In r (compareMetrics current previous) ->
                              metric r <> Some key).
    { intros r Hr Hm.
      apply compareMetrics_origin in Hr as (k & c & p & Hc & Hp & Hnz & -> & _).
      simpl in Hm. assert (k = key) by congruence. subst k.
      destruct Hmiss as [H|[H|H]]; congruence. }
    split; [|exact Hnone].
    apply filter_none. intros r Hr.
    apply bool_decide_eq_false. by apply Hnone.
  - apply compareMetric_falsy.
  - apply truthy_Some.
  - intros r Hr.
    apply compareMetrics_origin in Hr as (k & c & p & Hc & Hp & Hnz & -> & _).
    exists k, c, p. rewrite Hc, Hp. repeat split; try assumption.
    apply js_relative_change. exact Hnz.
Qed.

Lemma compareMetrics_skips_witness :
  records_for (lit "linkCount")
    (compareMetrics [(lit "linkCount", 40)] [(lit "linkCount", 0)]) = []
  /\ records_for (lit "imageCount")
    (compareMetrics [(lit "imageCount", 7)] [(lit "linkCount", 3)]) = [].
Proof.
  split.
  - apply (proj1 (compareMetrics_skips [(lit "linkCount", 40)]
                    [(lit "linkCount", 0)] (lit "linkCount"))).
    right. right. reflexivity.
  - apply (proj1 (compareMetrics_skips [(lit "imageCount", 7)]
                    [(lit "linkCount", 3)] (lit "imageCount"))).
    right. left. reflexivity.
Defined.

(** ** Change detection *)

Lemma relative_change_same (p : Z) : (relative_change p p == 0)%Q.
Proof.
  unfold relative_change.
  assert (H0 : (inject_Z p - inject_Z p == 0)%Q) by ring.
  rewrite H0. change (Qabs 0) with 0%Q. unfold Qdiv. apply Qmult_0_l.
Qed.

Lemma compareMetric_same (m : Metrics) (key : jsstring) :
  compareMetric m m key = [].
Proof.
  destruct (truthy (get m key)) eqn:Ht.
  - apply truthy_Some in Ht as (p & Hp & Hnz).
    rewrite (compareMetric_both m m key p p Hp Hp Hnz).
    assert (Hle : Qltb (1 # 10) (relative_change p p) = false).
    { apply Qltb_ge. rewrite relative_change_same. discriminate. }
    by rewrite Hle.
  - by apply compareMetric_falsy.
Qed.

Lemma compareMetrics_same (m : Metrics) : compareMetrics m m = [].
Proof.
  unfold compareMetrics. induction (Object_keys m) as [|k keys IH]; simpl.
  - reflexivity.
  - by rewrite compareMetric_same, IH.
Qed.

Lemma compareMetric_equal (current previous : Metrics) (key : jsstring) :
  get current key = get previous key ->
  compareMetric current previous key = [].
Proof.
  intros Heq. destruct (truthy (get previous key)) eqn:Ht.
  - apply truthy_Some in Ht as (p & Hp & Hnz).
    rewrite Hp in Heq.
    rewrite (compareMetric_both current previous key p p Heq Hp Hnz).
    assert (Hle : Qltb (1 # 10) (relative_change p p) = false).
    { apply Qltb_ge. rewrite relative_change_same. discriminate. }
    by rewrite Hle.
  - by apply compareMetric_falsy.
Qed.

Lemma compareMetrics_equal (current previous : Metrics) :
  (forall key, get current key = get previous key) ->
  compareMetrics current previous = [].
Proof.
  intros Heq. unfold compareMetrics.
  induction (Object_keys current) as [|k keys IH]; simpl.
  - reflexivity.
  - by rewrite compareMetric_equal, IH.
Qed.

(** C2: two snapshots with equal hash, title and url and with equal
    metrics maps, that is, the same value (or none) under every metric
    name, in whatever order the two objects list their properties, give
    an empty change list. *)
Theorem detectChanges_identical (current previous : Content) :
  hash current = hash previous ->
  title current = title previous ->
  url current = url previous ->
  (forall key, get (metrics current) key = get (metrics previous) key) ->
  detectChanges current (Some previous) = Normal [].
Proof.
  intros Hh Ht Hu Hm. unfold detectChanges.
  rewrite Hh, Ht, Hu.
  rewrite !bool_decide_eq_false_2 by (intros Hne; by apply Hne).
  by rewrite compareMetrics_equal.
Qed.

Lemma detectChanges_identical_witness :
  metrics home_snapshot_again <> metrics home_snapshot
  /\ detectChanges home_snapshot_again (Some home_snapshot) = Normal [].
Proof.
  split; [discriminate|].
  apply detectChanges_identical; try reflexivity.
  intros key. cbn [metrics home_snapshot_again home_snapshot get].
  repeat case_bool_decide; try reflexivity; subst; try done;
    exfalso;
    match goal with
    | H : lit _ <> lit _ |- _ => by apply H
    | H : lit _ = lit _ |- _ => vm_compute in H; discriminate H
    end.
Defined.

Lemma compareMetrics_type (current previous : Metrics) (r : ChangeRecord) :
  In r (compareMetrics current previous) -> type r = type_metric.
Proof.
  intros Hr. apply compareMetrics_origin in Hr as (k & c & p & _ & _ & _ & -> & _).
  reflexivity.
Qed.

(** C6: [detectChanges] lists the content record, the title record, the
    url record and the metric records in this order.  The content record
    (medium) is there exactly when the hashes differ, the title record
    (high) exactly when the titles differ as strings, the url record
    (high) exactly when the urls differ as strings.  With titles "Home"
    and "home" and everything else equal the list is one title record of
    severity high. *)
Theorem detectChanges_order (current previous : Content) :
  exists cs ts us : list ChangeRecord,
    detectChanges current (Some previous)
    = Normal (cs ++ ts ++ us
              ++ compareMetrics (metrics current) (metrics previous))
    /\ (hash current <> hash previous -> cs = [content_record])
    /\ (hash current = hash previous -> cs = [])
    /\ (title current <> title previous ->
        ts = [title_record current previous])
    /\ (title current = title previous -> ts = [])
    /\ (url current <> url previous -> us = [url_record current previous])
    /\ (url current = url previous -> us = [])
    /\ type content_record = type_content
    /\ severity content_record = medium
    /\ type (title_record current previous) = type_title
    /\ severity (title_record current previous) = high
    /\ type (url_record current previous) = type_url
    /\ severity (url_record current previous) = high
    /\ (forall r, In r (compareMetrics (metrics current) (metrics previous)) ->
        type r = type_metric)
    /\ (title previous = lit "Home" -> title current = lit "home" ->
        hash current = hash previous -> url current = url previous ->
        metrics current = metrics previous ->
        detectChanges current (Some previous)
        = Normal [title_record current previous]).
Proof.
  exists (if bool_decide (hash current ≠ hash previous)
          then [content_record] else []).
  exists (if bool_decide (title current ≠ title previous)
          then [title_record current previous] else []).
  exists (if bool_decide (url current ≠ url previous)
          then [url_record current previous] else []).
  split; [reflexivity|].
  repeat match goal with |- _ /\ _ => split end;
    try reflexivity;
    try (intros Hne; by rewrite bool_decide_eq_true_2);
    try (intros Heq; rewrite bool_decide_eq_false_2; [done|by intros Hne]).
  - apply compareMetrics_type.
  - intros Hp Hc Hh Hu Hm. unfold detectChanges.
    rewrite Hm, compareMetrics_same.
    rewrite (bool_decide_eq_false_2 (hash current ≠ hash previous))
      by (by intros Hne).
    rewrite (bool_decide_eq_false_2 (url current ≠ url previous))
      by (by intros Hne).
    rewrite bool_decide_eq_true_2; [reflexivity|].
    rewrite Hp, Hc. discriminate.
Qed.

(** ** Decimal numerals *)

Lemma value_from_digits (fuel : nat) (n : Z) (acc : jsstring) :
  0 <= n < 2 ^ Z.of_nat fuel ->
  value_from 0 (digits_of fuel n acc) = value_from n acc.
Proof.
  revert n acc. induction fuel as [|fuel IH]; intros n acc Hn.
  - simpl in *. by replace n with 0 by lia.
  - cbn [digits_of]. cbv zeta.
    assert (Hd : Z.of_N (digit_char (n mod 10)) - 48 = n mod 10).
    { unfold digit_char. pose proof (Z.mod_pos_bound n 10). lia. }
    destruct (n <? 10) eqn:Hlt.
    + apply Z.ltb_lt in Hlt. unfold value_from. simpl.
      rewrite Hd, Z.mod_small by lia. done.
    + apply Z.ltb_ge in Hlt. rewrite IH.
      * unfold value_from. simpl. rewrite Hd. f_equal.
        pose proof (Z.div_mod n 10). lia.
      * rewrite Nat2Z.inj_succ, Z.pow_succ_r in Hn by lia.
        split; [apply Z.div_pos; lia|].
        apply Z.div_lt_upper_bound; lia.
Qed.

Lemma value_of_string_of_nonneg (n : Z) :
  0 <= n -> value_from 0 (string_of_nonneg n) = n.
Proof.
  intros Hn. unfold string_of_nonneg. rewrite value_from_digits; [done|].
  split; [done|]. rewrite Nat2Z.inj_succ, Z2Nat.id by apply Z.log2_nonneg.
  destruct (decide (n = 0)) as [->|]; [done|].
  apply Z.log2_spec. lia.
Qed.

(** ** [JSON.parse] of [JSON.stringify] *)

Lemma hex_value_digit (d : Z) :
  0 <= d < 16 -> Node.hex_value (Node.hex_digit d) = Some d.
Proof.
  intros Hd.
  assert (Hcases : d = 0 \/ d = 1 \/ d = 2 \/ d = 3 \/ d = 4 \/ d = 5 \/ d = 6
                   \/ d = 7 \/ d = 8 \/ d = 9 \/ d = 10 \/ d = 11 \/ d = 12
                   \/ d = 13 \/ d = 14 \/ d = 15) by lia.
  repeat (destruct Hcases as [-> | Hcases]; [reflexivity|]).
  by subst d.
Qed.

Lemma hex4_hex (z : Z) :
  0 <= z < 65536 ->
  exists a b c d : N,
    Node.hex 4 z = [a; b; c; d] /\ Node.hex4 a b c d = Some (Z.to_N z).
Proof.
  intros Hz. do 4 eexists. split; [reflexivity|].
  unfold Node.hex4.
  change (4 * Z.of_nat 3) with 12. change (4 * Z.of_nat 2) with 8.
  change (4 * Z.of_nat 1) with 4. change (4 * Z.of_nat 0) with 0.
  change 15 with (Z.ones 4).
  rewrite !Z.land_ones, !Z.shiftr_div_pow2 by lia.
  change (2 ^ 12) with 4096. change (2 ^ 8) with 256.
  change (2 ^ 4) with 16. change (2 ^ 0) with 1.
  rewrite !hex_value_digit by (apply Z.mod_pos_bound; lia).
  do 2 f_equal. rewrite Z.div_1_r.
  pose proof (Z.div_mod z 16 ltac:(lia)).
  pose proof (Z.div_mod (z / 16) 16 ltac:(lia)).
  pose proof (Z.div_mod (z / 16 / 16) 16 ltac:(lia)).
  assert (H8 : z / 256 = z / 16 / 16) by (rewrite Z.div_div by lia; reflexivity).
  assert (H12 : z / 4096 = z / 16 / 16 / 16)
    by (rewrite !Z.div_div by lia; reflexivity).
  assert (Hsmall : z / 16 / 16 / 16 < 16).
  { rewrite <- H12. apply Z.div_lt_upper_bound; lia. }
  assert (Hpos : 0 <= z / 16 / 16 / 16).
  { rewrite <- H12. apply Z.div_pos; lia. }
  rewrite H8, H12. rewrite (Z.mod_small (z / 16 / 16 / 16)) by lia.
  lia.
Qed.

Lemma parse_string_escape (c : N) (rest acc : jsstring) :
  Z.of_N c < 65536 ->
  Node.parse_string
    (Node.backslash ++ lit "u" ++ Node.hex 4 (Z.of_N c) ++ rest) acc
  = Node.parse_string rest (c :: acc).
Proof.
  intros Hc.
  destruct (hex4_hex (Z.of_N c) ltac:(lia)) as (a & b & x & y & Hhex & H4).
  rewrite Hhex. rewrite N2Z.id in H4.
  change (Node.backslash ++ lit "u" ++ [a; b; x; y] ++ rest)
    with (92 :: 117 :: a :: b :: x :: y :: rest)%N.
  cbn [Node.parse_string N.eqb Pos.eqb]. by rewrite H4.
Qed.

Lemma parse_string_unit (prev_high : bool) (c : N) (next : option N)
    (rest acc : jsstring) :
  Node.parse_string (Node.quote_unit prev_high c next ++ rest) acc
  = Node.parse_string rest (c :: acc).
Proof.
  unfold Node.quote_unit.
  destruct (c =? 34)%N eqn:E34; [apply N.eqb_eq in E34; by subst c|].
  destruct (c =? 92)%N eqn:E92; [apply N.eqb_eq in E92; by subst c|].
  destruct (c =? 8)%N eqn:E8; [apply N.eqb_eq in E8; by subst c|].
  destruct (c =? 9)%N eqn:E9; [apply N.eqb_eq in E9; by subst c|].
  destruct (c =? 10)%N eqn:E10; [apply N.eqb_eq in E10; by subst c|].
  destruct (c =? 12)%N eqn:E12; [apply N.eqb_eq in E12; by subst c|].
  destruct (c =? 13)%N eqn:E13; [apply N.eqb_eq in E13; by subst c|].
  assert (Hplain : Node.parse_string ([c] ++ rest) acc
                   = Node.parse_string rest (c :: acc) \/ (c <? 32)%N = true).
  { destruct (c <? 32)%N eqn:E32; [by right|]. left.
    cbn [app Node.parse_string]. by rewrite E34, E92, E32. }
  destruct (c <? 32)%N eqn:E32.
  { rewrite <- !app_assoc. apply parse_string_escape.
    apply N.ltb_lt in E32. lia. }
  destruct Hplain as [Hplain|]; [|discriminate].
  assert (Hescape : Node.is_high_surrogate (Z.of_N c) = true
                    \/ Node.is_low_surrogate (Z.of_N c) = true ->
            Node.parse_string
              ((Node.backslash ++ lit "u" ++ Node.hex 4 (Z.of_N c)) ++ rest) acc
            = Node.parse_string rest (c :: acc)).
  { intros Hsur. rewrite <- !app_assoc. apply parse_string_escape.
    unfold Node.is_high_surrogate, Node.is_low_surrogate in Hsur.
    destruct Hsur as [H|H]; apply andb_true_iff in H as [_ H];
      apply Z.ltb_lt in H; lia. }
  destruct (Node.is_high_surrogate (Z.of_N c)) eqn:Eh.
  { destruct next as [d|]; [|apply Hescape; by left].
    destruct (Node.is_low_surrogate (Z.of_N d)); [exact Hplain|].
    apply Hescape. by left. }
  destruct (Node.is_low_surrogate (Z.of_N c)) eqn:El; [|exact Hplain].
  destruct prev_high; [exact Hplain|]. apply Hescape. by right.
Qed.

Lemma parse_string_units (s : jsstring) (prev_high : bool)
    (rest acc : jsstring) :
  Node.parse_string (Node.quote_units prev_high s ++ dquote ++ rest) acc
  = Some (rev acc ++ s, rest).
Proof.
  revert prev_high acc. induction s as [|c s IH]; intros prev_high acc.
  - cbn. by rewrite app_nil_r.
  - cbn [Node.quote_units]. cbv zeta. rewrite <- app_assoc.
    rewrite parse_string_unit, IH. cbn [rev]. by rewrite <- app_assoc.
Qed.

(** A string literal is read back as the string it quotes. *)
Lemma parse_string_quote (s rest : jsstring) :
  exists tail,
    Node.quote s ++ rest = 34%N :: tail
    /\ Node.parse_string tail [] = Some (s, rest).
Proof.
  exists (Node.quote_units false s ++ dquote ++ rest). split.
  - unfold Node.quote. by rewrite <- !app_assoc.
  - apply parse_string_units.
Qed.

Lemma digits_of_digits (fuel : nat) (n : Z) (acc : jsstring) :
  Forall (fun c => Node.is_digit c = true) acc ->
  Forall (fun c => Node.is_digit c = true) (digits_of fuel n acc).
Proof.
  revert n acc. induction fuel as [|fuel IH]; intros n acc Hacc; [done|].
  cbn [digits_of]. cbv zeta.
  assert (Hd : Node.is_digit (digit_char (n mod 10)) = true).
  { unfold Node.is_digit, digit_char.
    pose proof (Z.mod_pos_bound n 10 ltac:(lia)).
    apply andb_true_iff. split; apply N.leb_le; lia. }
  destruct (n <? 10); [by constructor|]. apply IH. by constructor.
Qed.

Lemma digits_of_leading (fuel : nat) (n : Z) (acc : jsstring) :
  1 <= n < 2 ^ Z.of_nat fuel ->
  exists d ds, digits_of fuel n acc = d :: ds /\ d <> 48%N.
Proof.
  revert n acc. induction fuel as [|fuel IH]; intros n acc Hn.
  - simpl in Hn. lia.
  - cbn [digits_of]. cbv zeta. destruct (n <? 10) eqn:Hlt.
    + apply Z.ltb_lt in Hlt. eexists _, _. split; [reflexivity|].
      unfold digit_char. rewrite Z.mod_small by lia. lia.
    + apply Z.ltb_ge in Hlt. apply IH.
      rewrite Nat2Z.inj_succ, Z.pow_succ_r in Hn by lia.
      split; [apply Z.div_le_lower_bound; lia|].
      apply Z.div_lt_upper_bound; lia.
Qed.

Lemma string_of_nonneg_shape (n : Z) :
  0 <= n ->
  exists d ds,
    string_of_nonneg n = d :: ds
    /\ Forall (fun c => Node.is_digit c = true) (d :: ds)
    /\ (d = 48%N -> ds = [])
    /\ value_from 0 (d :: ds) = n.
Proof.
  intros Hn.
  pose proof (value_of_string_of_nonneg n Hn) as Hvalue.
  assert (Hdigits : Forall (fun c => Node.is_digit c = true)
                      (string_of_nonneg n))
    by (apply digits_of_digits; constructor).
  destruct (decide (n = 0)) as [->|Hne].
  { exists 48%N, []. split; [reflexivity|]. split; [by repeat constructor|].
    split; [done | reflexivity]. }
  destruct (digits_of_leading (S (Z.to_nat (Z.log2 n))) n []) as (d & ds & E & Hd).
  { split; [lia|]. rewrite Nat2Z.inj_succ, Z2Nat.id by apply Z.log2_nonneg.
    apply Z.log2_spec. lia. }
  fold (string_of_nonneg n) in E. rewrite E in Hvalue, Hdigits.
  exists d, ds. split; [exact E|]. split; [exact Hdigits|].
  split; [done | exact Hvalue].
Qed.

Lemma parse_digits_value (ds : jsstring) (c : N) (rest : jsstring) (acc : Z) :
  Forall (fun c => Node.is_digit c = true) ds ->
  Node.is_digit c = false ->
  Node.parse_digits (ds ++ c :: rest) acc = (value_from acc ds, c :: rest).
Proof.
  intros Hds Hc. revert acc.
  induction Hds as [|d ds Hd _ IH]; intros acc.
  - cbn. by rewrite Hc.
  - cbn [app Node.parse_digits]. rewrite Hd. apply IH.
Qed.

Lemma parse_number_digits (negative : bool) (d : N) (ds : jsstring) (c : N)
    (rest : jsstring) :
  Forall (fun c => Node.is_digit c = true) (d :: ds) ->
  (d = 48%N -> ds = []) ->
  c = 44%N \/ c = 10%N ->
  Node.parse_number
    ((if negative then lit "-" else []) ++ d :: ds ++ c :: rest)
  = Some (if negative then - value_from 0 (d :: ds) else value_from 0 (d :: ds),
          c :: rest).
Proof.
  intros Hall Hzero Hc.
  assert (Hend : Node.is_digit c = false
                 /\ ((c =? 46) || (c =? 101) || (c =? 69))%N = false)
    by (destruct Hc as [-> | ->]; by split).
  destruct Hend as [Hnd Hne].
  pose proof Hall as Hall'. apply Forall_cons in Hall' as [Hd Hds].
  assert (H45 : (d =? 45)%N = false).
  { unfold Node.is_digit in Hd. apply andb_true_iff in Hd as [Hlo _].
    apply N.leb_le in Hlo. apply N.eqb_neq. lia. }
  pose proof (parse_digits_value (d :: ds) c rest 0 Hall Hnd) as Hpd.
  change ((d :: ds) ++ c :: rest) with (d :: ds ++ c :: rest) in Hpd.
  assert (Hlead : (d =? 48)%N
                  && match ds ++ c :: rest with
                     | e :: _ => Node.is_digit e
                     | [] => false
                     end = false).
  { destruct (d =? 48)%N eqn:E48; [|reflexivity].
    apply N.eqb_eq in E48. rewrite (Hzero E48). cbn [app andb]. exact Hnd. }
  unfold Node.parse_number. destruct negative.
  - change (lit "-" ++ d :: ds ++ c :: rest) with (45 :: d :: ds ++ c :: rest)%N.
    cbn [N.eqb Pos.eqb]. cbv iota beta. rewrite Hd, Hlead, Hpd. by rewrite Hne.
  - cbn [app]. rewrite H45. cbv iota beta. rewrite Hd, Hlead, Hpd.
    by rewrite Hne.
Qed.

(** A count is read back where a comma or a line break follows it. *)
Lemma parse_number_string_of_Z (z : Z) (c : N) (rest : jsstring) :
  c = 44%N \/ c = 10%N ->
  exists d ds,
    string_of_Z z = d :: ds
    /\ (d = 45%N \/ Node.is_digit d = true)
    /\ Node.parse_number (string_of_Z z ++ c :: rest) = Some (z, c :: rest).
Proof.
  intros Hc. unfold string_of_Z. destruct (Z.ltb_spec z 0) as [Hneg|Hpos].
  - destruct (string_of_nonneg_shape (- z) ltac:(lia))
      as (d & ds & E & Hall & Hzero & Hval).
    eexists _, _. split; [reflexivity|]. split; [by left|].
    rewrite E. pose proof (parse_number_digits true d ds c rest Hall Hzero Hc)
      as Hparse.
    rewrite Hval in Hparse. replace (- - z) with z in Hparse by lia.
    rewrite <- Hparse. by rewrite <- app_assoc.
  - destruct (string_of_nonneg_shape z Hpos)
      as (d & ds & E & Hall & Hzero & Hval).
    exists d, ds. split; [exact E|].
    pose proof Hall as Hall'. apply Forall_cons in Hall' as [Hd _].
    split; [by right|].
    rewrite E. pose proof (parse_number_digits false d ds c rest Hall Hzero Hc)
      as Hparse.
    rewrite Hval in Hparse. exact Hparse.
Qed.

Lemma parse_value_string (fuel : nat) (s : jsstring) (rest : jsstring) :
  Node.parse_value (S fuel) (32%N :: Node.quote s ++ rest)
  = Some (Node.JString s, rest).
Proof.
  destruct (parse_string_quote s rest) as (tail & E & Hparse).
  rewrite E. cbn [Node.parse_value Node.skip_ws N.eqb Pos.eqb orb].
  by rewrite Hparse.
Qed.

Lemma parse_value_number (fuel : nat) (z : Z) (c : N) (rest : jsstring) :
  c = 44%N \/ c = 10%N ->
  Node.parse_value (S fuel) (32%N :: string_of_Z z ++ c :: rest)
  = Some (Node.JNumber z, c :: rest).
Proof.
  intros Hc.
  destruct (parse_number_string_of_Z z c rest Hc) as (d & ds & E & Hd & Hparse).
  rewrite E in Hparse |- *.
  assert (Hrange : (45 <= d <= 57)%N).
  { destruct Hd as [-> | Hd]; [lia|]. unfold Node.is_digit in Hd.
    apply andb_true_iff in Hd as [Hlo Hhi].
    apply N.leb_le in Hlo, Hhi. lia. }
  cbn [Node.parse_value Node.skip_ws N.eqb Pos.eqb orb app].
  repeat match goal with
         | |- context [(d =? ?k)%N] =>
             rewrite (proj2 (N.eqb_neq d k)) by lia
         end.
  cbn [orb]. cbv iota.
  repeat match goal with
         | |- context [(d =? ?k)%N] =>
             rewrite (proj2 (N.eqb_neq d k)) by lia
         end.
  change (d :: ds ++ c :: rest) with ((d :: ds) ++ c :: rest).
  by rewrite Hparse.
Qed.

(** One member of an object: the key, the colon, the value, then a comma
    and the next member or the closing brace. *)
Lemma parse_member (f : nat) (indent key vtext : jsstring) (v : Node.json)
    (c : N) (tail : jsstring) (acc : list (jsstring * Node.json)) :
  (forall x, Node.skip_ws (Node.newline ++ indent ++ 34%N :: x) = 34%N :: x) ->
  Node.parse_value f (32%N :: vtext ++ c :: tail) = Some (v, c :: tail) ->
  Node.parse_members (S f)
    (Node.newline ++ Node.stringify_property indent key vtext ++ c :: tail) acc
  = match Node.skip_ws (c :: tail) with
    | d :: rest4 =>
        if (d =? 44)%N then Node.parse_members f rest4 ((key, v) :: acc)
        else if (d =? 125)%N
             then Some (Node.JObject (rev ((key, v) :: acc)), rest4)
             else None
    | [] => None
    end.
Proof.
  intros Hindent Hvalue.
  unfold Node.stringify_property, Node.quote. rewrite <- !app_assoc.
  change (dquote ++ Node.quote_units false key ++ dquote ++ lit ": " ++ vtext
            ++ c :: tail)
    with (34%N :: Node.quote_units false key ++ dquote
            ++ 58%N :: 32%N :: vtext ++ c :: tail).
  cbn [Node.parse_members]. rewrite Hindent.
  cbn [N.eqb Pos.eqb]. cbv iota.
  rewrite parse_string_units. cbn [rev app Node.skip_ws N.eqb Pos.eqb orb].
  cbv iota. rewrite Hvalue. reflexivity.
Qed.

Lemma join_lines_cons (l : jsstring) (rest : list jsstring) :
  rest <> [] ->
  Node.join_lines (l :: rest) = l ++ lit "," ++ Node.newline ++ Node.join_lines rest.
Proof. by destruct rest. Qed.

Lemma parse_members_lines (indent closing : jsstring) (need : nat)
    (items : list (jsstring * jsstring * Node.json)) :
  (forall x, Node.skip_ws (Node.newline ++ indent ++ 34%N :: x) = 34%N :: x) ->
  (forall outer,
     Node.skip_ws (Node.newline ++ closing ++ outer) = 125%N :: outer) ->
  Forall (fun it =>
            forall f c tail, (need <= f)%nat -> c = 44%N \/ c = 10%N ->
              Node.parse_value f (32%N :: it.1.2 ++ c :: tail)
              = Some (it.2, c :: tail)) items ->
  items <> [] ->
  forall f acc outer, (length items + need <= f)%nat ->
    Node.parse_members f
      (Node.newline
         ++ Node.join_lines
              (map (fun it => Node.stringify_property indent it.1.1 it.1.2)
                   items)
         ++ Node.newline ++ closing ++ outer) acc
    = Some (Node.JObject (rev acc ++ map (fun it => (it.1.1, it.2)) items),
            outer).
Proof.
  intros Hindent Hclosing Hitems.
  induction Hitems as [|[[key vtext] v] items Hit Hitems IH]; [done|].
  intros _ f acc outer Hf. cbn [length] in Hf.
  destruct f as [|f]; [lia|].
  cbn [fst snd] in Hit.
  destruct items as [|it2 items].
  - cbn [Node.join_lines map fst snd].
    pose proof (parse_member f indent key vtext v 10%N (closing ++ outer) acc
                  Hindent (Hit f 10%N _ ltac:(lia) ltac:(by right))) as Hstep.
    change (Node.newline ++ closing ++ outer) with (10%N :: closing ++ outer).
    rewrite Hstep.
    change (10%N :: closing ++ outer) with (Node.newline ++ closing ++ outer).
    rewrite Hclosing. reflexivity.
  - specialize (IH ltac:(done)).
    rewrite (map_cons _ (key, vtext, v)), join_lines_cons by done.
    cbn [fst snd]. rewrite <- !app_assoc.
    match goal with
    | |- Node.parse_members _ (_ ++ _ ++ lit "," ++ ?r) _ = _ =>
        change (lit "," ++ r) with (44%N :: r);
        rewrite (parse_member f indent key vtext v 44%N r acc Hindent
                   (Hit f 44%N _ ltac:(lia) ltac:(by left)))
    end.
    cbn [Node.skip_ws N.eqb Pos.eqb orb]. cbv iota.
    rewrite IH by (cbn [length] in *; lia).
    cbn [rev map fst snd]. by rewrite <- app_assoc.
Qed.

Lemma first_line (indent : jsstring)
    (items : list (jsstring * jsstring * Node.json)) (tail : jsstring) :
  items <> [] ->
  exists x,
    Node.newline
      ++ Node.join_lines
           (map (fun it => Node.stringify_property indent it.1.1 it.1.2) items)
      ++ tail
    = Node.newline ++ indent ++ 34%N :: x.
Proof.
  intros Hne. destruct items as [|it items]; [done|].
  destruct items as [|it2 items].
  - cbn [map Node.join_lines]. unfold Node.stringify_property, Node.quote.
    rewrite <- !app_assoc. eexists. reflexivity.
  - rewrite (map_cons _ it), join_lines_cons by done.
    unfold Node.stringify_property at 1. unfold Node.quote.
    rewrite <- !app_assoc. eexists. reflexivity.
Qed.

Lemma metric_lines (o : Metrics) :
  map (fun kv => Node.stringify_property (lit "    ") (fst kv)
                   (string_of_Z (snd kv))) o
  = map (fun it : jsstring * jsstring * Node.json =>
           Node.stringify_property (lit "    ") it.1.1 it.1.2)
        (map (fun kv => (fst kv, string_of_Z (snd kv), Node.JNumber (snd kv))) o).
Proof. by rewrite List.map_map. Qed.

(** The metrics object is read back member by member. *)
Lemma parse_value_metrics (o : Metrics) (f : nat) (c : N) (tail : jsstring) :
  (length o + 2 <= f)%nat -> c = 44%N \/ c = 10%N ->
  Node.parse_value f (32%N :: Node.stringify_metrics o ++ c :: tail)
  = Some (Node.JObject (map (fun kv => (fst kv, Node.JNumber (snd kv))) o),
          c :: tail).
Proof.
  intros Hf Hc. destruct f as [|f]; [lia|].
  destruct o as [|kv o]; [reflexivity|].
  set (o' := kv :: o) in *.
  assert (Hne : map (fun kv => (fst kv, string_of_Z (snd kv),
                                 Node.JNumber (snd kv))) o' <> []) by done.
  assert (Hindent : forall x,
            Node.skip_ws (Node.newline ++ lit "    " ++ 34%N :: x) = 34%N :: x)
    by reflexivity.
  assert (Htext : Node.stringify_metrics o' ++ c :: tail
                  = 123%N :: Node.newline
                      ++ Node.join_lines
                           (map (fun it : jsstring * jsstring * Node.json =>
                                   Node.stringify_property (lit "    ")
                                     it.1.1 it.1.2)
                                (map (fun kv => (fst kv, string_of_Z (snd kv),
                                                 Node.JNumber (snd kv))) o'))
                      ++ Node.newline ++ lit "  }" ++ c :: tail).
  { unfold Node.stringify_metrics, o'. rewrite <- metric_lines.
    by rewrite <- !app_assoc. }
  rewrite Htext.
  destruct (first_line (lit "    ") _ (Node.newline ++ lit "  }" ++ c :: tail) Hne)
    as (x & Hfirst).
  cbn [Node.parse_value Node.skip_ws N.eqb Pos.eqb orb]. cbv iota.
  rewrite Hfirst at 1. rewrite Hindent.
  cbn [N.eqb Pos.eqb]. cbv iota.
  rewrite (parse_members_lines (lit "    ") (lit "  }") 1); try done.
  - cbn [rev app]. by rewrite List.map_map.
  - apply Forall_forall. intros it Hit.
    apply list_elem_of_In, in_map_iff in Hit as (kv' & <- & _).
    intros f' c' tail' Hf' Hc'. cbn [fst snd].
    destruct f' as [|f']; [lia|]. by apply parse_value_number.
  - rewrite length_map. unfold o' in *. cbn [length] in *. lia.
Qed.

Lemma define_fresh (o : Metrics) (key : jsstring) (v : Z) :
  key ∉ Object_keys o -> Node.define o key v = o ++ [(key, v)].
Proof.
  induction o as [|[k x] o IH]; intros Hkey; [reflexivity|].
  cbn [Node.define app]. unfold Object_keys in Hkey. cbn [map fst] in Hkey.
  apply not_elem_of_cons in Hkey as [Hne Hkey].
  rewrite bool_decide_eq_false_2 by done. f_equal. by apply IH.
Qed.

Lemma metrics_of_members (o acc : Metrics) :
  NoDup (Object_keys (acc ++ o)) ->
  Node.metrics_of (map (fun kv => (fst kv, Node.JNumber (snd kv))) o) acc
  = Some (acc ++ o).
Proof.
  revert acc. induction o as [|[k z] o IH]; intros acc Hnd.
  - cbn. by rewrite app_nil_r.
  - cbn [map Node.metrics_of fst snd].
    assert (Hfresh : k ∉ Object_keys acc).
    { unfold Object_keys in *. rewrite map_app in Hnd.
      apply NoDup_app in Hnd as (_ & Hdisj & _).
      intros Hin. apply (Hdisj k Hin). cbn [map fst]. left. }
    rewrite (define_fresh acc k z Hfresh).
    rewrite IH; rewrite <- app_assoc; [reflexivity | exact Hnd].
Qed.

Lemma join_lines_length (lines : list jsstring) :
  Forall (fun l => (1 <= length l)%nat) lines ->
  (length lines <= length (Node.join_lines lines))%nat.
Proof.
  induction 1 as [|l lines Hl Hlines IH]; [done|].
  destruct lines as [|l2 lines].
  - cbn [Node.join_lines length]. lia.
  - rewrite join_lines_cons by done. rewrite !length_app.
    cbn [length] in *. lia.
Qed.

Lemma stringify_metrics_length (o : Metrics) :
  (length o <= length (Node.stringify_metrics o))%nat.
Proof.
  destruct o as [|kv o]; [cbn; lia|].
  unfold Node.stringify_metrics. rewrite !length_app.
  pose proof (join_lines_length
    (map (fun kv => Node.stringify_property (lit "    ") (fst kv)
                      (string_of_Z (snd kv))) (kv :: o))) as Hlines.
  rewrite length_map in Hlines.
  assert (Hall : Forall (fun l => (1 <= length l)%nat)
                   (map (fun kv => Node.stringify_property (lit "    ") (fst kv)
                                     (string_of_Z (snd kv))) (kv :: o))).
  { apply Forall_forall. intros l Hl.
    apply list_elem_of_In, in_map_iff in Hl as (kv' & <- & _).
    unfold Node.stringify_property. rewrite length_app. cbn [length lit]. lia. }
  specialize (Hlines Hall). lia.
Qed.

Lemma JSON_stringify_length (snapshot : Content) :
  (length (metrics snapshot) + 9 <= length (Node.JSON_stringify snapshot))%nat.
Proof.
  pose proof (stringify_metrics_length (metrics snapshot)) as Hm.
  unfold Node.JSON_stringify.
  destruct (hash snapshot) as [h|];
    cbn [app Node.join_lines]; unfold Node.stringify_property;
    rewrite !length_app; cbn [length lit Node.newline]; lia.
Qed.

(** [JSON.parse] reads back what [JSON.stringify] printed: a snapshot
    whose metrics are an object, no name listed twice, survives the two
    unchanged. *)
Lemma JSON_parse_stringify (snapshot : Content) :
  NoDup (Object_keys (metrics snapshot)) ->
  Node.JSON_parse (Node.JSON_stringify snapshot) = Some snapshot.
Proof.
  intros Hnd.
  set (items :=
         [ (lit "html", Node.quote (html snapshot), Node.JString (html snapshot));
           (lit "title", Node.quote (title snapshot),
            Node.JString (title snapshot));
           (lit "url", Node.quote (url snapshot), Node.JString (url snapshot));
           (lit "textContent", Node.quote (textContent snapshot),
            Node.JString (textContent snapshot));
           (lit "metrics", Node.stringify_metrics (metrics snapshot),
            Node.JObject (map (fun kv => (fst kv, Node.JNumber (snd kv)))
                              (metrics snapshot)));
           (lit "timestamp", Node.quote (timestamp snapshot),
            Node.JString (timestamp snapshot)) ]
         ++ match hash snapshot with
            | Some h => [(lit "hash", Node.quote h, Node.JString h)]
            | None => []
            end).
  assert (Htext : Node.JSON_stringify snapshot
                  = 123%N :: Node.newline
                      ++ Node.join_lines
                           (map (fun it : jsstring * jsstring * Node.json =>
                                   Node.stringify_property (lit "  ")
                                     it.1.1 it.1.2) items)
                      ++ Node.newline ++ lit "}" ++ []).
  { unfold Node.JSON_stringify, items. by destruct (hash snapshot). }
  assert (Hne : items <> []) by done.
  assert (Hlen : (length items <= 7)%nat)
    by (unfold items; destruct (hash snapshot); cbn [length app]; lia).
  assert (Hvalues :
            Forall (fun it : jsstring * jsstring * Node.json =>
                      forall f c tail,
                        (length (metrics snapshot) + 2 <= f)%nat ->
                        c = 44%N \/ c = 10%N ->
                        Node.parse_value f (32%N :: it.1.2 ++ c :: tail)
                        = Some (it.2, c :: tail)) items).
  { assert (Hstring : forall (s : jsstring) f c tail,
              (length (metrics snapshot) + 2 <= f)%nat ->
              Node.parse_value f (32%N :: Node.quote s ++ c :: tail)
              = Some (Node.JString s, c :: tail)).
    { intros s f c tail Hf. destruct f as [|f]; [lia|].
      apply parse_value_string. }
    unfold items. repeat apply Forall_cons_2.
    - intros f c tail Hf _. by apply Hstring.
    - intros f c tail Hf _. by apply Hstring.
    - intros f c tail Hf _. by apply Hstring.
    - intros f c tail Hf _. by apply Hstring.
    - intros f c tail Hf Hc. by apply parse_value_metrics.
    - intros f c tail Hf _. by apply Hstring.
    - destruct (hash snapshot) as [h|]; [|constructor].
      apply Forall_cons_2; [|constructor].
      intros f c tail Hf _. by apply Hstring. }
  assert (Hparse : Node.parse_text (Node.JSON_stringify snapshot)
                   = Some (Node.JObject
                             (map (fun it : jsstring * jsstring * Node.json =>
                                     (it.1.1, it.2)) items))).
  { unfold Node.parse_text.
    pose proof (JSON_stringify_length snapshot) as Hfuel.
    set (fuel := length (Node.JSON_stringify snapshot)) in *.
    rewrite Htext.
    destruct (first_line (lit "  ") items (Node.newline ++ lit "}" ++ []) Hne)
      as (x & Hfirst).
    cbn [Node.parse_value Node.skip_ws N.eqb Pos.eqb orb]. cbv iota.
    rewrite Hfirst at 1.
    assert (Hindent : forall x,
              Node.skip_ws (Node.newline ++ lit "  " ++ 34%N :: x) = 34%N :: x)
      by reflexivity.
    rewrite Hindent. cbn [N.eqb Pos.eqb]. cbv iota.
    rewrite (parse_members_lines (lit "  ") (lit "}")
               (length (metrics snapshot) + 2)); try done.
    lia. }
  unfold Node.JSON_parse. rewrite Hparse.
  pose proof (metrics_of_members (metrics snapshot) [] Hnd) as Hmetrics.
  cbn [app] in Hmetrics.
  unfold items. destruct snapshot as [h t u x o stamp [digest|]];
    cbn [html title url textContent metrics timestamp hash] in *;
    cbn [map app fst snd];
    remember (map (fun kv : jsstring * Z => (kv.1, Node.JNumber kv.2)) o)
      as ms eqn:Ems;
    vm_compute Node.member; cbv iota; rewrite Hmetrics; reflexivity.
Qed.

(** ** The snapshot store and the monitoring run *)

Section MonitorProperties.

Context (sha256_hex : jsstring -> jsstring)
        (JSON_stringify : Content -> jsstring)
        (JSON_parse : jsstring -> option Content)
        (path_join : jsstring -> jsstring -> jsstring)
        (reports : jsstring)
        (fetch : jsstring -> M (option Content)).

Local Abbreviation snapshotPath := (snapshotPath path_join reports).
Local Abbreviation loadPreviousSnapshot :=
  (loadPreviousSnapshot JSON_parse path_join reports).
Local Abbreviation saveSnapshot :=
  (saveSnapshot JSON_stringify path_join reports).
Local Abbreviation monitorWebsite :=
  (monitorWebsite sha256_hex JSON_stringify JSON_parse path_join reports fetch).
Local Abbreviation monitorEach :=
  (monitorEach sha256_hex JSON_stringify JSON_parse path_join reports fetch).
Local Abbreviation monitorAll :=
  (monitorAll sha256_hex JSON_stringify JSON_parse path_join reports fetch).

(** Loading never throws and leaves the world as it is. *)
Lemma loadPreviousSnapshot_eq (competitorId : jsstring) (w : World) :
  loadPreviousSnapshot competitorId w
  = (Normal (files w !! snapshotPath competitorId ≫= JSON_parse), w).
Proof.
  unfold loadPreviousSnapshot, try_catch, bind, readFile.
  destruct (files w !! snapshotPath competitorId) as [data|]; simpl;
    [|reflexivity].
  destruct (JSON_parse data); reflexivity.
Qed.

(** Saving never throws: a rejected write is logged and nothing else
    happens. *)
Lemma saveSnapshot_eq (competitorId : jsstring) (snapshot : Content)
    (w : World) :
  saveSnapshot competitorId snapshot w
  = match write_errors w !! snapshotPath competitorId with
    | Some msg =>
        (Normal tt,
         add_log (FailedToSaveSnapshot competitorId {| message := msg |}) w)
    | None =>
        (Normal tt,
         set_files (<[snapshotPath competitorId := JSON_stringify snapshot]>
                      (files w)) w)
    end.
Proof.
  unfold saveSnapshot, try_catch, writeFile, logger.
  destruct (write_errors w !! snapshotPath competitorId); reflexivity.
Qed.

Lemma monitorWebsite_fetched (competitor : Competitor) (w w1 : World)
    (content : Content) :
  fetch (website competitor)
    (add_log (StartingWebsiteMonitoring (name competitor) (website competitor)) w)
  = (Normal (Some content), w1) ->
  let previous := files w1 !! snapshotPath (id competitor) ≫= JSON_parse in
  let results := compared competitor (now w) content previous in
  monitorWebsite competitor w
  = (Normal results,
     add_log (WebsiteMonitoringCompleted (name competitor)
                (length (res_changes results)) (length (res_errors results)))
       (snd (saveSnapshot (id competitor)
               (snapshot_of content (generateHash sha256_hex (html content))
                  (now w1)) w1))).
Proof.
  intros Hfetch previous results.
  unfold monitorWebsite, bind, try_catch, logger, Date_toISOString,
    ret, call.
  cbv beta iota. rewrite Hfetch. cbv beta iota.
  rewrite loadPreviousSnapshot_eq. cbv beta iota.
  fold previous.
  subst results. destruct previous as [p|] eqn:Hprev; simpl;
    rewrite !saveSnapshot_eq;
    destruct (write_errors w1 !! snapshotPath (id competitor)); reflexivity.
Qed.

Lemma compared_absent (competitor : Competitor) (stamp : jsstring)
    (content : Content) :
  compared competitor stamp content None = empty_results competitor stamp [].
Proof. reflexivity. Qed.



(** C3, as the code has it: [detectChanges] itself throws on an absent
    previous snapshot; [monitorWebsite] calls it only when a previous
    snapshot was loaded, and a run without one reports no changes and no
    errors. *)
Theorem absent_previous_snapshot :
  (forall current : Content,
     detectChanges current None
     = Throw {| message :=
                  lit "Cannot read properties of null (reading 'hash')" |})
  /\ (forall (competitor : Competitor) (w w1 : World) (content : Content),
        fetch (website competitor)
          (add_log (StartingWebsiteMonitoring (name competitor)
                      (website competitor)) w)
        = (Normal (Some content), w1) ->
        loadPreviousSnapshot (id competitor) w1 = (Normal None, w1) ->
        exists results w',
          monitorWebsite competitor w = (Normal results, w')
          /\ res_changes results = []
          /\ res_errors results = []
          /\ res_metrics results = None).
Proof.
  split; [reflexivity|].
  intros competitor w w1 content Hfetch Hload.
  rewrite loadPreviousSnapshot_eq in Hload.
  assert (Hnone : files w1 !! snapshotPath (id competitor) ≫= JSON_parse = None)
    by congruence.
  rewrite (monitorWebsite_fetched competitor w w1 content Hfetch).
  cbv zeta. rewrite Hnone. do 2 eexists. split; [reflexivity|].
  by rewrite compared_absent.
Qed.

(** C1, what the code does: whenever a run compares fetched content with
    a stored snapshot, the change list starts with a content record, also
    when nothing differs.  The content object handed to [detectChanges]
    has no [hash] property (the digest computed by [monitorWebsite] goes
    only into the snapshot that is saved), while every stored snapshot
    has one.  An unchanged page gives exactly the content record; a page
    whose title alone differs gives the content record and the title
    record. *)
Theorem compared_run_reports_content
    (competitor : Competitor) (w w1 : World) (content previous : Content)
    (digest : jsstring) :
  fetch (website competitor)
    (add_log (StartingWebsiteMonitoring (name competitor)
                (website competitor)) w)
  = (Normal (Some content), w1) ->
  hash content = None ->
  loadPreviousSnapshot (id competitor) w1 = (Normal (Some previous), w1) ->
  hash previous = Some digest ->
  exists results w',
    monitorWebsite competitor w = (Normal results, w')
    /\ (exists rest, res_changes results = content_record :: rest)
    /\ (title content = title previous -> url content = url previous ->
        metrics content = metrics previous ->
        res_changes results = [content_record])
    /\ (title content <> title previous -> url content = url previous ->
        metrics content = metrics previous ->
        res_changes results = [content_record; title_record content previous]).
Proof.
  intros Hfetch Hcur Hload Hprev.
  rewrite loadPreviousSnapshot_eq in Hload.
  assert (Hsome : files w1 !! snapshotPath (id competitor) ≫= JSON_parse
                  = Some previous) by congruence.
  rewrite (monitorWebsite_fetched competitor w w1 content Hfetch).
  cbv zeta. rewrite Hsome. do 2 eexists. split; [reflexivity|].
  unfold compared. cbn [res_changes].
  rewrite (bool_decide_eq_true_2 (hash content ≠ hash previous))
    by (rewrite Hcur, Hprev; discriminate).
  split; [eexists; reflexivity|]. split.
  - intros Ht Hu Hm.
    rewrite (bool_decide_eq_false_2 (title content ≠ title previous))
      by (by intros Hne).
    rewrite (bool_decide_eq_false_2 (url content ≠ url previous))
      by (by intros Hne).
    by rewrite Hm, compareMetrics_same.
  - intros Ht Hu Hm.
    rewrite (bool_decide_eq_true_2 (title content ≠ title previous)) by done.
    rewrite (bool_decide_eq_false_2 (url content ≠ url previous))
      by (by intros Hne).
    by rewrite Hm, compareMetrics_same.
Qed.


End MonitorProperties.

(** C8: after a [saveSnapshot(id, snapshot)] that the file system
    accepts, [loadPreviousSnapshot(id)] returns a snapshot equal to the
    one saved, field by field.  What [JSON.stringify] prints,
    [JSON.parse] reads back: this holds for every snapshot, its strings
    whatever code units they hold and its counts whatever integers, the
    metrics being an object, which lists no name twice. *)
Theorem saveSnapshot_then_loadPreviousSnapshot
    (path_join : jsstring -> jsstring -> jsstring) (reports : jsstring)
    (competitorId : jsstring) (snapshot : Content) (w : World) :
  NoDup (Object_keys (metrics snapshot)) ->
  write_errors w !! snapshotPath path_join reports competitorId = None ->
  exists w',
    saveSnapshot Node.JSON_stringify path_join reports competitorId snapshot w
    = (Normal tt, w')
    /\ files w' !! snapshotPath path_join reports competitorId
       = Some (Node.JSON_stringify snapshot)
    /\ loadPreviousSnapshot Node.JSON_parse path_join reports competitorId w'
       = (Normal (Some snapshot), w').
Proof.
  intros Hkeys Hwrite. rewrite saveSnapshot_eq, Hwrite.
  eexists. split; [reflexivity|].
  rewrite loadPreviousSnapshot_eq. simpl files.
  rewrite lookup_insert_eq. split; [reflexivity|].
  simpl. by rewrite JSON_parse_stringify.
Qed.

(** ** The properties on concrete worlds *)

(** The tokens of [split(/\s+/)] on small strings, as a JavaScript
    engine gives them. *)
Lemma split_whitespace_examples :
  split_whitespace (lit "a b c d") = [lit "a"; lit "b"; lit "c"; lit "d"]
  /\ split_whitespace (lit " a  b ") = [[]; lit "a"; lit "b"; []]
  /\ split_whitespace ([9; 10; 160] ++ lit "x")%N = [[]; lit "x"]
  /\ split_whitespace (lit " ") = [[]; []]
  /\ split_whitespace [] = [[]].
Proof. repeat split. Qed.

(** The record for a word count going from 100 to 111. *)
Lemma compareMetrics_example :
  compareMetrics [(lit "wordCount", 111)] [(lit "wordCount", 100)]
  = [ {| type := type_metric;
         metric := Some (lit "wordCount");
         description := lit "wordCount changed from 100 to 111 (11.0% change)";
         severity := medium;
         change := Some (Finite (11 # 100)) |} ].
Proof. reflexivity. Qed.

(** The percentage is printed from the doubles: from 80 to 103 the
    quotient 0.2875 is the double just below it, its hundredfold the
    double 28.749999999999996, and the record says 28.7. *)
Lemma compareMetrics_example_rounded :
  map description
    (compareMetrics [(lit "linkCount", 103)] [(lit "linkCount", 80)])
  = [lit "linkCount changed from 80 to 103 (28.7% change)"].
Proof. vm_compute. reflexivity. Qed.

(** The digest of the executable runtime on a standard test vector. *)
Lemma sha256_hex_abc :
  Node.sha256_hex (lit "abc")
  = lit "ba7816bf8f01cfea414140de5dae2223b00361a396177a9cb410ff61f20015ad".
Proof. vm_compute. reflexivity. Qed.

(** A snapshot with quotes, control characters and surrogates in a
    string survives the JSON functions of the executable runtime. *)
Lemma JSON_roundtrip_escapes :
  let snapshot :=
    {| html := lit "<p>" ++ dquote ++ [92; 10; 1; 233; 55357; 56832; 55357]%N;
       title := lit "Home"; url := lit "https://example.com/";
       textContent := lit "a b c d";
       metrics := [(lit "wordCount", 4); (lit "linkCount", 12345)];
       timestamp := lit "2024-01-01T09:00:00.000Z";
       hash := Some (lit "9f2c") |} in
  Node.JSON_parse (Node.JSON_stringify snapshot) = Some snapshot.
Proof. vm_compute. reflexivity. Qed.

Lemma detectChanges_order_witness :
  detectChanges lowercase_home (Some home_snapshot)
  = Normal [title_record lowercase_home home_snapshot]
  /\ type (title_record lowercase_home home_snapshot) = type_title
  /\ severity (title_record lowercase_home home_snapshot) = high.
Proof.
  destruct (detectChanges_order lowercase_home home_snapshot)
    as (cs & ts & us & _ & _ & _ & _ & _ & _ & _ & _ & _ & Hty & Hsev & _ & _
        & _ & Hex).
  split; [|split; [exact Hty | exact Hsev]].
  apply Hex; reflexivity.
Defined.

(** C3, as stated: on an absent previous snapshot [detectChanges] does
    not return the empty list, it throws. *)
Lemma detectChanges_absent_not_empty :
  detectChanges home_snapshot None <> Normal [].
Proof. discriminate. Qed.

Lemma absent_previous_snapshot_witness :
  exists results w',
    run_monitorWebsite acme first_world = (Normal results, w')
    /\ res_changes results = []
    /\ res_errors results = []
    /\ res_metrics results = None.
Proof.
  eapply (proj2 (absent_previous_snapshot Node.sha256_hex Node.JSON_stringify
                   Node.JSON_parse Node.path_join Node.reports browser_fetch)
            acme first_world).
  - vm_compute. reflexivity.
  - vm_compute. reflexivity.
Defined.

Lemma saveSnapshot_then_loadPreviousSnapshot_witness :
  exists w',
    saveSnapshot Node.JSON_stringify Node.path_join Node.reports
      (lit "acme") home_snapshot first_world = (Normal tt, w')
    /\ loadPreviousSnapshot Node.JSON_parse Node.path_join Node.reports
         (lit "acme") w' = (Normal (Some home_snapshot), w').
Proof.
  destruct (saveSnapshot_then_loadPreviousSnapshot Node.path_join Node.reports
              (lit "acme") home_snapshot first_world)
    as (w' & Hsave & _ & Hload).
  - apply (bool_decide_unpack (NoDup _)). vm_compute. exact I.
  - vm_compute. reflexivity.
  - exists w'. split; [exact Hsave | exact Hload].
Defined.

Lemma compared_run_reports_content_witness :
  (exists results w',
     run_monitorWebsite acme
       (later (lit "2024-01-02T09:00:00.000Z") home_page after_first_run)
     = (Normal results, w')
     /\ res_changes results = [content_record])
  /\ (exists results w' current previous,
     run_monitorWebsite acme
       (later (lit "2024-01-03T09:00:00.000Z") retitled_page after_second_run)
     = (Normal results, w')
     /\ res_changes results = [content_record; title_record current previous]
     /\ title current = lit "Welcome" /\ title previous = lit "Home").
Proof.
  split.
  - edestruct (compared_run_reports_content Node.sha256_hex
                 Node.JSON_stringify Node.JSON_parse Node.path_join
                 Node.reports browser_fetch acme
                 (later (lit "2024-01-02T09:00:00.000Z") home_page
                    after_first_run))
      as (results & w' & Hrun & _ & Hsame & _).
    + vm_compute. reflexivity.
    + reflexivity.
    + vm_compute. reflexivity.
    + reflexivity.
    + exists results, w'. split; [exact Hrun|].
      apply Hsame; reflexivity.
  - edestruct (compared_run_reports_content Node.sha256_hex
                 Node.JSON_stringify Node.JSON_parse Node.path_join
                 Node.reports browser_fetch acme
                 (later (lit "2024-01-03T09:00:00.000Z") retitled_page
                    after_second_run))
      as (results & w' & Hrun & _ & _ & Htitle).
    + vm_compute. reflexivity.
    + reflexivity.
    + vm_compute. reflexivity.
    + reflexivity.
    + do 4 eexists. split; [exact Hrun|]. split.
      * apply Htitle; [discriminate | reflexivity | reflexivity].
      * split; reflexivity.
Defined.



(** ** The class's own fetcher *)

(** X2: as written, [getPageContent] never delivers a page: with a
    browser that launches, it logs the [ReferenceError] raised by
    [page.goto(url, ...)] and returns [null]. *)
Lemma getPageContent_null (target : jsstring) (w : World) :
  launch_error w = None ->
  getPageContent target w
  = (Normal None,
     add_log (FailedToGetPageContent target
                {| message := lit "Cannot access 'url' before initialization" |})
       w).
Proof.
  intros Hlaunch.
  unfold getPageContent, bind, try_catch, initBrowser, logger, ret.
  rewrite Hlaunch. reflexivity.
Qed.

Lemma getPageContent_null_witness :
  getPageContent (lit "https://example.com") first_world
  = (Normal None,
     add_log (FailedToGetPageContent (lit "https://example.com")
                {| message := lit "Cannot access 'url' before initialization" |})
       first_world).
Proof.
  apply (getPageContent_null (lit "https://example.com") first_world).
  reflexivity.
Defined.

(** X1: the monitor wired to its own [getPageContent] reports one error
    on every run, compares nothing and stores nothing. *)
Lemma WebsiteMonitor_monitorWebsite_fetch_failure
    (competitor : Competitor) (w : World) :
  exists results w',
    WebsiteMonitor_monitorWebsite competitor w = (Normal results, w')
    /\ res_changes results = []
    /\ length (res_errors results) = 1%nat
    /\ files w' = files w.
Proof.
  unfold WebsiteMonitor_monitorWebsite, monitorWebsite, bind, try_catch,
    logger, Date_toISOString, ret. cbv beta iota.
  unfold getPageContent, bind, try_catch, initBrowser, logger, ret.
  cbn [launch_error add_log].
  destruct (launch_error w); cbv beta iota; do 2 eexists;
    (split; [reflexivity|]); repeat split.
Qed.

(** * Further properties of the monitor *)

Section MonitorRuns.

Context (sha256_hex : jsstring -> jsstring)
        (JSON_stringify : Content -> jsstring)
        (JSON_parse : jsstring -> option Content)
        (path_join : jsstring -> jsstring -> jsstring)
        (reports : jsstring)
        (fetch : jsstring -> M (option Content)).

Local Abbreviation snapshotPath := (snapshotPath path_join reports).
Local Abbreviation loadPreviousSnapshot :=
  (loadPreviousSnapshot JSON_parse path_join reports).
Local Abbreviation saveSnapshot :=
  (saveSnapshot JSON_stringify path_join reports).
Local Abbreviation monitorWebsite :=
  (monitorWebsite sha256_hex JSON_stringify JSON_parse path_join reports fetch).
Local Abbreviation monitorEach :=
  (monitorEach sha256_hex JSON_stringify JSON_parse path_join reports fetch).
Local Abbreviation monitorAll :=
  (monitorAll sha256_hex JSON_stringify JSON_parse path_join reports fetch).
Local Abbreviation started competitor w :=
  (add_log (StartingWebsiteMonitoring (name competitor) (website competitor)) w).

(** The run when the fetcher returns [null]. *)
Lemma monitorWebsite_not_fetched (competitor : Competitor) (w w1 : World) :
  fetch (website competitor) (started competitor w) = (Normal None, w1) ->
  monitorWebsite competitor w
  = (Normal (empty_results competitor (now w)
               [lit "Failed to fetch page content"]), w1).
Proof.
  intros Hfetch.
  unfold monitorWebsite, bind, try_catch, logger, Date_toISOString, ret.
  cbv beta iota. by rewrite Hfetch.
Qed.

(** The run when the fetcher throws. *)
Lemma monitorWebsite_fetch_thrown (competitor : Competitor) (w w1 : World)
    (e : Error) :
  fetch (website competitor) (started competitor w) = (Throw e, w1) ->
  monitorWebsite competitor w
  = (Normal (empty_results competitor (now w1) [message e]),
     add_log (WebsiteMonitoringFailed (name competitor) e) w1).
Proof.
  intros Hfetch.
  unfold monitorWebsite, bind, try_catch, logger, Date_toISOString, ret.
  cbv beta iota. by rewrite Hfetch.
Qed.

Lemma compared_errors (competitor : Competitor) (stamp : jsstring)
    (content : Content) (previous : option Content) :
  res_errors (compared competitor stamp content previous) = []
  /\ res_competitor (compared competitor stamp content previous)
     = name competitor
  /\ res_website (compared competitor stamp content previous)
     = website competitor.
Proof. by destruct previous. Qed.

Lemma well_formed_results (competitors : list Competitor)
    (results : list Results) :
  Forall2 well_formed_result competitors results ->
  map res_competitor results = map name competitors
  /\ map res_website results = map website competitors
  /\ Forall (fun r => (length (res_errors r) <= 1)%nat) results.
Proof.
  induction 1 as [|c r cs rs (Hn & Hw & He & _) _ (IHn & IHw & IHe)]; simpl.
  - by repeat split.
  - rewrite Hn, Hw, IHn, IHw. repeat split. by constructor.
Qed.

Lemma monitorWebsite_well_formed (competitor : Competitor) (w : World) :
  exists results w',
    monitorWebsite competitor w = (Normal results, w')
    /\ well_formed_result competitor results.
Proof.
  destruct (fetch (website competitor) (started competitor w))
    as [[[content|]|e] w1] eqn:Hfetch.
  - rewrite (monitorWebsite_fetched _ _ _ _ _ _ competitor w w1 content Hfetch).
    cbv zeta. do 2 eexists. split; [reflexivity|].
    destruct (compared_errors competitor (now w) content
                (files w1 !! snapshotPath (id competitor) ≫= JSON_parse))
      as (He & Hn & Hw).
    unfold well_formed_result. rewrite He, Hn, Hw. simpl.
    repeat split; [lia | done | done].
  - rewrite (monitorWebsite_not_fetched competitor w w1 Hfetch).
    do 2 eexists. split; [reflexivity|]. repeat split. simpl. lia.
  - rewrite (monitorWebsite_fetch_thrown competitor w w1 e Hfetch).
    do 2 eexists. split; [reflexivity|]. repeat split. simpl. lia.
Qed.

(** X3: whatever the fetcher does (deliver, return [null], throw) and
    whatever the store holds, [monitorWebsite] returns a result object
    for the competitor it was given: it carries the competitor's name
    and website, at most one error, and when it carries an error it
    carries no change and no metrics. *)
Theorem monitorWebsite_result_shape (competitor : Competitor) (w : World) :
  exists results w',
    monitorWebsite competitor w = (Normal results, w')
    /\ res_competitor results = name competitor
    /\ res_website results = website competitor
    /\ (length (res_errors results) <= 1)%nat
    /\ (res_errors results <> [] ->
        res_changes results = [] /\ res_metrics results = None).
Proof. apply monitorWebsite_well_formed. Qed.

Lemma monitorEach_in_order (competitors : list Competitor)
    (acc : list Results) (w : World) :
  exists results w',
    monitorEach competitors acc w = (Normal (acc ++ results), w')
    /\ Forall2 well_formed_result
         (List.filter monitoring_website competitors) results.
Proof.
  revert acc w. induction competitors as [|c cs IH]; intros acc w; simpl.
  - exists [], w. rewrite app_nil_r. by split.
  - destruct (monitoring_website c); simpl.
    + unfold bind.
      destruct (monitorWebsite_well_formed c w) as (r & w1 & -> & Hr).
      destruct (IH (acc ++ [r]) w1) as (results & w' & -> & Hall).
      exists (r :: results), w'. rewrite <- app_assoc. simpl.
      split; [reflexivity|]. by constructor.
    + apply IH.
Qed.

(** X4: [monitorAll] returns exactly one result for each competitor
    whose [monitoring.website] is truthy, in the order of the
    competitors; competitors without it are passed over; each result is
    the one of its competitor (name and website), whatever happened to
    the competitors before it. *)
Theorem monitorAll_one_result_each_in_order
    (competitors : list Competitor) (w : World) :
  exists results w',
    monitorAll competitors w = (Normal results, w')
    /\ map res_competitor results
       = map name (List.filter monitoring_website competitors)
    /\ map res_website results
       = map website (List.filter monitoring_website competitors)
    /\ Forall (fun r => (length (res_errors r) <= 1)%nat) results.
Proof.
  unfold monitorAll, bind, logger, ret. cbv beta iota.
  destruct (monitorEach_in_order competitors []
              (add_log (StartingAll (length competitors)) w))
    as (results & w' & Hrun & Hall).
  simpl in Hrun. rewrite Hrun. exists results. eexists.
  split; [reflexivity|]. by apply well_formed_results.
Qed.

(** X5: a failed fetch leaves the store alone.  When the fetcher returns
    [null] the run ends at once with the single error "Failed to fetch
    page content"; when it throws, the run logs the failure and returns
    the thrown message as its single error.  Either way nothing is
    compared, no snapshot is read or written and the files are those
    the fetcher left. *)
Theorem fetch_failure_keeps_snapshots (competitor : Competitor)
    (w w1 : World) :
  (fetch (website competitor) (started competitor w) = (Normal None, w1) ->
   exists results,
     monitorWebsite competitor w = (Normal results, w1)
     /\ res_errors results = [lit "Failed to fetch page content"]
     /\ res_changes results = [] /\ res_metrics results = None)
  /\ (forall e,
        fetch (website competitor) (started competitor w) = (Throw e, w1) ->
        exists results w',
          monitorWebsite competitor w = (Normal results, w')
          /\ res_errors results = [message e]
          /\ res_changes results = [] /\ res_metrics results = None
          /\ files w' = files w1
          /\ log w' = log w1 ++ [WebsiteMonitoringFailed (name competitor) e]).
Proof.
  split.
  - intros Hfetch. rewrite (monitorWebsite_not_fetched competitor w w1 Hfetch).
    eexists. by repeat split.
  - intros e Hfetch.
    rewrite (monitorWebsite_fetch_thrown competitor w w1 e Hfetch).
    do 2 eexists. by repeat split.
Qed.

(** What a run leaves in the store, given that the snapshot survives
    the JSON functions. *)
Lemma monitorWebsite_stores (competitor : Competitor) (w w1 : World)
    (content : Content) :
  let snapshot := snapshot_of content (sha256_hex (html content)) (now w1) in
  fetch (website competitor) (started competitor w)
  = (Normal (Some content), w1) ->
  write_errors w1 !! snapshotPath (id competitor) = None ->
  JSON_parse (JSON_stringify snapshot) = Some snapshot ->
  exists results w',
    monitorWebsite competitor w = (Normal results, w')
    /\ files w' !! snapshotPath (id competitor)
       = Some (JSON_stringify snapshot)
    /\ loadPreviousSnapshot (id competitor) w' = (Normal (Some snapshot), w')
    /\ (forall path, path <> snapshotPath (id competitor) ->
        files w' !! path = files w1 !! path).
Proof.
  intros snapshot Hfetch Hwrite Hjson.
  rewrite (monitorWebsite_fetched _ _ _ _ _ _ competitor w w1 content Hfetch).
  cbv zeta. rewrite saveSnapshot_eq, Hwrite. do 2 eexists.
  split; [reflexivity|]. rewrite loadPreviousSnapshot_eq. simpl.
  rewrite lookup_insert_eq. simpl. unfold generateHash. fold snapshot.
  rewrite Hjson. split; [reflexivity|]. split; [reflexivity|].
  intros path Hne. by rewrite lookup_insert_ne.
Qed.

(** The run that finds the snapshot of [first] in the store. *)
Lemma monitorWebsite_compares (competitor : Competitor) (v v1 : World)
    (first second : Content) (digest stamp data : jsstring) :
  let snapshot := snapshot_of first digest stamp in
  fetch (website competitor) (started competitor v)
  = (Normal (Some second), v1) ->
  files v1 !! snapshotPath (id competitor) = Some data ->
  JSON_parse data = Some snapshot ->
  hash second = None ->
  exists results v',
    monitorWebsite competitor v = (Normal results, v')
    /\ res_changes results
       = [content_record]
         ++ (if bool_decide (title second = title first) then []
             else [title_record second first])
         ++ (if bool_decide (url second = url first) then []
             else [url_record second first])
         ++ compareMetrics (metrics second) (metrics first)
    /\ res_errors results = []
    /\ res_metrics results
       = Some {| currentMetrics := metrics second;
                 previousMetrics := metrics first;
                 changeRate := calculateChangeRate second first |}.
Proof.
  intros snapshot Hsecond Hfile Hjson Hhash.
  rewrite (monitorWebsite_fetched _ _ _ _ _ _ competitor v v1 second Hsecond).
  cbv zeta. rewrite Hfile. simpl. rewrite Hjson. do 2 eexists.
  split; [reflexivity|]. unfold compared. cbn [res_changes res_errors res_metrics].
  rewrite (bool_decide_eq_true_2 (hash second ≠ hash snapshot))
    by (rewrite Hhash; discriminate).
  split; [|by split].
  subst snapshot. cbn [title url snapshot_of].
  repeat case_bool_decide; done.
Qed.

End MonitorRuns.

(** ** Runs on the store *)

(** X6: a run whose fetch delivers content, that finds in the store
    nothing or a snapshot, and whose write is accepted, leaves under the
    competitor's path the fetched content with the digest of its html
    and the time of saving, in place of the snapshot that was there
    (also when changes were found, and also on the first run);
    [loadPreviousSnapshot] reads it back, and no other file is touched
    after the fetch. *)
Theorem run_stores_fetched_content
    (sha256_hex : jsstring -> jsstring)
    (path_join : jsstring -> jsstring -> jsstring) (reports : jsstring)
    (fetch : jsstring -> M (option Content))
    (competitor : Competitor) (w w1 : World) (content : Content) :
  let path := snapshotPath path_join reports (id competitor) in
  let snapshot := snapshot_of content (sha256_hex (html content)) (now w1) in
  fetch (website competitor)
    (add_log (StartingWebsiteMonitoring (name competitor) (website competitor))
       w)
  = (Normal (Some content), w1) ->
  snapshot_or_nothing Node.JSON_parse (files w1 !! path) ->
  NoDup (Object_keys (metrics content)) ->
  write_errors w1 !! path = None ->
  exists results w',
    monitorWebsite sha256_hex Node.JSON_stringify Node.JSON_parse path_join
      reports fetch competitor w
    = (Normal results, w')
    /\ files w' !! path = Some (Node.JSON_stringify snapshot)
    /\ loadPreviousSnapshot Node.JSON_parse path_join reports (id competitor) w'
       = (Normal (Some snapshot), w')
    /\ (forall other, other <> path -> files w' !! other = files w1 !! other)
    /\ html snapshot = html content /\ title snapshot = title content
    /\ url snapshot = url content
    /\ textContent snapshot = textContent content
    /\ metrics snapshot = metrics content
    /\ hash snapshot = Some (sha256_hex (html content)).
Proof.
  intros path snapshot Hfetch _ Hkeys Hwrite.
  destruct (monitorWebsite_stores sha256_hex Node.JSON_stringify
              Node.JSON_parse path_join reports fetch competitor w w1 content
              Hfetch Hwrite (JSON_parse_stringify snapshot Hkeys))
    as (results & w' & Hrun & Hfile & Hload & Hothers).
  exists results, w'. split; [exact Hrun|]. split; [exact Hfile|].
  split; [exact Hload|]. split; [exact Hothers|]. by repeat split.
Qed.

(** X7: the second of two runs compares what it fetches with what the
    first run fetched.  The first run finds in the store nothing or a
    snapshot and its write is accepted, so it stores its snapshot; if
    the file is still the same when the second run has fetched, the
    changes of the second run are the content record followed by the
    title, url and metric differences between the second and the first
    fetched content, and its metrics object pairs the two metrics
    objects with the change rate of the two texts. *)
Theorem second_run_compares_with_first
    (sha256_hex : jsstring -> jsstring)
    (path_join : jsstring -> jsstring -> jsstring) (reports : jsstring)
    (fetch : jsstring -> M (option Content))
    (competitor : Competitor) (w w1 v v1 : World) (first second : Content) :
  let path := snapshotPath path_join reports (id competitor) in
  let run :=
    monitorWebsite sha256_hex Node.JSON_stringify Node.JSON_parse path_join
      reports fetch competitor in
  fetch (website competitor)
    (add_log (StartingWebsiteMonitoring (name competitor) (website competitor))
       w)
  = (Normal (Some first), w1) ->
  snapshot_or_nothing Node.JSON_parse (files w1 !! path) ->
  NoDup (Object_keys (metrics first)) ->
  write_errors w1 !! path = None ->
  fetch (website competitor)
    (add_log (StartingWebsiteMonitoring (name competitor) (website competitor))
       v)
  = (Normal (Some second), v1) ->
  files v1 !! path = files (snd (run w)) !! path ->
  hash second = None ->
  exists results v',
    run v = (Normal results, v')
    /\ res_changes results
       = [content_record]
         ++ (if bool_decide (title second = title first) then []
             else [title_record second first])
         ++ (if bool_decide (url second = url first) then []
             else [url_record second first])
         ++ compareMetrics (metrics second) (metrics first)
    /\ res_errors results = []
    /\ res_metrics results
       = Some {| currentMetrics := metrics second;
                 previousMetrics := metrics first;
                 changeRate := calculateChangeRate second first |}.
Proof.
  intros path run Hfirst _ Hkeys Hwrite Hsecond Hfile Hhash.
  subst path run.
  pose proof (JSON_parse_stringify
                (snapshot_of first (sha256_hex (html first)) (now w1)) Hkeys)
    as Hjson.
  destruct (monitorWebsite_stores sha256_hex Node.JSON_stringify
              Node.JSON_parse path_join reports fetch competitor w w1 first
              Hfirst Hwrite Hjson)
    as (results1 & w' & Hrun1 & Hstored & _ & _).
  rewrite Hrun1 in Hfile. cbn [snd] in Hfile.
  rewrite Hstored in Hfile.
  exact (monitorWebsite_compares sha256_hex Node.JSON_stringify
           Node.JSON_parse path_join reports fetch competitor v v1 first second
           _ _ _ Hsecond Hfile Hjson Hhash).
Qed.

(** ** The comparison functions, continued *)

Lemma compareMetrics_sublist (current previous : Metrics)
    (keys : list jsstring) :
  map metric (flat_map (compareMetric current previous) keys)
    `sublist_of` map Some keys.
Proof.
  induction keys as [|k keys IH]; simpl; [constructor|].
  rewrite map_app.
  destruct (compareMetric_shape current previous k)
    as [->|(r & -> & Hm & _)]; simpl.
  - by apply sublist_cons.
  - rewrite Hm. by apply sublist_skip.
Qed.

(** X8: [compareMetrics] walks the keys of the current metrics object
    in their enumeration order and pushes at most one record per key:
    the metric names of its output are a subsequence of the current
    keys.  So there are never more metric records than current keys,
    and [detectChanges] returns at most three records more than that. *)
Theorem compareMetrics_follows_current_keys (current previous : Metrics) :
  map metric (compareMetrics current previous)
    `sublist_of` map Some (Object_keys current)
  /\ (length (compareMetrics current previous) <= length current)%nat
  /\ (forall c p : Content,
        metrics c = current -> metrics p = previous ->
        exists changes,
          detectChanges c (Some p) = Normal changes
          /\ (length changes <= 3 + length current)%nat).
Proof.
  pose proof (compareMetrics_sublist current previous (Object_keys current))
    as Hsub.
  fold (compareMetrics current previous) in Hsub.
  assert (Hlen : (length (compareMetrics current previous) <= length current)%nat).
  { apply sublist_length in Hsub.
    unfold Object_keys in Hsub. by rewrite !length_map in Hsub. }
  split; [exact Hsub|]. split; [exact Hlen|].
  intros c p <- <-. eexists. split; [reflexivity|].
  rewrite !length_app.
  destruct (bool_decide (hash c ≠ hash p));
    destruct (bool_decide (title c ≠ title p));
    destruct (bool_decide (url c ≠ url p)); simpl; lia.
Qed.

Lemma compareMetrics_follows_current_keys_witness :
  exists changes,
    detectChanges lowercase_home (Some home_snapshot) = Normal changes
    /\ (length changes <= 3 + length (metrics lowercase_home))%nat.
Proof.
  apply (proj2 (proj2 (compareMetrics_follows_current_keys
                         (metrics lowercase_home) (metrics home_snapshot))));
    reflexivity.
Defined.

Lemma filter_all_length {A} (f : A -> bool) (l : list A) :
  length (List.filter f l) = length l <-> forall x, In x l -> f x = true.
Proof.
  induction l as [|a l IH]; simpl; [tauto|].
  pose proof (filter_length_le f l) as Hle.
  destruct (f a) eqn:Ha; simpl.
  - split.
    + intros Hlen x [<-|Hx]; [exact Ha|]. apply IH; [lia | exact Hx].
    + intros Hall. f_equal. apply IH. auto.
  - split; [lia|]. intros Hall. rewrite (Hall a) in Ha by auto. discriminate.
Qed.

Lemma filter_nil_iff {A} (f : A -> bool) (l : list A) :
  List.filter f l = [] <-> forall x, In x l -> f x = false.
Proof.
  split; [|apply filter_none].
  induction l as [|a l IH]; simpl; [tauto|].
  destruct (f a) eqn:Ha; [discriminate|].
  intros Hnil x [<-|Hx]; [exact Ha | by apply IH].
Qed.

(** X9: the change rate is 1 exactly when no word of the current text
    occurs in the previous text, and 0 exactly when every word of the
    current text occurs in the previous text and the previous text has
    no more words than the current one.  So a rate of 0 does not mean
    that the texts are the same: "a a" against "a b" has rate 0. *)
Theorem calculateChangeRate_extremes (current previous : Content) :
  let cw := split_whitespace (textContent current) in
  let pw := split_whitespace (textContent previous) in
  exists q : Q,
    calculateChangeRate current previous = Finite q
    /\ ((q == 1)%Q <-> forall word, In word cw -> ~ In word pw)
    /\ ((q == 0)%Q <->
        (forall word, In word cw -> In word pw)
        /\ (length pw <= length cw)%nat)
    /\ calculateChangeRate (text_only (lit "a a")) (text_only (lit "a b"))
       = Finite (0 # 2).
Proof.
  intros cw pw.
  destruct (calculateChangeRate_rounded current previous)
    as (q & r & _ & _ & Hrate & Hq01 & Hqerr & Hr01 & Hrerr & Hnone & Hall).
  exists r. split; [exact Hrate|].
  pose proof (most_words_pos current previous) as Hm.
  pose proof (most_words_bound current previous) as Hm32.
  pose proof (shared_words_bound current previous) as Hk.
  set (k := Z.of_nat (length (shared_words current previous))) in *.
  set (m := most_words current previous) in *.
  assert (Hmpos : (0 < inject_Z m)%Q).
  { change (inject_Z 0 < inject_Z m)%Q. rewrite <- Zlt_Qlt. lia. }
  assert (Hmle : (inject_Z m <= 4294967296)%Q).
  { change (inject_Z m <= inject_Z 4294967296)%Q. rewrite <- Zle_Qle. lia. }
  apply Qabs_Qle_condition in Hqerr, Hrerr.
  change (pow2 (-54)) with (1 # 18014398509481984)%Q in Hqerr, Hrerr.
  assert (Hone : ((r == 1)%Q <-> k = 0)).
  { split; [|exact Hnone]. intros Hr1.
    destruct (Z.eq_dec k 0) as [|Hne]; [assumption|]. exfalso.
    assert (Hlow : (1 # 4294967296 <= inject_Z k / inject_Z m)%Q).
    { apply Qle_shift_div_l; [exact Hmpos|].
      assert (Hk1 : (1 <= inject_Z k)%Q).
      { change (inject_Z 1 <= inject_Z k)%Q. rewrite <- Zle_Qle. lia. }
      lra. }
    lra. }
  assert (Hzero : ((r == 0)%Q <-> k = m)).
  { split; [|exact Hall]. intros Hr0.
    destruct (Z.eq_dec k m) as [|Hne]; [assumption|]. exfalso.
    assert (Hhigh : (inject_Z k / inject_Z m <= 1 - (1 # 4294967296))%Q).
    { apply Qle_shift_div_r; [exact Hmpos|].
      assert (Hk1 : (inject_Z k + 1 <= inject_Z m)%Q).
      { change 1%Q with (inject_Z 1). rewrite <- inject_Z_plus.
        rewrite <- Zle_Qle. lia. }
      lra. }
    lra. }
  split; [|split; [|vm_compute; reflexivity]].
  - rewrite Hone. subst k. unfold shared_words. fold cw pw.
    rewrite <- Nat2Z.inj_0, Nat2Z.inj_iff, length_zero_iff_nil, filter_nil_iff.
    split.
    + intros Hall' word Hc Hp. specialize (Hall' word Hc).
      apply bool_decide_eq_false in Hall'. apply Hall'. by apply list_elem_of_In.
    + intros Hall' word Hc. apply bool_decide_eq_false.
      rewrite list_elem_of_In. by apply Hall'.
  - rewrite Hzero. subst k m. unfold shared_words, most_words. fold cw pw.
    pose proof (filter_length_le (fun word => bool_decide (word ∈ pw)) cw) as Hle.
    split.
    + intros Heq.
      assert (Hlen : length (List.filter (fun word => bool_decide (word ∈ pw)) cw)
                     = length cw) by lia.
      split; [|lia]. intros word Hc.
      apply (proj1 (filter_all_length _ _) Hlen) in Hc.
      apply bool_decide_eq_true in Hc. by apply list_elem_of_In.
    + intros [Hall' Hlen].
      assert (Hfull : length (List.filter (fun word => bool_decide (word ∈ pw)) cw)
                      = length cw).
      { apply filter_all_length. intros word Hc. apply bool_decide_eq_true.
        apply list_elem_of_In. by apply Hall'. }
      lia.
Qed.
Lemma run_stores_fetched_content_witness :
  exists results w' snapshot,
    run_monitorWebsite acme first_world = (Normal results, w')
    /\ loadPreviousSnapshot Node.JSON_parse Node.path_join Node.reports
         (id acme) w'
       = (Normal (Some snapshot), w')
    /\ html snapshot = home_html
    /\ hash snapshot = Some (Node.sha256_hex home_html).
Proof.
  edestruct (run_stores_fetched_content Node.sha256_hex Node.path_join
               Node.reports browser_fetch acme first_world)
    as (results & w' & Hrun & _ & Hload & _ & Hhtml & _ & _ & _ & _ & Hhash).
  - vm_compute. reflexivity.
  - vm_compute. exact I.
  - apply (bool_decide_unpack (NoDup _)). vm_compute. exact I.
  - reflexivity.
  - exists results, w'. eexists. split; [exact Hrun|].
    split; [exact Hload|]. split; [exact Hhtml|exact Hhash].
Defined.

Lemma second_run_compares_with_first_witness :
  exists results v',
    run_monitorWebsite acme
      (later (lit "2024-01-02T09:00:00.000Z") retitled_page after_first_run)
    = (Normal results, v')
    /\ length (res_changes results) = 2%nat
    /\ res_errors results = [].
Proof.
  edestruct second_run_compares_with_first
    with (sha256_hex := Node.sha256_hex) (path_join := Node.path_join)
         (reports := Node.reports) (fetch := browser_fetch)
         (competitor := acme) (w := first_world)
         (v := later (lit "2024-01-02T09:00:00.000Z") retitled_page
                 after_first_run)
    as (results & v' & Hrun & Hchanges & Herrors & _).
  - vm_compute. reflexivity.
  - vm_compute. exact I.
  - apply (bool_decide_unpack (NoDup _)). vm_compute. exact I.
  - reflexivity.
  - vm_compute. reflexivity.
  - vm_compute. reflexivity.
  - reflexivity.
  - exists results, v'. split; [exact Hrun|]. split; [|exact Herrors].
    rewrite Hchanges. vm_compute. reflexivity.
Defined.

(** * Properties of the report generator *)

Lemma fold_process_result (results : list Results) (p : ProcessedData) :
  competitors (fold_left process_result results p)
  = competitors p ++ map summary_of results
  /\ websiteChanges (fold_left process_result results p)
     = websiteChanges p ++ map changes_of (List.filter has_changes results)
  /\ priceChanges (fold_left process_result results p) = priceChanges p
  /\ seoMetrics (fold_left process_result results p) = seoMetrics p.
Proof.
  revert p. induction results as [|r rs IH]; intros p; simpl.
  - by rewrite !app_nil_r.
  - destruct (IH (process_result p r)) as (Hc & Hw & Hp & Hs).
    rewrite Hc, Hw, Hp, Hs. simpl. unfold has_changes.
    destruct (0 <? length (res_changes r))%nat; simpl;
      rewrite <- ?app_assoc; by repeat split.
Qed.

Lemma processData_competitors (data : MonitoringData) :
  competitors (processData data) = map summary_of (monitored data)
  /\ websiteChanges (processData data)
     = map changes_of (List.filter has_changes (monitored data)).
Proof.
  unfold processData, monitored. simpl.
  destruct (websiteMonitoring data) as [results|]; simpl; [|done].
  destruct (fold_process_result results
              {| competitors := []; websiteChanges := []; priceChanges := [];
                 seoMetrics := []; summary := None |}) as (Hc & Hw & _).
  by rewrite Hc, Hw.
Qed.

Lemma fold_sum_changes (items : list WebsiteChanges) (start : nat) :
  fold_left (fun sum item => (sum + length (wc_changes item))%nat) items start
  = (start + list_sum (map (fun item => length (wc_changes item)) items))%nat.
Proof.
  revert start. induction items as [|item items IH]; intros start; simpl.
  - lia.
  - rewrite IH. lia.
Qed.

Lemma sum_changes_eq (items : list WebsiteChanges) :
  sum_changes items = list_sum (map (fun item => length (wc_changes item)) items).
Proof. unfold sum_changes. by rewrite fold_sum_changes. Qed.

(** Results without changes add nothing to the total. *)
Lemma sum_changes_filter (results : list Results) :
  sum_changes (map changes_of (List.filter has_changes results))
  = total_changes results.
Proof.
  rewrite sum_changes_eq. unfold total_changes.
  induction results as [|r rs IH]; simpl; [reflexivity|].
  unfold has_changes at 1. destruct (Nat.ltb_spec 0 (length (res_changes r))).
  - simpl. by rewrite IH.
  - rewrite IH. lia.
Qed.

Lemma active_filter (results : list Results) :
  length (List.filter (fun c => (0 <? cs_changes c)%nat)
            (map summary_of results))
  = length (List.filter has_changes results).
Proof.
  induction results as [|r rs IH]; simpl; [reflexivity|].
  unfold has_changes at 1.
  destruct (0 <? length (res_changes r))%nat; simpl; by rewrite IH.
Qed.

Lemma total_changes_ge_active (results : list Results) :
  (length (List.filter has_changes results) <= total_changes results)%nat.
Proof.
  unfold total_changes. induction results as [|r rs IH]; simpl; [lia|].
  unfold has_changes at 1. destruct (Nat.ltb_spec 0 (length (res_changes r)));
    simpl; lia.
Qed.

(** X10: the summary statistics of [processData].  The number of
    competitors is the number of results; the number of website changes
    is the number of change records over all results; the number of
    active competitors is the number of results with at least one
    change, which is also the number of entries of [websiteChanges].
    Hence active competitors never exceed the competitors nor the
    changes, and there are no active competitors exactly when there is
    no change.  Without a [websiteMonitoring] property all are 0. *)
Theorem processData_summary (data : MonitoringData) :
  exists stats,
    summary (processData data) = Some stats
    /\ totalCompetitors stats = length (monitored data)
    /\ totalWebsiteChanges stats = total_changes (monitored data)
    /\ activeCompetitors stats
       = length (List.filter has_changes (monitored data))
    /\ activeCompetitors stats = length (websiteChanges (processData data))
    /\ (activeCompetitors stats <= totalCompetitors stats)%nat
    /\ (activeCompetitors stats <= totalWebsiteChanges stats)%nat
    /\ (activeCompetitors stats = 0%nat <-> totalWebsiteChanges stats = 0%nat)
    /\ (websiteMonitoring data = None ->
        stats = {| totalCompetitors := 0; totalWebsiteChanges := 0;
                   activeCompetitors := 0 |}).
Proof.
  destruct (processData_competitors data) as (Hc & Hw).
  eexists. split; [reflexivity|].
  assert (Hnone : websiteMonitoring data = None ->
                  generateSummaryStats
                    {| competitors := competitors (processData data);
                       websiteChanges := websiteChanges (processData data);
                       priceChanges := priceChanges (processData data);
                       seoMetrics := seoMetrics (processData data);
                       summary := None |}
                  = {| totalCompetitors := 0; totalWebsiteChanges := 0;
                       activeCompetitors := 0 |}).
  { intros Hn. unfold processData. by rewrite Hn. }
  change (totalCompetitors _) with (length (competitors (processData data))).
  change (totalWebsiteChanges _)
    with (sum_changes (websiteChanges (processData data))).
  change (activeCompetitors _)
    with (length (List.filter (fun c => (0 <? cs_changes c)%nat)
                    (competitors (processData data)))).
  rewrite Hc, Hw, sum_changes_filter, active_filter, !length_map.
  pose proof (filter_length_le has_changes (monitored data)) as Hle.
  pose proof (total_changes_ge_active (monitored data)) as Hge.
  split; [reflexivity|]. split; [reflexivity|]. split; [reflexivity|].
  split; [reflexivity|]. split; [exact Hle|]. split; [exact Hge|].
  split; [|exact Hnone].
  split; [|lia].
  intros H0. apply length_zero_iff_nil in H0.
  unfold total_changes. clear Hle Hge Hc Hw Hnone.
  induction (monitored data) as [|r rs IH]; simpl in *; [reflexivity|].
  unfold has_changes in H0 at 1.
  destruct (Nat.ltb_spec 0 (length (res_changes r))); [discriminate|].
  rewrite IH by exact H0. lia.
Qed.

(** X11: the counts of changes agree.  [countTotalChanges] (the
    report's [metadata.totalChanges]), [generateSummary]
    ([summary.websiteChanges]) and [generateSummaryStats]
    ([detailedData.summary.totalWebsiteChanges]) all give the number of
    change records over all results handed in, results without changes
    included in the count of competitors only. *)
Theorem change_counts_agree (data : MonitoringData) :
  countTotalChanges (processData data) = total_changes (monitored data)
  /\ summary_websiteChanges (generateSummary (processData data))
     = total_changes (monitored data)
  /\ (totalWebsiteChanges <$> summary (processData data))
     = Some (total_changes (monitored data))
  /\ summary_totalCompetitors (generateSummary (processData data))
     = length (monitored data)
  /\ summary_totalEngagement (generateSummary (processData data)) = 0%nat.
Proof.
  destruct (processData_competitors data) as (Hc & Hw).
  assert (Hcount : countTotalChanges (processData data)
                   = total_changes (monitored data)).
  { unfold countTotalChanges. by rewrite Hw, sum_changes_filter. }
  split; [exact Hcount|]. split; [exact Hcount|]. split.
  - change (totalWebsiteChanges <$> summary (processData data))
      with (Some (sum_changes (websiteChanges (processData data)))).
    by rewrite Hw, sum_changes_filter.
  - split; [|reflexivity].
    change (summary_totalCompetitors _)
      with (length (competitors (processData data))).
    by rewrite Hc, length_map.
Qed.

(** ** Sorting by activity *)

Lemma place_perm (x : TopCompetitor) (l : list TopCompetitor) :
  place x l ≡ₚ x :: l.
Proof.
  induction l as [|y l IH]; simpl; [reflexivity|].
  destruct (totalActivity x <? totalActivity y)%nat; [|reflexivity].
  rewrite IH. apply Permutation_swap.
Qed.

Lemma sort_by_activity_perm (l : list TopCompetitor) :
  sort_by_activity l ≡ₚ l.
Proof.
  induction l as [|x l IH]; simpl; [reflexivity|].
  rewrite place_perm. by rewrite IH.
Qed.

Lemma place_sorted (x : TopCompetitor) (l : list TopCompetitor) :
  StronglySorted at_least_as_active l ->
  StronglySorted at_least_as_active (place x l).
Proof.
  induction 1 as [|y l Hs IH Hall]; simpl.
  - repeat constructor.
  - destruct (Nat.ltb_spec (totalActivity x) (totalActivity y)) as [Hlt|Hge].
    + constructor; [exact IH|].
      rewrite place_perm. constructor; [|exact Hall].
      unfold at_least_as_active. lia.
    + constructor; [by constructor|].
      constructor; [exact Hge|].
      eapply Forall_impl; [exact Hall|].
      unfold at_least_as_active. intros z Hz. lia.
Qed.

Lemma sort_by_activity_sorted (l : list TopCompetitor) :
  StronglySorted at_least_as_active (sort_by_activity l).
Proof.
  induction l as [|x l IH]; simpl; [constructor|]. by apply place_sorted.
Qed.

Lemma place_stable (k : nat) (x : TopCompetitor) (l : list TopCompetitor) :
  with_activity k (place x l) = with_activity k (x :: l).
Proof.
  unfold with_activity.
  induction l as [|y l IH]; simpl; [reflexivity|].
  destruct (Nat.ltb_spec (totalActivity x) (totalActivity y)) as [Hlt|Hge];
    [|reflexivity].
  simpl. rewrite IH. simpl.
  destruct (Nat.eqb_spec (totalActivity x) k) as [Hx|Hx];
    destruct (Nat.eqb_spec (totalActivity y) k) as [Hy|Hy];
    try reflexivity.
  lia.
Qed.

Lemma sort_by_activity_stable (k : nat) (l : list TopCompetitor) :
  with_activity k (sort_by_activity l) = with_activity k l.
Proof.
  induction l as [|x l IH]; simpl; [reflexivity|].
  rewrite place_stable. unfold with_activity in *. simpl. by rewrite IH.
Qed.

Lemma sort_by_activity_nil (l : list TopCompetitor) :
  sort_by_activity l = [] <-> l = [].
Proof.
  split; [|by intros ->].
  intros Hnil. apply Permutation_nil. by rewrite <- Hnil, sort_by_activity_perm.
Qed.

Lemma identifyTopCompetitors_head (p : ProcessedData) (top : TopCompetitor)
    (rest : list TopCompetitor) :
  identifyTopCompetitors p = top :: rest ->
  (exists comp, In comp (competitors p) /\ top = top_of comp)
  /\ forall comp, In comp (competitors p) ->
       (cs_changes comp <= totalActivity top)%nat.
Proof.
  intros Hsort.
  pose proof (sort_by_activity_perm (map top_of (competitors p))) as Hperm.
  pose proof (sort_by_activity_sorted (map top_of (competitors p))) as Hsorted.
  unfold identifyTopCompetitors in Hsort.
  change (map _ (competitors p)) with (map top_of (competitors p)) in Hsort.
  rewrite Hsort in Hperm, Hsorted. split.
  - assert (Hin : In top (map top_of (competitors p))).
    { apply list_elem_of_In. rewrite <- Hperm. by left. }
    apply in_map_iff in Hin as (comp & <- & Hcomp). eauto.
  - intros comp Hcomp.
    assert (Hin : top_of comp ∈ top :: rest).
    { rewrite Hperm. apply list_elem_of_In. by apply in_map. }
    apply StronglySorted_inv in Hsorted as [_ Hall].
    apply elem_of_cons in Hin as [Heq|Hin].
    + rewrite <- Heq. simpl. lia.
    + rewrite Forall_forall in Hall. exact (Hall _ Hin).
Qed.

(** X12: [identifyTopCompetitors] returns the competitors of the
    processed data, each with its number of changes as activity,
    rearranged by decreasing activity; competitors of equal activity
    keep the order in which they were monitored. *)
Theorem identifyTopCompetitors_sorted (p : ProcessedData) :
  identifyTopCompetitors p ≡ₚ map top_of (competitors p)
  /\ StronglySorted at_least_as_active (identifyTopCompetitors p)
  /\ (forall k, with_activity k (identifyTopCompetitors p)
                = with_activity k (map top_of (competitors p)))
  /\ length (identifyTopCompetitors p) = length (competitors p).
Proof.
  unfold identifyTopCompetitors.
  change (map _ (competitors p)) with (map top_of (competitors p)).
  pose proof (sort_by_activity_perm (map top_of (competitors p))) as Hperm.
  split; [exact Hperm|]. split; [apply sort_by_activity_sorted|].
  split; [intros k; apply sort_by_activity_stable|].
  by rewrite Hperm, length_map.
Qed.

(** ** Insights and recommendations *)

Lemma generateInsights_eq (p : ProcessedData) :
  generateInsights p
  = (if (0 <? length (websiteChanges p))%nat then [website_insight p] else [])
    ++ match identifyTopCompetitors p with
       | top :: _ => [competitive_insight p top]
       | [] => []
       end.
Proof. reflexivity. Qed.

Lemma identifyTopCompetitors_nil (p : ProcessedData) :
  identifyTopCompetitors p = [] <-> competitors p = [].
Proof.
  unfold identifyTopCompetitors. rewrite sort_by_activity_nil.
  split; [apply map_eq_nil | by intros ->].
Qed.

(** X13: [generateInsights] returns at most two insights.  The website
    insight comes first and is there exactly when some competitor has
    changes; it is of high severity exactly when the changes number more
    than five, and lists the competitors with changes.  The competitive
    insight comes last and is there exactly when at least one competitor
    was monitored; it names a competitor that has the most changes, and
    lists the three most active competitors (fewer if there are
    fewer). *)
Theorem generateInsights_cases (p : ProcessedData) :
  exists website competitive : list Insight,
    generateInsights p = website ++ competitive
    /\ (websiteChanges p = [] -> website = [])
    /\ (websiteChanges p <> [] ->
        website = [website_insight p]
        /\ (insight_severity (website_insight p) = high
            <-> (5 < sum_changes (websiteChanges p))%nat))
    /\ (competitors p = [] -> competitive = [])
    /\ (competitors p <> [] ->
        exists top comp,
          competitive = [competitive_insight p top]
          /\ In comp (competitors p) /\ top = top_of comp
          /\ (forall other, In other (competitors p) ->
                (cs_changes other <= cs_changes comp)%nat)
          /\ head (firstn 3 (identifyTopCompetitors p)) = Some top
          /\ length (firstn 3 (identifyTopCompetitors p))
             = Nat.min 3 (length (competitors p)))
    /\ (length (generateInsights p) <= 2)%nat.
Proof.
  rewrite generateInsights_eq. do 2 eexists. split; [reflexivity|].
  split; [by intros ->|]. split.
  { intros Hne. destruct (websiteChanges p) as [|c cs] eqn:Hw; [done|].
    split; [reflexivity|]. unfold website_insight. cbn [insight_severity].
    rewrite Hw.
    destruct (Nat.ltb_spec 5 (sum_changes (c :: cs))); split; try done; lia. }
  split.
  { intros Hnil. apply identifyTopCompetitors_nil in Hnil. by rewrite Hnil. }
  split.
  { intros Hne.
    destruct (identifyTopCompetitors p) as [|top rest] eqn:Htop.
    - apply identifyTopCompetitors_nil in Htop. contradiction.
    - destruct (identifyTopCompetitors_head p top rest Htop)
        as ((comp & Hin & ->) & Hmax).
      exists (top_of comp), comp. split; [reflexivity|].
      split; [exact Hin|]. split; [reflexivity|]. split; [exact Hmax|].
      split; [reflexivity|].
      rewrite length_firstn.
      destruct (identifyTopCompetitors_sorted p) as (_ & _ & _ & Hlen).
      rewrite Htop in Hlen. by rewrite Hlen. }
  rewrite length_app.
  destruct (0 <? length (websiteChanges p))%nat;
    destruct (identifyTopCompetitors p); simpl; lia.
Qed.

Lemma generateInsights_cases_witness :
  exists top,
    generateInsights (processData example_data)
    = [website_insight (processData example_data);
       competitive_insight (processData example_data) top]
    /\ tc_name top = lit "Acme"
    /\ insight_severity (website_insight (processData example_data)) = medium.
Proof.
  destruct (generateInsights_cases (processData example_data))
    as (website & competitive & Heq & _ & Hw & _ & Hc & _).
  destruct Hw as [-> _]; [discriminate|].
  destruct Hc as (top & comp & -> & _ & _ & _ & Hhead & _); [discriminate|].
  exists top. split; [exact Heq|].
  split; [|reflexivity].
  vm_compute in Hhead. by injection Hhead as <-.
Defined.

Lemma recommend_each_acc (insights : list Insight)
    (acc : list Recommendation) :
  recommend_each insights acc
  = match recommend_each insights [] with
    | Normal pushed => Normal (acc ++ pushed)
    | Throw e => Throw e
    end.
Proof.
  revert acc. induction insights as [|i rest IH]; intros acc; simpl.
  - by rewrite app_nil_r.
  - destruct (recommend i) as [one|e]; [|reflexivity].
    rewrite (IH (acc ++ one)), (IH one).
    destruct (recommend_each rest []) as [tail|e]; [|reflexivity].
    by rewrite app_assoc.
Qed.

Lemma recommend_each_cons (i : Insight) (rest : list Insight) :
  recommend_each (i :: rest) []
  = match recommend i with
    | Normal one =>
        match recommend_each rest [] with
        | Normal tail => Normal (one ++ tail)
        | Throw e => Throw e
        end
    | Throw e => Throw e
    end.
Proof.
  simpl. destruct (recommend i) as [one|e]; [|reflexivity].
  apply recommend_each_acc.
Qed.

Lemma recommend_website (p : ProcessedData) :
  recommend (website_insight p)
  = Normal [website_recommendation (insight_severity (website_insight p))].
Proof.
  unfold recommend. rewrite bool_decide_eq_true_2 by reflexivity.
  by destruct (insight_severity (website_insight p)).
Qed.

Lemma recommend_competitive (p : ProcessedData) (top first : TopCompetitor)
    (rest : list TopCompetitor) :
  identifyTopCompetitors p = first :: rest ->
  recommend (competitive_insight p top)
  = Normal [competitive_recommendation (tc_name first)].
Proof.
  intros Htop. unfold recommend.
  rewrite bool_decide_eq_false_2 by discriminate.
  rewrite bool_decide_eq_true_2 by reflexivity.
  cbn [insight_competitors competitive_insight]. by rewrite Htop.
Qed.

Lemma generateRecommendations_eq (p : ProcessedData) :
  generateRecommendations (generateInsights p)
  = Normal
      ((if (0 <? length (websiteChanges p))%nat
        then [website_recommendation (insight_severity (website_insight p))]
        else [])
       ++ match identifyTopCompetitors p with
          | top :: _ => [competitive_recommendation (tc_name top)]
          | [] => []
          end
       ++ [general_recommendation]).
Proof.
  rewrite generateInsights_eq. unfold generateRecommendations.
  destruct (identifyTopCompetitors p) as [|top rest] eqn:Htop;
    destruct (0 <? length (websiteChanges p))%nat; simpl app;
    rewrite ?recommend_each_cons, ?recommend_website,
      ?(recommend_competitive p top top rest Htop); reflexivity.
Qed.

(** X14: on the insights of [generateInsights], [generateRecommendations]
    does not throw and returns one recommendation per insight followed
    by the general one: between one and three recommendations, the last
    always "Regular Monitoring Schedule".  The website recommendation
    has high priority exactly when more than five changes were counted;
    the competitive recommendation names a competitor with the most
    changes. *)
Theorem generateRecommendations_of_insights (p : ProcessedData) :
  exists recommendations,
    generateRecommendations (generateInsights p) = Normal recommendations
    /\ length recommendations = S (length (generateInsights p))
    /\ (1 <= length recommendations <= 3)%nat
    /\ last recommendations = Some general_recommendation
    /\ (websiteChanges p <> [] ->
        head recommendations
        = Some (website_recommendation
                  (if (5 <? sum_changes (websiteChanges p))%nat
                   then high else medium)))
    /\ (competitors p <> [] ->
        exists comp,
          In comp (competitors p)
          /\ (forall other, In other (competitors p) ->
                (cs_changes other <= cs_changes comp)%nat)
          /\ In (competitive_recommendation (cs_name comp)) recommendations).
Proof.
  rewrite generateRecommendations_eq, generateInsights_eq.
  eexists. split; [reflexivity|].
  split.
  { rewrite !length_app.
    destruct (0 <? length (websiteChanges p))%nat;
      destruct (identifyTopCompetitors p); simpl; lia. }
  split.
  { rewrite !length_app.
    destruct (0 <? length (websiteChanges p))%nat;
      destruct (identifyTopCompetitors p); simpl; lia. }
  split.
  { rewrite app_assoc. apply last_snoc. }
  split.
  { intros Hne. destruct (websiteChanges p) as [|c cs] eqn:Hw; [done|].
    simpl. unfold website_insight. cbn [insight_severity]. by rewrite Hw. }
  intros Hne.
  destruct (identifyTopCompetitors p) as [|top rest] eqn:Htop.
  { apply identifyTopCompetitors_nil in Htop. contradiction. }
  destruct (identifyTopCompetitors_head p top rest Htop)
    as ((comp & Hin & ->) & Hmax).
  exists comp. split; [exact Hin|]. split; [exact Hmax|].
  apply in_or_app. right. by left.
Qed.

Lemma generateRecommendations_of_insights_witness :
  exists recommendations,
    generateRecommendations (generateInsights (processData example_data))
    = Normal recommendations
    /\ length recommendations = 3%nat
    /\ head recommendations = Some (website_recommendation medium)
    /\ last recommendations = Some general_recommendation.
Proof.
  destruct (generateRecommendations_of_insights (processData example_data))
    as (recs & Heq & Hlen & _ & Hlast & Hweb & _).
  exists recs. split; [exact Heq|]. split; [exact Hlen|].
  split; [|exact Hlast]. apply Hweb. discriminate.
Defined.

Lemma recommend_throw (i : Insight) (e : Error) :
  recommend i = Throw e -> e = no_first_competitor.
Proof.
  unfold recommend. repeat case_bool_decide; try discriminate.
  destruct (insight_competitors i) as [[|n ns]|[|t ts]]; simpl;
    intros [= <-] || discriminate; reflexivity.
Qed.

Lemma recommend_length (i : Insight) (pushed : list Recommendation) :
  recommend i = Normal pushed -> (length pushed <= 1)%nat.
Proof.
  unfold recommend. repeat case_bool_decide.
  - intros [= <-]. simpl. lia.
  - destruct (first_competitor_name _); [|discriminate].
    intros [= <-]. simpl. lia.
  - intros [= <-]. simpl. lia.
Qed.

Lemma recommend_each_length (insights : list Insight)
    (pushed : list Recommendation) :
  recommend_each insights [] = Normal pushed ->
  (length pushed <= length insights)%nat.
Proof.
  revert pushed. induction insights as [|i rest IH]; intros pushed.
  - intros [= <-]. simpl. lia.
  - rewrite recommend_each_cons.
    destruct (recommend i) as [one|e] eqn:Hi; [|discriminate].
    destruct (recommend_each rest []) as [tail|e]; [|discriminate].
    intros [= <-]. rewrite length_app. simpl.
    pose proof (recommend_length i one Hi). pose proof (IH tail eq_refl). lia.
Qed.

Lemma recommend_each_throws (insights : list Insight) (i : Insight) :
  In i insights -> recommend i = Throw no_first_competitor ->
  recommend_each insights [] = Throw no_first_competitor.
Proof.
  intros Hin Hthrow. induction insights as [|j rest IH]; [destruct Hin|].
  rewrite recommend_each_cons.
  destruct (recommend j) as [one|e] eqn:Hj.
  - destruct Hin as [->|Hin]; [congruence|]. by rewrite (IH Hin).
  - by rewrite (recommend_throw j e Hj).
Qed.

(** X15: [generateRecommendations] on insights from elsewhere.  An
    insight whose type is neither "website" nor "competitive" is passed
    over, so without known insights (in particular on an empty array)
    the general recommendation is returned alone.  A competitive
    insight with an empty competitors array makes the whole call throw a
    [TypeError]: no recommendation is returned, not even the general
    one.  When the call returns, there is at most one recommendation
    per insight, followed by the general one. *)
Theorem generateRecommendations_edge_cases (insights : list Insight) :
  ((forall i, In i insights ->
      insight_type i <> lit "website" /\ insight_type i <> lit "competitive") ->
   generateRecommendations insights = Normal [general_recommendation])
  /\ (forall i, In i insights ->
      insight_type i = lit "competitive" ->
      insight_competitors i = Tops [] \/ insight_competitors i = Names [] ->
      generateRecommendations insights = Throw no_first_competitor)
  /\ (forall recommendations,
      generateRecommendations insights = Normal recommendations ->
      (length recommendations <= S (length insights))%nat
      /\ last recommendations = Some general_recommendation).
Proof.
  split; [|split].
  - intros Hunknown. unfold generateRecommendations.
    assert (Hnone : recommend_each insights [] = Normal []).
    { induction insights as [|i rest IH]; [reflexivity|].
      rewrite recommend_each_cons.
      destruct (Hunknown i (or_introl eq_refl)) as [Hw Hc].
      unfold recommend. rewrite !bool_decide_eq_false_2 by done.
      rewrite IH; [reflexivity|]. intros j Hj. apply Hunknown. by right. }
    by rewrite Hnone.
  - intros i Hin Htype Hempty. unfold generateRecommendations.
    rewrite (recommend_each_throws insights i Hin); [reflexivity|].
    unfold recommend. rewrite Htype.
    rewrite bool_decide_eq_false_2 by discriminate.
    rewrite bool_decide_eq_true_2 by reflexivity.
    by destruct Hempty as [-> | ->].
  - intros recs. unfold generateRecommendations.
    destruct (recommend_each insights []) as [pushed|e] eqn:Hp; [|discriminate].
    intros [= <-]. rewrite length_app, last_snoc. simpl.
    pose proof (recommend_each_length insights pushed Hp). split; [lia|done].
Qed.

Lemma generateRecommendations_edge_cases_witness :
  generateRecommendations [pricing_insight] = Normal [general_recommendation]
  /\ generateRecommendations
       [website_insight (processData example_data); hollow_insight]
     = Throw no_first_competitor.
Proof.
  split.
  - apply (proj1 (generateRecommendations_edge_cases [pricing_insight])).
    intros i [<-|[]]. split; discriminate.
  - apply (proj1 (proj2 (generateRecommendations_edge_cases
                           [website_insight (processData example_data);
                            hollow_insight])) hollow_insight).
    + right. by left.
    + reflexivity.
    + by left.
Defined.

(** * The competitors loader *)

Lemma string_of_Z_inj (a b : Z) :
  0 <= a -> 0 <= b -> string_of_Z a = string_of_Z b -> a = b.
Proof.
  intros Ha Hb. unfold string_of_Z.
  destruct (Z.ltb_spec a 0), (Z.ltb_spec b 0); try lia.
  intros Heq. rewrite <- (value_of_string_of_nonneg a), Heq by done.
  by apply value_of_string_of_nonneg.
Qed.

Lemma candidate_inj (baseId : jsstring) (i j : nat) :
  candidate baseId i = candidate baseId j -> i = j.
Proof.
  destruct i as [|i], j as [|j]; cbn [candidate]; [done| | |].
  - intros Heq. apply (f_equal length) in Heq.
    rewrite !length_app in Heq. simpl in Heq. lia.
  - intros Heq. apply (f_equal length) in Heq.
    rewrite !length_app in Heq. simpl in Heq. lia.
  - intros Heq. apply app_inv_head in Heq. apply app_inv_head in Heq.
    apply string_of_Z_inj in Heq; lia.
Qed.

Lemma single_dashes_cons (c : N) (l : jsstring) :
  single_dashes (c :: l)
  <-> (c = dash -> head l <> Some dash) /\ single_dashes l.
Proof.
  destruct l as [|d l]; simpl.
  - split; [by intros _; split | done].
  - split.
    + intros [Hcd Hl]. split; [|done]. intros -> [= ->]. by apply Hcd.
    + intros [Hcd Hl]. split; [|done]. intros [-> ->]. by apply Hcd.
Qed.

Lemma single_dashes_app (l : jsstring) (c : N) :
  single_dashes (l ++ [c])
  <-> single_dashes l /\ (last l = Some dash -> c <> dash).
Proof.
  induction l as [|a l IH].
  - simpl. split; [by intros _; split | done].
  - change ((a :: l) ++ [c]) with (a :: (l ++ [c])).
    rewrite !single_dashes_cons, IH.
    destruct l as [|b l].
    + simpl. split.
      * intros (Ha & _ & _). repeat split; [done|]. intros [= ->] ->.
        by apply Ha.
      * intros ((_ & _) & Hc). repeat split; [|done].
        intros -> [= ->]. by apply Hc.
    + rewrite last_cons_cons. simpl. tauto.
Qed.

Lemma last_rev {A} (l : list A) : last (rev l) = head l.
Proof. rewrite rev_alt. apply last_reverse. Qed.

Lemma head_rev {A} (l : list A) : head (rev l) = last l.
Proof. by rewrite <- last_rev, rev_involutive. Qed.

Lemma single_dashes_rev (l : jsstring) :
  single_dashes l -> single_dashes (rev l).
Proof.
  induction l as [|a l IH]; [done|].
  rewrite single_dashes_cons. intros [Ha Hl]. simpl.
  apply single_dashes_app. split; [by apply IH|].
  rewrite last_rev. intros Hh ->. by apply Ha.
Qed.

Lemma squeeze_dashes_head (s : jsstring) :
  head (squeeze_dashes s) = head s.
Proof.
  induction s as [|c rest IH]; [done|]. cbn [squeeze_dashes].
  destruct (N.eqb_spec c dash) as [->|]; [|done].
  destruct rest as [|d rest]; [done|].
  destruct (N.eqb_spec d dash) as [->|]; [|done].
  by rewrite IH.
Qed.

Lemma squeeze_dashes_single (s : jsstring) :
  single_dashes (squeeze_dashes s).
Proof.
  induction s as [|c rest IH]; [done|]. cbn [squeeze_dashes].
  destruct (N.eqb_spec c dash) as [->|Hc].
  - destruct rest as [|d rest]; [done|].
    destruct (N.eqb_spec d dash) as [->|Hd]; [done|].
    apply single_dashes_cons. split; [|done].
    rewrite squeeze_dashes_head. simpl. congruence.
  - apply single_dashes_cons. by split.
Qed.

Lemma squeeze_dashes_filter (f : N -> bool) (s : jsstring) :
  f dash = false ->
  List.filter f (squeeze_dashes s) = List.filter f s.
Proof.
  intros Hf. induction s as [|c rest IH]; [done|]. cbn [squeeze_dashes].
  destruct (N.eqb_spec c dash) as [->|Hc].
  - destruct rest as [|d rest]; [done|].
    destruct (N.eqb_spec d dash) as [->|Hd].
    + rewrite IH. simpl. by rewrite Hf.
    + simpl. rewrite Hf. simpl in IH. by rewrite <- IH.
  - simpl. by rewrite IH.
Qed.

Lemma squeeze_dashes_chars (P : N -> Prop) (s : jsstring) :
  Forall P s -> Forall P (squeeze_dashes s).
Proof.
  induction 1 as [|c rest Hc Hrest IH]; [done|]. cbn [squeeze_dashes].
  destruct (c =? dash)%N; [|by constructor].
  destruct rest as [|d rest]; [by constructor|].
  destruct (d =? dash)%N; [done|by constructor].
Qed.

Lemma strip_front_chars (P : N -> Prop) (s : jsstring) :
  Forall P s -> Forall P (strip_front s).
Proof.
  destruct 1 as [|c rest Hc Hrest]; [done|]. simpl.
  destruct (c =? dash)%N; [done|by constructor].
Qed.

Lemma strip_front_filter (f : N -> bool) (s : jsstring) :
  f dash = false -> List.filter f (strip_front s) = List.filter f s.
Proof.
  intros Hf. destruct s as [|c rest]; [done|]. simpl.
  destruct (N.eqb_spec c dash) as [->|]; [by rewrite Hf|done].
Qed.

Lemma strip_front_single (s : jsstring) :
  single_dashes s ->
  single_dashes (strip_front s) /\ head (strip_front s) <> Some dash.
Proof.
  destruct s as [|c rest]; [done|]. rewrite single_dashes_cons.
  intros [Hc Hrest]. simpl.
  destruct (N.eqb_spec c dash) as [->|Hne].
  - split; [done|]. by apply Hc.
  - split; [by apply single_dashes_cons|]. simpl. congruence.
Qed.

Lemma strip_front_last (s : jsstring) :
  last s <> Some dash -> last (strip_front s) <> Some dash.
Proof.
  destruct s as [|c rest]; [done|]. simpl.
  destruct (N.eqb_spec c dash) as [->|Hne]; [|done].
  destruct rest as [|d rest]; [done|]. by rewrite last_cons_cons.
Qed.

Lemma filter_rev {A} (f : A -> bool) (l : list A) :
  List.filter f (rev l) = rev (List.filter f l).
Proof.
  induction l as [|a l IH]; [done|]. simpl.
  rewrite List.filter_app, IH. simpl.
  destruct (f a); simpl; by rewrite ?app_nil_r.
Qed.

Lemma lower_or_dash_chars (c : N) :
  Forall (fun c => id_char c = true) (lower_or_dash c).
Proof.
  unfold lower_or_dash, id_char.
  destruct (is_lower_alnum c) eqn:Hc; [by repeat constructor; rewrite Hc|].
  destruct ((65 <=? c) && (c <=? 90))%N eqn:Hup.
  { repeat constructor. unfold is_lower_alnum.
    apply andb_true_iff in Hup as [H1%N.leb_le H2%N.leb_le].
    apply orb_true_iff. left. apply orb_true_iff. left.
    apply andb_true_iff. split; apply N.leb_le; lia. }
  destruct (c =? 8490)%N; [by repeat constructor|].
  destruct (c =? 304)%N; by repeat constructor.
Qed.

Lemma lower_or_dash_letters (c : N) :
  List.filter is_lower_alnum (lower_or_dash c) = []
  <-> alnum_when_lowered c = false.
Proof.
  unfold lower_or_dash, alnum_when_lowered.
  destruct (is_lower_alnum c) eqn:Hc; [simpl; by rewrite Hc|].
  destruct ((65 <=? c) && (c <=? 90))%N eqn:Hup.
  { simpl. apply andb_true_iff in Hup as [H1%N.leb_le H2%N.leb_le].
    assert (is_lower_alnum (c + 32) = true) as ->; [|done].
    unfold is_lower_alnum. apply orb_true_iff. left.
    apply andb_true_iff. split; apply N.leb_le; lia. }
  destruct (c =? 8490)%N; [done|].
  destruct (c =? 304)%N; done.
Qed.

Lemma base_id_letters (name : jsstring) :
  List.filter is_lower_alnum (base_id name)
  = List.filter is_lower_alnum (flat_map lower_or_dash name).
Proof.
  unfold base_id, strip_dashes.
  rewrite filter_rev, strip_front_filter, filter_rev, rev_involutive,
    strip_front_filter, squeeze_dashes_filter by done.
  done.
Qed.

Lemma filter_flat_map_nil {A B} (f : B -> bool) (g : A -> list B)
    (l : list A) :
  List.filter f (flat_map g l) = []
  <-> Forall (fun a => List.filter f (g a) = []) l.
Proof.
  induction l as [|a l IH]; simpl.
  - split; [by constructor|done].
  - rewrite List.filter_app, Forall_cons, <- IH. split.
    + by intros [-> ->]%app_eq_nil.
    + by intros [-> ->].
Qed.

Lemma base_id_chars (name : jsstring) :
  Forall (fun c => id_char c = true) (base_id name).
Proof.
  unfold base_id, strip_dashes.
  apply List.Forall_rev, strip_front_chars, List.Forall_rev,
    strip_front_chars, squeeze_dashes_chars, List.Forall_flat_map.
  apply Forall_forall. intros c _. apply lower_or_dash_chars.
Qed.

Lemma digits_of_chars (fuel : nat) (n : Z) (acc : jsstring) :
  Forall (fun c => id_char c = true) acc ->
  Forall (fun c => id_char c = true) (digits_of fuel n acc).
Proof.
  revert n acc. induction fuel as [|fuel IH]; intros n acc Hacc; [done|].
  cbn [digits_of]. cbv zeta.
  assert (Hd : id_char (digit_char (n mod 10)) = true).
  { unfold id_char, is_lower_alnum, digit_char.
    pose proof (Z.mod_pos_bound n 10 ltac:(lia)).
    apply orb_true_iff. left. apply orb_true_iff. right.
    apply andb_true_iff. split; apply N.leb_le; lia. }
  destruct (n <? 10); [by constructor|]. apply IH. by constructor.
Qed.

Lemma string_of_Z_chars (n : Z) :
  0 <= n -> Forall (fun c => id_char c = true) (string_of_Z n).
Proof.
  intros Hn. unfold string_of_Z.
  destruct (Z.ltb_spec n 0); [lia|]. by apply digits_of_chars.
Qed.

(** X16: the base of a generated competitor id is a slug of the name.
    It holds lower-case letters, digits and dashes only, never two
    dashes in a row, and neither begins nor ends with a dash; its
    letters and digits are those of the lower-cased name, in order; and
    it is the empty string exactly when the name holds no letter or
    digit at all. *)
Theorem base_id_is_a_slug (name : jsstring) :
  Forall (fun c => id_char c = true) (base_id name)
  /\ single_dashes (base_id name)
  /\ head (base_id name) <> Some dash
  /\ last (base_id name) <> Some dash
  /\ List.filter is_lower_alnum (base_id name)
     = List.filter is_lower_alnum (flat_map lower_or_dash name)
  /\ (base_id name = []
      <-> Forall (fun c => alnum_when_lowered c = false) name).
Proof.
  pose proof (base_id_chars name) as Hchars.
  assert (Hshape : single_dashes (base_id name)
                   /\ head (base_id name) <> Some dash
                   /\ last (base_id name) <> Some dash).
  { unfold base_id, strip_dashes.
    pose proof (squeeze_dashes_single (flat_map lower_or_dash name)) as Ht.
    apply strip_front_single in Ht as [Hu Hhead].
    set (u := strip_front _) in *.
    pose proof (single_dashes_rev u Hu) as Hv.
    apply strip_front_single in Hv as [Hx Hxhead].
    assert (Hxlast : last (strip_front (rev u)) <> Some dash).
    { apply strip_front_last. by rewrite last_rev. }
    split; [by apply single_dashes_rev|].
    by rewrite head_rev, last_rev. }
  destruct Hshape as (Hsingle & Hhead & Hlast).
  repeat split; try done; [apply base_id_letters| |].
  - intros Hnil. apply Forall_forall. intros c Hc.
    apply lower_or_dash_letters.
    pose proof (base_id_letters name) as Hl. rewrite Hnil in Hl.
    symmetry in Hl. apply filter_flat_map_nil in Hl.
    by apply (proj1 (Forall_forall _ _) Hl).
  - intros Hall.
    assert (Hl : List.filter is_lower_alnum (base_id name) = []).
    { rewrite base_id_letters. apply filter_flat_map_nil.
      apply Forall_forall. intros c Hc. apply lower_or_dash_letters.
      by apply (proj1 (Forall_forall _ _) Hall). }
    destruct (base_id name) as [|c rest]; [done|]. exfalso.
    apply Forall_cons in Hchars as [Hc _]. simpl in Hl, Hhead.
    unfold id_char in Hc. destruct (is_lower_alnum c); [done|].
    apply N.eqb_eq in Hc. congruence.
Qed.

(** ** Computations of the agent *)

Lemma set_world_same (s : System) : set_world (world s) s = s.
Proof. by destruct s. Qed.

Lemma keeps_ret {A B} (f : System -> B) (a : A) : keeps f (run_ret a).
Proof. done. Qed.

Lemma keeps_throw {A B} (f : System -> B) (e : Error) :
  keeps f (run_throw (A := A) e).
Proof. done. Qed.

Lemma keeps_call {A B} (f : System -> B) (c : Completion A) :
  keeps f (run_call c).
Proof. done. Qed.

Lemma keeps_bind {A A' B} (f : System -> B) (m : Run A) (k : A -> Run A') :
  keeps f m -> (forall a, keeps f (k a)) -> keeps f (run_bind m k).
Proof.
  intros Hm Hk s. unfold run_bind. specialize (Hm s).
  destruct (m s) as [[a|e] s1]; simpl in *; [|done].
  by rewrite Hk.
Qed.

Lemma keeps_try {A B} (f : System -> B) (m : Run A) (h : Error -> Run A) :
  keeps f m -> (forall e, keeps f (h e)) -> keeps f (run_try m h).
Proof.
  intros Hm Hh s. unfold run_try. specialize (Hm s).
  destruct (m s) as [[a|e] s1]; simpl in *; [done|].
  by rewrite Hh.
Qed.

Lemma keeps_in_world {A B} (f : System -> B) (m : M A) :
  (forall w s, f (set_world w s) = f s) -> keeps f (in_world m).
Proof.
  intros Hf s. unfold in_world. destruct (m (world s)) as [c w]. apply Hf.
Qed.

Section Loader.

Context (competitors_file : jsstring)
        (parse_competitors : jsstring -> Completion (list CompetitorEntry)).

Local Abbreviation getCompetitors :=
  (getCompetitors competitors_file parse_competitors).
Local Abbreviation getCompetitorById :=
  (getCompetitorById competitors_file parse_competitors).
Local Abbreviation next_free_id :=
  (next_free_id competitors_file parse_competitors).
Local Abbreviation generateCompetitorId :=
  (generateCompetitorId competitors_file parse_competitors).

(** What the competitors file gives when it is read: [[]] when it
    cannot be read or parsed. *)
Local Abbreviation on_file w :=
  (match files w !! competitors_file with
   | Some data =>
       match parse_competitors data with
       | Normal competitors => competitors
       | Throw _ => []
       end
   | None => []
   end).

Lemma getCompetitors_cached (s : System) :
  loaded s <> [] -> getCompetitors s = (Normal (loaded s), s).
Proof.
  intros Hne. unfold getCompetitors.
  by destruct (loaded s).
Qed.

Lemma getCompetitors_loads (s : System) :
  loaded s = [] ->
  exists s1,
    getCompetitors s = (Normal (on_file (world s)), s1)
    /\ loaded s1 = on_file (world s)
    /\ world s1 = world s /\ isRunning s1 = isRunning s
    /\ lastRun s1 = lastRun s /\ outbox s1 = outbox s
    /\ mail_error s1 = mail_error s
    /\ notices s `prefix_of` notices s1.
Proof.
  intros Hnil. unfold getCompetitors. rewrite Hnil. simpl.
  unfold run_try, run_bind, in_world, readFile, run_call, Date_toISOString,
    notice, run_ret.
  destruct (files (world s) !! competitors_file) as [data|] eqn:Hfile.
  - destruct (parse_competitors data) as [competitors|e]; simpl.
    + eexists. split; [reflexivity|]. by repeat split.
    + eexists. split; [reflexivity|]. simpl. repeat split; try done.
      by apply prefix_app_r.
  - eexists. split; [reflexivity|]. simpl. repeat split; try done.
    by apply prefix_app_r.
Qed.

Lemma getCompetitors_returns (s : System) :
  exists competitors s1,
    getCompetitors s = (Normal competitors, s1)
    /\ loaded s1 = competitors
    /\ world s1 = world s /\ isRunning s1 = isRunning s
    /\ lastRun s1 = lastRun s /\ outbox s1 = outbox s
    /\ mail_error s1 = mail_error s
    /\ notices s `prefix_of` notices s1.
Proof.
  destruct (loaded s) as [|c l] eqn:Hl.
  - destruct (getCompetitors_loads s Hl) as (s1 & -> & H). eauto.
  - rewrite getCompetitors_cached by by rewrite Hl. rewrite Hl.
    do 2 eexists. split; [reflexivity|]. by repeat split.
Qed.

(** X17: [getCompetitors] never throws and always answers with the
    cache as it then stands.  A non-empty cache is answered as it is,
    without a look at the file, so once competitors were loaded no later
    state of the files changes the answer.  An empty cache is filled
    from the file at every call; a file that cannot be read or parsed
    counts as an empty list. *)
Theorem getCompetitors_answers_from_cache (s : System) :
  exists competitors s1,
    getCompetitors s = (Normal competitors, s1)
    /\ loaded s1 = competitors
    /\ world s1 = world s
    /\ (loaded s <> [] -> competitors = loaded s /\ s1 = s)
    /\ (loaded s = [] -> competitors = on_file (world s))
    /\ (competitors <> [] ->
        forall w, getCompetitors (set_world w s1)
                  = (Normal competitors, set_world w s1)).
Proof.
  destruct (loaded s) as [|c l] eqn:Hl.
  - destruct (getCompetitors_loads s Hl) as (s1 & -> & Hs1 & Hw & _).
    do 2 eexists. split; [reflexivity|]. repeat split; try done.
    intros Hne w. rewrite getCompetitors_cached; simpl; by rewrite Hs1.
  - rewrite getCompetitors_cached by by rewrite Hl. rewrite Hl.
    do 2 eexists. split; [reflexivity|]. repeat split; try done.
    intros _ w. rewrite getCompetitors_cached; simpl; by rewrite Hl.
Qed.

Lemma find_by_id_taken (competitors : list CompetitorEntry) (id : jsstring) :
  find_by_id competitors id <> None -> Some id ∈ map entry_id competitors.
Proof.
  unfold find_by_id.
  destruct (List.find _ competitors) as [comp|] eqn:Hfind; [|done].
  intros _. apply find_some in Hfind as [Hin Hid].
  apply bool_decide_eq_true in Hid. rewrite <- Hid.
  apply list_elem_of_In, in_map_iff. eauto.
Qed.

Lemma candidates_taken (competitors : list CompetitorEntry)
    (baseId : jsstring) (j : nat) :
  (forall i, (i < j)%nat ->
     find_by_id competitors (candidate baseId i) <> None) ->
  (j <= length competitors)%nat.
Proof.
  intros Htaken.
  set (tried := map (fun i => Some (candidate baseId i)) (seq 0 j)).
  assert (Hlen : length tried = j) by (unfold tried; by rewrite length_map, length_seq).
  rewrite <- Hlen, <- (length_map entry_id competitors).
  apply submseteq_length, NoDup_submseteq.
  - unfold tried. apply NoDup_fmap_2_strong.
    + intros a b _ _ [= Heq]. by apply candidate_inj in Heq.
    + apply NoDup_ListNoDup, seq_NoDup.
  - intros x Hx. unfold tried in Hx.
    apply list_elem_of_In, in_map_iff in Hx as (i & <- & Hi).
    apply in_seq in Hi. apply find_by_id_taken, Htaken. lia.
Qed.

Lemma next_free_id_eq (fuel : nat) (baseId id : jsstring) (counter : Z) :
  next_free_id fuel baseId id counter
  = run_bind (getCompetitorById id)
      (fun found =>
         match found with
         | None => run_ret (Some id)
         | Some _ =>
             match fuel with
             | O => run_ret None
             | S fuel' =>
                 next_free_id fuel' baseId
                   (baseId ++ lit "-" ++ string_of_Z counter) (counter + 1)
             end
         end).
Proof. by destruct fuel. Qed.

Lemma next_free_id_first_free (competitors : list CompetitorEntry)
    (baseId : jsstring) (s0 : System) (fuel : nat) :
  forall (j : nat) (s : System),
    getCompetitors s = (Normal competitors, s0) ->
    (competitors <> [] -> getCompetitors s0 = (Normal competitors, s0)) ->
    (forall i, (i < j)%nat ->
       find_by_id competitors (candidate baseId i) <> None) ->
    (length competitors <= j + fuel)%nat ->
    exists j',
      next_free_id fuel baseId (candidate baseId j) (Z.of_nat j + 1) s
      = (Normal (Some (candidate baseId j')), s0)
      /\ (j <= j' <= length competitors)%nat
      /\ find_by_id competitors (candidate baseId j') = None
      /\ (forall i, (i < j')%nat ->
            find_by_id competitors (candidate baseId i) <> None).
Proof.
  induction fuel as [|fuel IH]; intros j s Hget Hstable Htaken Hfuel.
  - rewrite next_free_id_eq. unfold run_bind, getCompetitorById, run_bind.
    rewrite Hget. unfold run_ret.
    pose proof (candidates_taken competitors baseId j Htaken) as Hj.
    destruct (find_by_id competitors (candidate baseId j)) as [comp|] eqn:Hfind.
    + exfalso.
      assert (S j <= length competitors)%nat; [|lia].
      apply (candidates_taken competitors baseId). intros i Hi.
      destruct (decide (i = j)) as [->|]; [congruence|]. apply Htaken. lia.
    + exists j. repeat split; (done || lia).
  - rewrite next_free_id_eq. unfold run_bind at 1.
    unfold getCompetitorById, run_bind at 1. rewrite Hget. unfold run_ret at 1.
    pose proof (candidates_taken competitors baseId j Htaken) as Hj.
    destruct (find_by_id competitors (candidate baseId j)) as [comp|] eqn:Hfind.
    + assert (Htaken' : forall i, (i < S j)%nat ->
                find_by_id competitors (candidate baseId i) <> None).
      { intros i Hi. destruct (decide (i = j)) as [->|]; [congruence|].
        apply Htaken. lia. }
      assert (Hne : competitors <> []) by (by destruct competitors).
      assert (Hfuel' : (length competitors <= S j + fuel)%nat) by lia.
      destruct (IH (S j) s0 (Hstable Hne) Hstable Htaken' Hfuel')
        as (j' & Hrun & Hj' & Hfree & Hbefore).
      exists j'. split; [|repeat split; (done || lia)].
      rewrite <- Hrun. cbn [candidate].
      by replace (Z.of_nat (S j)) with (Z.of_nat j + 1) by lia.
    + exists j. repeat split; (done || lia).
Qed.

(** X18: [generateCompetitorId] returns an id that no loaded competitor
    has.  It is the first free one among the base id and the base id
    followed by a dash and the counters 1, 2, ...; the loop needs at
    most as many rounds as there are competitors, and the id holds
    lower-case letters, digits and dashes only. *)
Theorem generateCompetitorId_fresh (name : jsstring) (s : System) :
  exists competitors s0,
    getCompetitors s = (Normal competitors, s0)
    /\ forall fuel, (length competitors <= fuel)%nat ->
       exists j,
         generateCompetitorId fuel name s
         = (Normal (Some (candidate (base_id name) j)), s0)
         /\ (j <= length competitors)%nat
         /\ find_by_id competitors (candidate (base_id name) j) = None
         /\ (forall i, (i < j)%nat ->
               find_by_id competitors (candidate (base_id name) i) <> None)
         /\ Forall (fun c => id_char c = true) (candidate (base_id name) j).
Proof.
  destruct (getCompetitors_returns s)
    as (competitors & s0 & Hget & Hloaded & _).
  exists competitors, s0. split; [done|]. intros fuel Hfuel.
  destruct (next_free_id_first_free competitors (base_id name) s0 fuel 0 s)
    as (j & Hrun & Hj & Hfree & Hbefore); try done.
  { intros Hne. rewrite getCompetitors_cached; by rewrite Hloaded. }
  { intros i Hi. lia. }
  exists j. split; [done|]. split; [lia|]. split; [done|]. split; [done|].
  pose proof (base_id_chars name) as Hchars.
  destruct j as [|j]; [done|]. cbn [candidate].
  apply Forall_app. split; [done|]. apply Forall_app. split.
  { by repeat constructor. }
  apply string_of_Z_chars. lia.
Qed.

End Loader.

(** * Report files *)

Lemma set_files_same (w : World) : set_files (files w) w = w.
Proof. by destruct w. Qed.

Lemma keeps_notice {B} (f : System -> B) (n : Notice) :
  agent_part f -> keeps f (notice n).
Proof. intros [_ Hn] s. apply Hn. Qed.

Lemma agent_state_part : agent_part agent_state.
Proof. by split. Qed.

Lemma write_all_kept (writes : list (jsstring * jsstring))
    (fs : gmap jsstring jsstring) (p : jsstring) :
  is_Some (fs !! p) -> is_Some (write_all fs writes !! p).
Proof.
  revert fs. induction writes as [|[q c] writes IH]; intros fs Hp; [done|].
  change (write_all fs ((q, c) :: writes))
    with (write_all (<[q := c]> fs) writes).
  apply IH. destruct (decide (q = p)) as [->|Hne].
  - rewrite lookup_insert_eq. eauto.
  - by rewrite lookup_insert_ne.
Qed.

Lemma write_all_written (writes : list (jsstring * jsstring))
    (fs : gmap jsstring jsstring) (p : jsstring) :
  p ∈ map fst writes -> is_Some (write_all fs writes !! p).
Proof.
  revert fs. induction writes as [|[q c] writes IH]; intros fs Hp.
  - by apply elem_of_nil in Hp.
  - change (write_all fs ((q, c) :: writes))
      with (write_all (<[q := c]> fs) writes).
    simpl in Hp. apply elem_of_cons in Hp as [->|Hp].
    + apply write_all_kept. rewrite lookup_insert_eq. eauto.
    + by apply IH.
Qed.

Lemma write_all_last (writes : list (jsstring * jsstring))
    (fs : gmap jsstring jsstring) (p c : jsstring) :
  write_all fs (writes ++ [(p, c)]) !! p = Some c.
Proof.
  unfold write_all. rewrite fold_left_app. simpl. apply lookup_insert_eq.
Qed.

Lemma in_world_readFile (path : jsstring) (s : System) :
  in_world (readFile path) s
  = match files (world s) !! path with
    | Some data => (Normal data, s)
    | None =>
        (Throw {| message := lit "ENOENT: no such file or directory, open '"
                               ++ path ++ lit "'" |}, s)
    end.
Proof.
  unfold in_world, readFile.
  destruct (files (world s) !! path); by rewrite set_world_same.
Qed.

Lemma in_world_writeFile (path data : jsstring) (s : System) :
  in_world (writeFile path data) s
  = match write_errors (world s) !! path with
    | Some msg => (Throw {| message := msg |}, s)
    | None =>
        (Normal tt,
         set_world (set_files (<[path := data]> (files (world s))) (world s))
           s)
    end.
Proof.
  unfold in_world, writeFile.
  destruct (write_errors (world s) !! path); [by rewrite set_world_same|done].
Qed.

Lemma in_world_Date (s : System) :
  in_world Date_toISOString s = (Normal (now (world s)), s).
Proof. unfold in_world, Date_toISOString. by rewrite set_world_same. Qed.

Section ReportFiles.

Context (path_join : jsstring -> jsstring -> jsstring)
        (reports : jsstring)
        (calendar : jsstring -> Z * Z * Z)
        (getReportPeriod : jsstring -> jsstring)
        (apply_template : jsstring -> ReportData -> Completion jsstring)
        (stringify_report : ReportData -> jsstring)
        (default_template templatesDir report_format : jsstring).

Local Abbreviation templatePath := (templatePath path_join templatesDir).
Local Abbreviation loadHTMLTemplate :=
  (loadHTMLTemplate path_join default_template templatesDir).
Local Abbreviation generateHTMLReport :=
  (generateHTMLReport path_join apply_template default_template templatesDir).
Local Abbreviation saveReports := (saveReports path_join reports).
Local Abbreviation generateWeeklyReport :=
  (generateWeeklyReport path_join reports calendar getReportPeriod
     apply_template stringify_report default_template templatesDir
     report_format).
Local Abbreviation report_file := (report_file path_join reports).

(** ** The template *)

Lemma loadHTMLTemplate_run (s : System) :
  match files (world s) !! templatePath with
  | Some template => loadHTMLTemplate s = (Normal template, s)
  | None =>
      exists s',
        agent_state s' = agent_state s
        /\ notices s' = notices s ++ [TemplateNotFound]
        /\ match write_errors (world s) !! templatePath with
           | None =>
               loadHTMLTemplate s = (Normal default_template, s')
               /\ world s'
                  = set_files (<[templatePath := default_template]>
                                 (files (world s))) (world s)
           | Some msg =>
               loadHTMLTemplate s = (Throw {| message := msg |}, s')
               /\ world s' = world s
           end
  end.
Proof.
  unfold loadHTMLTemplate, run_try. rewrite in_world_readFile.
  fold templatePath.
  destruct (files (world s) !! templatePath) as [template|] eqn:Hfile; [done|].
  unfold run_bind, notice, createDefaultTemplate. cbv beta iota.
  rewrite in_world_writeFile. fold templatePath. cbn [world].
  destruct (write_errors (world s) !! templatePath) as [msg|] eqn:Hw.
  - eexists. split; [|split; [|split; [reflexivity|]]]; done.
  - rewrite in_world_readFile. cbn [world set_world files set_files].
    rewrite lookup_insert_eq.
    eexists. split; [|split; [|split; [reflexivity|]]]; done.
Qed.

(** X19: the html report never fails for want of a template.  With a
    template file, the report is that template applied to the data and
    nothing is written.  Without one, the built-in template is written
    to the template path and the report is rendered from it, so that
    the next report finds the file; only when that write is rejected
    does the report fail, with the error of the write. *)
Theorem generateHTMLReport_builtin_template (reportData : ReportData)
    (s : System) :
  match files (world s) !! templatePath with
  | Some template =>
      generateHTMLReport reportData s = (apply_template template reportData, s)
  | None =>
      exists s',
        agent_state s' = agent_state s
        /\ notices s' = notices s ++ [TemplateNotFound]
        /\ match write_errors (world s) !! templatePath with
           | None =>
               generateHTMLReport reportData s
               = (apply_template default_template reportData, s')
               /\ world s'
                  = set_files (<[templatePath := default_template]>
                                 (files (world s))) (world s)
               /\ generateHTMLReport reportData s'
                  = (apply_template default_template reportData, s')
           | Some msg =>
               generateHTMLReport reportData s
               = (Throw {| message := msg |}, s')
               /\ world s' = world s
           end
  end.
Proof.
  pose proof (loadHTMLTemplate_run s) as Hload.
  unfold generateHTMLReport, run_bind, run_call.
  destruct (files (world s) !! templatePath) as [template|] eqn:Hfile.
  - rewrite Hload. by destruct (apply_template template reportData).
  - destruct Hload as (s' & Hagent & Hnotices & Hload).
    exists s'. split; [done|]. split; [done|].
    destruct (write_errors (world s) !! templatePath) as [msg|] eqn:Hw.
    + destruct Hload as [-> Hworld]. done.
    + destruct Hload as [-> Hworld].
      split; [by destruct (apply_template default_template reportData)|].
      split; [done|].
      pose proof (loadHTMLTemplate_run s') as Hagain.
      rewrite Hworld in Hagain. cbn [files set_files] in Hagain.
      rewrite lookup_insert_eq in Hagain. rewrite Hagain.
      by destruct (apply_template default_template reportData).
Qed.

(** ** Saving *)

Lemma set_world_twice (w w' : World) (s : System) :
  set_world w (set_world w' s) = set_world w s.
Proof. done. Qed.

Lemma set_files_twice (f g : gmap jsstring jsstring) (w : World) :
  set_files f (set_files g w) = set_files f w.
Proof. done. Qed.

Lemma saveReports_run (reportId : jsstring)
    (made saved : list (jsstring * jsstring)) (s : System) :
  exists (n : nat) (s' : System),
    s' = set_world
           (set_files
              (write_all (files (world s))
                 (map (fun fc => (report_file reportId (fst fc), snd fc))
                      (take n made)))
              (world s)) s
    /\ Forall (fun fc => write_errors (world s) !! report_file reportId (fst fc)
                         = None) (take n made)
    /\ match made !! n with
       | None =>
           n = length made
           /\ saveReports reportId made saved s
              = (Normal (saved
                         ++ map (fun fc => (fst fc,
                                            report_file reportId (fst fc)))
                                made), s')
       | Some fc =>
           exists msg,
             write_errors (world s) !! report_file reportId (fst fc)
             = Some msg
             /\ saveReports reportId made saved s
                = (Throw {| message := msg |}, s')
       end.
Proof.
  unfold report_file.
  revert saved s. induction made as [|[format content] made IH];
    intros saved s.
  - exists 0%nat, s. cbn [take map lookup length saveReports].
    unfold write_all, run_ret. cbn [fold_left].
    rewrite set_files_same, set_world_same, app_nil_r. by repeat split.
  - set (filepath := path_join reports
           (lit "competitors-report-" ++ reportId ++ lit "." ++ format)).
    assert (Hstep :
      saveReports reportId ((format, content) :: made) saved s
      = match write_errors (world s) !! filepath with
        | Some msg => (Throw {| message := msg |}, s)
        | None =>
            saveReports reportId made (saved ++ [(format, filepath)])
              (set_world
                 (set_files (<[filepath := content]> (files (world s)))
                    (world s)) s)
        end).
    { cbn [saveReports]. cbv zeta. unfold run_bind at 1.
      rewrite in_world_writeFile. fold filepath.
      by destruct (write_errors (world s) !! filepath). }
    rewrite Hstep. clear Hstep.
    destruct (write_errors (world s) !! filepath) as [msg|] eqn:Hw.
    + exists 0%nat, s. cbn [take map]. unfold write_all. cbn [fold_left].
      rewrite set_files_same, set_world_same.
      split; [done|]. split; [done|].
      change (((format, content) :: made) !! 0%nat)
        with (Some (format, content)).
      exists msg. by split.
    + destruct (IH (saved ++ [(format, filepath)])
                  (set_world
                     (set_files (<[filepath := content]>
                                   (files (world s))) (world s)) s))
        as (n & s' & Hs' & Hall & Hrun).
      exists (S n), s'. cbn [world set_world files set_files write_errors]
        in Hs', Hall, Hrun.
      change (((format, content) :: made) !! S n) with (made !! n).
      cbn [take map fst snd length]. fold filepath.
      split; [|split].
      * by rewrite Hs', set_world_twice, set_files_twice.
      * by constructor.
      * destruct (made !! n) as [fc|].
        -- destruct Hrun as (msg & Hmsg & Hrun). exists msg. by split.
        -- destruct Hrun as (-> & Hrun). split; [done|].
           by rewrite Hrun, <- app_assoc.
Qed.

(** X20: [saveReports] writes the reports in order, each to the file
    named after the report id and the format, and stops at the first
    write that is rejected: it then throws the error of that write, the
    reports before it stay on disk and those after it are not written.
    When no write is rejected it returns the path of every format. *)
Theorem saveReports_stops_at_first_rejection (reportId : jsstring)
    (made : list (jsstring * jsstring)) (s : System) :
  exists (n : nat) (s' : System),
    files (world s')
    = write_all (files (world s))
        (map (fun fc => (report_file reportId (fst fc), snd fc))
             (take n made))
    /\ agent_state s' = agent_state s /\ notices s' = notices s
    /\ Forall (fun fc => write_errors (world s) !! report_file reportId (fst fc)
                         = None) (take n made)
    /\ match made !! n with
       | None =>
           n = length made
           /\ saveReports reportId made [] s
              = (Normal (map (fun fc => (fst fc,
                                         report_file reportId (fst fc)))
                             made), s')
       | Some fc =>
           exists msg,
             write_errors (world s) !! report_file reportId (fst fc)
             = Some msg
             /\ saveReports reportId made [] s
                = (Throw {| message := msg |}, s')
       end.
Proof.
  destruct (saveReports_run reportId made [] s) as (n & s' & -> & Hall & Hrun).
  exists n. eexists. split; [|split; [|split; [|split; [exact Hall|exact Hrun]]]];
    done.
Qed.

(** ** [generateWeeklyReport] *)

Lemma run_bind_normal {A B} (m : Run A) (k : A -> Run B) (s s' : System)
    (b : B) :
  run_bind m k s = (Normal b, s') ->
  exists a s1, m s = (Normal a, s1) /\ k a s1 = (Normal b, s').
Proof.
  unfold run_bind. destruct (m s) as [[a|e] s1]; [|done]. eauto.
Qed.

Lemma run_bind_throw {A B} (m : Run A) (k : A -> Run B) (s s' : System)
    (e : Error) :
  run_bind m k s = (Throw e, s') ->
  m s = (Throw e, s')
  \/ exists a s1, m s = (Normal a, s1) /\ k a s1 = (Throw e, s').
Proof.
  unfold run_bind. destruct (m s) as [[a|e0] s1]; [eauto|].
  intros [= -> ->]. by left.
Qed.

Lemma run_try_throw {A} (m : Run A) (h : Error -> Run A) (s s' : System)
    (e : Error) :
  run_try m h s = (Throw e, s') ->
  exists e0 s1, m s = (Throw e0, s1) /\ h e0 s1 = (Throw e, s').
Proof.
  unfold run_try. destruct (m s) as [[a|e0] s1]; [done|]. eauto.
Qed.

Lemma run_try_normal {A} (m : Run A) (h : Error -> Run A) (s s' : System)
    (a : A) :
  run_try m h s = (Normal a, s') ->
  m s = (Normal a, s')
  \/ exists e0 s1, m s = (Throw e0, s1) /\ h e0 s1 = (Normal a, s').
Proof.
  unfold run_try. destruct (m s) as [[a0|e0] s1]; [by left|]. eauto.
Qed.

Lemma keeps_saveReports {B} (f : System -> B) (reportId : jsstring)
    (made saved : list (jsstring * jsstring)) :
  agent_part f -> keeps f (saveReports reportId made saved).
Proof.
  intros Hf. revert saved.
  induction made as [|[format content] made IH]; intros saved.
  - apply keeps_ret.
  - cbn [saveReports]. cbv zeta. apply keeps_bind.
    + apply keeps_in_world, Hf.
    + intros _. apply IH.
Qed.

Lemma keeps_generateHTMLReport {B} (f : System -> B) (d : ReportData) :
  agent_part f -> keeps f (generateHTMLReport d).
Proof.
  intros Hf. apply keeps_bind; [|intros; apply keeps_call].
  apply keeps_try; [apply keeps_in_world, Hf|]. intros _.
  apply keeps_bind; [by apply keeps_notice|]. intros _.
  apply keeps_bind; [apply keeps_in_world, Hf|]. intros _.
  apply keeps_in_world, Hf.
Qed.

Lemma generateReportId_run (s : System) :
  generateReportId calendar s
  = (Normal (report_id_of (calendar (now (world s)))), s).
Proof.
  unfold generateReportId, run_bind. rewrite in_world_Date.
  unfold report_id_of. by destruct (calendar (now (world s))) as [[y m] d].
Qed.

Lemma keeps_generateWeeklyReport {B} (f : System -> B)
    (data : MonitoringData) :
  agent_part f -> keeps f (generateWeeklyReport data).
Proof.
  intros Hf. apply keeps_bind; [by apply keeps_notice|]. intros _.
  apply keeps_try.
  - apply keeps_bind.
    { intros s. by rewrite generateReportId_run. }
    intros reportId. apply keeps_bind; [apply keeps_in_world, Hf|].
    intros reportDate. cbv zeta.
    apply keeps_bind; [apply keeps_call|]. intros recommendations.
    apply keeps_bind.
    { destruct (_ || _); [|apply keeps_ret].
      apply keeps_bind; [by apply keeps_generateHTMLReport|].
      intros; apply keeps_ret. }
    intros html_made. apply keeps_bind.
    { destruct (_ || _); [|apply keeps_ret].
      apply keeps_bind; [apply keeps_ret|]. intros; apply keeps_ret. }
    intros json_made.
    apply keeps_bind; [by apply keeps_saveReports|]. intros savedFiles.
    apply keeps_bind; [by apply keeps_notice|]. intros _. apply keeps_ret.
  - intros e. apply keeps_bind; [by apply keeps_notice|]. intros _.
    apply keeps_throw.
Qed.

Lemma insights_and_recommendations (p : ProcessedData) :
  exists recommendations,
    generateRecommendations (generateInsights p) = Normal recommendations
    /\ length recommendations = S (length (generateInsights p))
    /\ (length (generateInsights p) <= 2)%nat.
Proof.
  rewrite generateRecommendations_eq, generateInsights_eq.
  eexists. split; [reflexivity|].
  destruct (0 <? length (websiteChanges p))%nat,
    (identifyTopCompetitors p) as [|top tops]; simpl; split; lia.
Qed.

Lemma last_notice (n : Notice) (s : System) :
  last (notices (snd (notice n s))) = Some n.
Proof. simpl. apply last_snoc. Qed.

Lemma generateWeeklyReport_throws (data : MonitoringData) (s s' : System)
    (e : Error) :
  generateWeeklyReport data s = (Throw e, s') ->
  last (notices s') = Some (ReportGenerationFailed e).
Proof.
  unfold generateWeeklyReport. intros Hrun.
  apply run_bind_throw in Hrun as [Hrun|([] & s0 & _ & Hrun)]; [done|].
  apply run_try_throw in Hrun as (e0 & s1 & _ & Hrun).
  unfold run_bind, notice, run_throw in Hrun. injection Hrun as <- <-.
  apply last_snoc.
Qed.

Lemma generateWeeklyReport_returns (data : MonitoringData) (s s' : System)
    (r : ReportResult) :
  generateWeeklyReport data s = (Normal r, s') ->
  let id := report_id_of (calendar (now (world s))) in
  result_reportId r = id
  /\ result_files r
     = map (fun format => (format, report_file id format))
           (formats_of report_format)
  /\ Forall (fun fp => is_Some (files (world s') !! snd fp)) (result_files r)
  /\ result_insights r = length (generateInsights (processData data))
  /\ (result_insights r <= 2)%nat
  /\ result_recommendations r = S (result_insights r)
  /\ result_summary r = generateSummary (processData data)
  /\ last (notices s') = Some (ReportGenerated id (formats_of report_format)).
Proof.
  intros Hrun id. unfold generateWeeklyReport in Hrun.
  apply run_bind_normal in Hrun as ([] & s0 & Hs0 & Hrun).
  assert (Hworld : world s0 = world s) by (by injection Hs0 as <-).
  clear Hs0.
  apply run_try_normal in Hrun as [Hbody|(e0 & s1 & _ & Hrun)].
  2: { by unfold run_bind, notice, run_throw in Hrun. }
  apply run_bind_normal in Hbody as (reportId & s1 & Hid & Hbody).
  rewrite generateReportId_run in Hid. injection Hid as <- <-.
  rewrite Hworld in Hbody. fold id in Hbody.
  apply run_bind_normal in Hbody as (reportDate & s2 & Hdate & Hbody).
  rewrite in_world_Date in Hdate. injection Hdate as <- <-.
  cbv zeta in Hbody.
  destruct (insights_and_recommendations (processData data))
    as (recommendations & Hrec & Hlen & Hle).
  apply run_bind_normal in Hbody as (recs & s3 & Hrecs & Hbody).
  unfold run_call in Hrecs. rewrite Hrec in Hrecs. injection Hrecs as <- <-.
  apply run_bind_normal in Hbody as (html_made & s4 & Hhtml & Hbody).
  apply run_bind_normal in Hbody as (json_made & s5 & Hjson & Hbody).
  apply run_bind_normal in Hbody as (savedFiles & s6 & Hsave & Hbody).
  apply run_bind_normal in Hbody as ([] & s7 & Hnote & Hbody).
  injection Hbody as <- <-. injection Hnote as <-.
  cbn [result_reportId result_files result_insights result_recommendations
       result_summary report_summary notices world].
  assert (Hformats : map fst (html_made ++ json_made)
                     = formats_of report_format).
  { rewrite map_app. unfold formats_of. f_equal.
    - destruct (bool_decide (report_format = lit "html")
                || bool_decide (report_format = lit "all")) in Hhtml |- *.
      + apply run_bind_normal in Hhtml as (html & s8 & _ & Hhtml).
        by injection Hhtml as <- _.
      + by injection Hhtml as <- _.
    - destruct (bool_decide (report_format = lit "json")
                || bool_decide (report_format = lit "all")) in Hjson |- *.
      + apply run_bind_normal in Hjson as (json & s8 & _ & Hjson).
        by injection Hjson as <- _.
      + by injection Hjson as <- _. }
  destruct (saveReports_run id (html_made ++ json_made) [] s5)
    as (n & s6' & Hs6 & _ & Hrun).
  destruct ((html_made ++ json_made) !! n) as [fc|] eqn:Hn.
  { destruct Hrun as (msg & _ & Hrun). congruence. }
  destruct Hrun as (-> & Hrun). rewrite Hrun in Hsave.
  injection Hsave as <- <-. rewrite firstn_all in Hs6.
  assert (Hfiles : map (fun fc => (fst fc, report_file id (fst fc)))
                     (html_made ++ json_made)
                   = map (fun format => (format, report_file id format))
                       (formats_of report_format)).
  { rewrite <- Hformats, map_map. done. }
  cbn [app]. rewrite Hfiles.
  split; [done|]. split; [done|]. split; [|split; [done|]].
  - rewrite Hs6. cbn [world set_world files set_files].
    apply Forall_forall. intros [format path] Hin. cbn [snd].
    apply write_all_written. rewrite map_map. cbn [fst].
    apply list_elem_of_In, in_map_iff in Hin as (f & [= <- <-] & Hf).
    rewrite <- Hformats in Hf. apply in_map_iff in Hf as (fc & <- & Hfc).
    apply list_elem_of_In, in_map_iff. eauto.
  - split; [done|]. split; [by rewrite Hlen|]. split; [done|].
    rewrite map_map. cbn [fst]. by rewrite map_id, last_snoc.
Qed.

Lemma generateHTMLReport_run (d : ReportData) (s s1 : System)
    (c : Completion jsstring) :
  generateHTMLReport d s = (c, s1) ->
  write_errors (world s1) = write_errors (world s)
  /\ match c with
     | Normal _ => True
     | Throw e =>
         (exists template, apply_template template d = Throw e)
         \/ write_errors (world s) !! templatePath = Some (message e)
     end.
Proof.
  pose proof (loadHTMLTemplate_run s) as Hload.
  unfold generateHTMLReport, run_bind, run_call.
  destruct (files (world s) !! templatePath) as [template|].
  - rewrite Hload. intros [= <- <-]. split; [done|].
    destruct (apply_template template d) eqn:Happly; [done|]. eauto.
  - destruct Hload as (s' & _ & _ & Hload).
    destruct (write_errors (world s) !! templatePath) as [msg|].
    + destruct Hload as [-> Hworld]. intros [= <- <-].
      split; [by rewrite Hworld|]. by right.
    + destruct Hload as [-> Hworld]. intros [= <- <-].
      split; [by rewrite Hworld|].
      destruct (apply_template default_template d) eqn:Happly; [done|]. eauto.
Qed.

Lemma generateWeeklyReport_failure (data : MonitoringData) (s s' : System)
    (e : Error) :
  generateWeeklyReport data s = (Throw e, s') ->
  (exists template d, apply_template template d = Throw e)
  \/ exists path,
       write_errors (world s) !! path = Some (message e)
       /\ (path = templatePath
           \/ exists format,
                In format (formats_of report_format)
                /\ path = report_file
                            (report_id_of (calendar (now (world s)))) format).
Proof.
  unfold generateWeeklyReport. intros Hrun.
  apply run_bind_throw in Hrun as [Hrun|([] & s0 & Hs0 & Hrun)]; [done|].
  assert (Hworld : world s0 = world s) by (by injection Hs0 as <-).
  clear Hs0.
  apply run_try_throw in Hrun as (e0 & s1 & Hbody & Hrun).
  assert (e0 = e) as ->.
  { unfold run_bind, notice, run_throw in Hrun. by injection Hrun. }
  clear Hrun. rewrite <- Hworld.
  apply run_bind_throw in Hbody as [Hbody|(reportId & s2 & Hid & Hbody)].
  { by rewrite generateReportId_run in Hbody. }
  rewrite generateReportId_run in Hid. injection Hid as <- <-.
  apply run_bind_throw in Hbody as [Hbody|(reportDate & s2 & Hdate & Hbody)].
  { by rewrite in_world_Date in Hbody. }
  rewrite in_world_Date in Hdate. injection Hdate as <- <-.
  cbv zeta in Hbody.
  destruct (insights_and_recommendations (processData data))
    as (recommendations & Hrec & _).
  apply run_bind_throw in Hbody as [Hbody|(recs & s3 & Hrecs & Hbody)].
  { unfold run_call in Hbody. by rewrite Hrec in Hbody. }
  unfold run_call in Hrecs. rewrite Hrec in Hrecs. injection Hrecs as <- <-.
  assert (Hstep : forall (b : bool) (m : Run jsstring) (format : jsstring)
                    (sa sb : System) (c : Completion (list (jsstring * jsstring))),
            (if b then run_bind m (fun x => run_ret [(format, x)])
             else run_ret []) sa = (c, sb) ->
            match c with
            | Normal made =>
                map fst made = (if b then [format] else [])
                /\ (if b then exists x, m sa = (Normal x, sb) else sb = sa)
            | Throw e => b = true /\ m sa = (Throw e, sb)
            end).
  { intros [] m format sa sb c; unfold run_bind, run_ret.
    - destruct (m sa) as [[x|ex] sx]; intros [= <- <-]; eauto.
    - by intros [= <- <-]. }
  apply run_bind_throw in Hbody as [Hbody|(html_made & s4 & Hhtml & Hbody)].
  { apply Hstep in Hbody as [_ Hbody].
    apply generateHTMLReport_run in Hbody as [_ [(template & Ht)|Hw]].
    - left. eauto.
    - right. exists templatePath. split; [done|]. by left. }
  apply Hstep in Hhtml as [Hhtml_formats Hhtml].
  assert (Herrors : write_errors (world s4) = write_errors (world s0)).
  { destruct (bool_decide (report_format = lit "html")
              || bool_decide (report_format = lit "all")) in Hhtml;
      [|by subst s4].
    destruct Hhtml as (x & Hhtml).
    by apply generateHTMLReport_run in Hhtml as [-> _]. }
  apply run_bind_throw in Hbody as [Hbody|(json_made & s5 & Hjson & Hbody)].
  { apply Hstep in Hbody as [_ Hbody]. by unfold generateJSONReport in Hbody. }
  apply Hstep in Hjson as [Hjson_formats Hjson].
  assert (s5 = s4) as ->.
  { destruct (bool_decide (report_format = lit "json")
              || bool_decide (report_format = lit "all")) in Hjson;
      [|done].
    destruct Hjson as (x & Hjson).
    unfold generateJSONReport, run_ret in Hjson. by injection Hjson. }
  apply run_bind_throw in Hbody as [Hsave|(saved & s6 & _ & Hbody)].
  2: { apply run_bind_throw in Hbody as [Hbody|(? & ? & _ & Hbody)]; done. }
  destruct (saveReports_run (report_id_of (calendar (now (world s0))))
              (html_made ++ json_made) [] s4)
    as (n & s6 & _ & _ & Hrun).
  destruct ((html_made ++ json_made) !! n) as [[format content]|] eqn:Hn.
  2: { destruct Hrun as [_ Hrun]. congruence. }
  destruct Hrun as (msg & Hmsg & Hrun). rewrite Hrun in Hsave.
  injection Hsave as <- _. right. rewrite Herrors in Hmsg.
  eexists. split; [exact Hmsg|]. right. exists format. split; [|done].
  apply list_elem_of_lookup_2, list_elem_of_In in Hn.
  apply (in_map fst) in Hn. rewrite map_app, Hhtml_formats, Hjson_formats in Hn.
  exact Hn.
Qed.

(** X21: what [generateWeeklyReport] returns.  The report id is made
    from the calendar date of the clock; one file per configured format
    is named after it and is on disk afterwards (no file at all for a
    format other than html, json and all); the report counts at most
    two insights and one recommendation more than insights; and nothing
    but the files and the log is changed.  When it throws instead, the
    failure is logged last, and it was either the rendering of the
    template or a rejected write, of the template or of a report
    file. *)
Theorem generateWeeklyReport_outcome (data : MonitoringData) (s : System) :
  exists c s',
    generateWeeklyReport data s = (c, s')
    /\ agent_state s' = agent_state s
    /\ match c with
       | Normal r =>
           let id := report_id_of (calendar (now (world s))) in
           result_reportId r = id
           /\ result_files r
              = map (fun format => (format, report_file id format))
                    (formats_of report_format)
           /\ Forall (fun fp => is_Some (files (world s') !! snd fp))
                (result_files r)
           /\ result_insights r = length (generateInsights (processData data))
           /\ (result_insights r <= 2)%nat
           /\ result_recommendations r = S (result_insights r)
           /\ result_summary r = generateSummary (processData data)
           /\ last (notices s')
              = Some (ReportGenerated id (formats_of report_format))
       | Throw e =>
           last (notices s') = Some (ReportGenerationFailed e)
           /\ ((exists template d, apply_template template d = Throw e)
               \/ exists path,
                    write_errors (world s) !! path = Some (message e)
                    /\ (path = templatePath
                        \/ exists format,
                             In format (formats_of report_format)
                             /\ path
                                = report_file
                                    (report_id_of (calendar (now (world s))))
                                    format))
       end.
Proof.
  destruct (generateWeeklyReport data s) as [c s'] eqn:Hrun.
  exists c, s'. split; [done|]. split.
  { pose proof (keeps_generateWeeklyReport agent_state data agent_state_part s)
      as Hkeeps.
    by rewrite Hrun in Hkeeps. }
  destruct c as [r|e].
  - by apply generateWeeklyReport_returns.
  - split; [by apply (generateWeeklyReport_throws data s)|].
    by apply (generateWeeklyReport_failure data s s').
Qed.

End ReportFiles.

(** * The analysis run *)

Lemma sendEmailReport_run (reportResult : ReportResult) (s : System) :
  exists s',
    sendEmailReport reportResult s = (Normal tt, s')
    /\ world s' = world s /\ isRunning s' = isRunning s
    /\ lastRun s' = lastRun s /\ loaded s' = loaded s
    /\ mail_error s' = mail_error s
    /\ match file_of (result_files reportResult) (lit "html") with
       | Some path =>
           match files (world s) !! path, mail_error s with
           | Some html, None =>
               outbox s'
               = outbox s ++ [report_mail (result_reportId reportResult)
                                path html]
               /\ notices s' = notices s ++ [EmailSent]
           | Some _, Some e =>
               outbox s' = outbox s
               /\ notices s' = notices s ++ [EmailFailed e]
           | None, _ =>
               outbox s' = outbox s
               /\ exists e, notices s' = notices s ++ [EmailFailed e]
           end
       | None =>
           outbox s' = outbox s
           /\ exists e, notices s' = notices s ++ [EmailFailed e]
       end.
Proof.
  unfold sendEmailReport, run_try.
  destruct (file_of (result_files reportResult) (lit "html")) as [path|].
  - unfold run_bind at 1. rewrite in_world_readFile.
    destruct (files (world s) !! path) as [html|].
    + unfold run_bind, sendMail, notice.
      destruct (mail_error s) as [e|] eqn:Hmail; simpl.
      * eexists. split; [reflexivity|]. by repeat split.
      * eexists. split; [reflexivity|]. by repeat split.
    + unfold notice. eexists. split; [reflexivity|]. simpl.
      repeat split; eauto.
  - unfold run_throw, notice. eexists. split; [reflexivity|]. simpl.
    repeat split; eauto.
Qed.

(** X22: [sendEmailReport] never throws and never touches the files.  A
    mail goes out only when the report has an html file that can be
    read and the transport accepts it; the mail then carries the text of
    that file and names it as attachment.  In every other case (no html
    file among the report files, an unreadable file, a transport error)
    nothing is sent and the failure is logged. *)
Theorem sendEmailReport_never_throws (reportResult : ReportResult)
    (s : System) :
  exists s',
    sendEmailReport reportResult s = (Normal tt, s')
    /\ world s' = world s /\ isRunning s' = isRunning s
    /\ lastRun s' = lastRun s /\ loaded s' = loaded s
    /\ mail_error s' = mail_error s
    /\ match file_of (result_files reportResult) (lit "html") with
       | Some path =>
           match files (world s) !! path, mail_error s with
           | Some html, None =>
               outbox s'
               = outbox s ++ [report_mail (result_reportId reportResult)
                                path html]
               /\ notices s' = notices s ++ [EmailSent]
           | Some _, Some e =>
               outbox s' = outbox s
               /\ notices s' = notices s ++ [EmailFailed e]
           | None, _ =>
               outbox s' = outbox s
               /\ exists e, notices s' = notices s ++ [EmailFailed e]
           end
       | None =>
           outbox s' = outbox s
           /\ exists e, notices s' = notices s ++ [EmailFailed e]
       end.
Proof. apply sendEmailReport_run. Qed.

Lemma count_changes_total (results : list Results) :
  count_changes results = total_changes results.
Proof.
  unfold count_changes, total_changes.
  assert (Hfold : forall acc,
            fold_left (fun sum r => (sum + length (res_changes r))%nat)
              results acc
            = (acc + list_sum (map (fun r => length (res_changes r)) results))%nat).
  { induction results as [|r results IH]; intros acc; simpl; [lia|].
    rewrite IH. lia. }
  by rewrite Hfold.
Qed.

Lemma website_on_view (competitors : list CompetitorEntry) :
  List.filter monitoring_website (map monitor_view competitors)
  = map monitor_view (List.filter website_on competitors).
Proof.
  induction competitors as [|c cs IH]; [done|]. cbn [map List.filter].
  assert (monitoring_website (monitor_view c) = website_on c) as ->.
  { unfold website_on. cbn [monitoring_website monitor_view].
    destruct (switch c (lit "website")) as [[]|]; done. }
  destruct (website_on c); cbn [map]; by rewrite IH.
Qed.

Lemma run_bind_notice {B} (n : Notice) (k : unit -> Run B) (s : System) :
  run_bind (notice n) k s = k tt (snd (notice n s)).
Proof. done. Qed.

Lemma run_bind_eq {A B} (m : Run A) (k : A -> Run B) (s s1 : System) (a : A) :
  m s = (Normal a, s1) -> run_bind m k s = k a s1.
Proof. unfold run_bind. by intros ->. Qed.

Lemma run_bind_throw_eq {A B} (m : Run A) (k : A -> Run B) (s s1 : System)
    (e : Error) :
  m s = (Throw e, s1) -> run_bind m k s = (Throw e, s1).
Proof. unfold run_bind. by intros ->. Qed.

Lemma in_world_eq {A} (m : M A) (s : System) (c : Completion A) (w : World) :
  m (world s) = (c, w) -> in_world m s = (c, set_world w s).
Proof. unfold in_world. by intros ->. Qed.

Section AgentRuns.

Context (sha256_hex : jsstring -> jsstring)
        (JSON_stringify : Content -> jsstring)
        (JSON_parse : jsstring -> option Content)
        (path_join : jsstring -> jsstring -> jsstring)
        (reports : jsstring)
        (this_getPageContent : jsstring -> M (option Content))
        (calendar : jsstring -> Z * Z * Z)
        (getReportPeriod : jsstring -> jsstring)
        (apply_template : jsstring -> ReportData -> Completion jsstring)
        (stringify_report : ReportData -> jsstring)
        (default_template templatesDir report_format : jsstring)
        (emailEnabled : bool)
        (competitors_file : jsstring)
        (parse_competitors : jsstring -> Completion (list CompetitorEntry)).

Local Abbreviation getCompetitors :=
  (getCompetitors competitors_file parse_competitors).
Local Abbreviation monitorAll :=
  (monitorAll sha256_hex JSON_stringify JSON_parse path_join reports
     this_getPageContent).
Local Abbreviation generateWeeklyReport :=
  (generateWeeklyReport path_join reports calendar getReportPeriod
     apply_template stringify_report default_template templatesDir
     report_format).
Local Abbreviation runAnalysis :=
  (runAnalysis sha256_hex JSON_stringify JSON_parse path_join reports
     this_getPageContent calendar getReportPeriod apply_template
     stringify_report default_template templatesDir report_format
     emailEnabled competitors_file parse_competitors).
Local Abbreviation send reportResult :=
  (if emailEnabled then sendEmailReport reportResult else run_ret tt).

Lemma monitorAll_results (competitors : list CompetitorEntry) (w : World) :
  exists results w',
    monitorAll (map monitor_view competitors) w = (Normal results, w')
    /\ length results = length (List.filter website_on competitors).
Proof.
  unfold monitorAll, bind, logger, ret. cbv beta iota.
  destruct (monitorEach_in_order sha256_hex JSON_stringify JSON_parse
              path_join reports this_getPageContent
              (map monitor_view competitors) []
              (add_log (StartingAll (length (map monitor_view competitors))) w))
    as (results & w' & Hrun & Hall).
  simpl in Hrun. rewrite Hrun. exists results. eexists.
  split; [reflexivity|].
  apply Forall2_length in Hall. by rewrite <- Hall, website_on_view, length_map.
Qed.

Lemma runAnalysis_run (s : System) :
  isRunning s = false ->
  exists competitors s1,
    getCompetitors (snd (notice StartingAnalysis (set_isRunning true s)))
    = (Normal competitors, s1)
    /\ ((competitors = []
         /\ runAnalysis s
            = (Throw no_competitors,
               set_isRunning false
                 (snd (notice (AnalysisFailed no_competitors) s1))))
        \/ (competitors <> []
            /\ exists results w2 c s3,
                 monitorAll (map monitor_view competitors) (world s1)
                 = (Normal results, w2)
                 /\ length results
                    = length (List.filter website_on competitors)
                 /\ generateWeeklyReport (data_of results)
                      (snd (notice GeneratingReport
                         (set_world w2
                            (snd (notice StartingMonitoring
                               (snd (notice
                                       (LoadedCompetitors (length competitors))
                                       s1)))))))
                    = (c, s3)
                 /\ match c with
                    | Throw e =>
                        runAnalysis s
                        = (Throw e,
                           set_isRunning false
                             (snd (notice (AnalysisFailed e) s3)))
                    | Normal reportResult =>
                        exists s4,
                          send reportResult s3 = (Normal tt, s4)
                          /\ runAnalysis s
                             = (Normal (analysis_of reportResult),
                                set_isRunning false
                                  (snd (notice
                                     (AnalysisCompleted (length competitors)
                                        (count_changes results)
                                        (result_reportId reportResult))
                                     (set_lastRun (now (world s4)) s4))))
                    end)).
Proof.
  intros Hidle. unfold runAnalysis. rewrite Hidle.
  unfold run_finally, run_try. rewrite run_bind_notice.
  destruct (getCompetitors_returns competitors_file parse_competitors
              (snd (notice StartingAnalysis (set_isRunning true s))))
    as (competitors & s1 & Hget & _).
  rewrite (run_bind_eq _ _ _ _ _ Hget).
  exists competitors, s1. split; [done|].
  destruct competitors as [|comp rest] eqn:Hcs.
  { left. by split. }
  right. split; [done|]. rewrite <- Hcs.
  replace (length competitors =? 0)%nat with false by (by rewrite Hcs).
  destruct (monitorAll_results competitors (world s1))
    as (results & w2 & Hmon & Hlen).
  exists results, w2.
  rewrite !run_bind_notice.
  rewrite (run_bind_eq _ _ _ _ _
             (in_world_eq _
                (snd (notice StartingMonitoring
                   (snd (notice (LoadedCompetitors (length competitors)) s1))))
                _ _ Hmon)).
  rewrite run_bind_notice. fold (data_of results).
  match goal with |- context [generateWeeklyReport (data_of results) ?s2] =>
    destruct (generateWeeklyReport (data_of results) s2)
      as [[reportResult|e] s3] eqn:Hreport
  end.
  - exists (Normal reportResult), s3.
    split; [done|]. split; [done|]. split; [reflexivity|].
    assert (Hsend : exists s4, send reportResult s3 = (Normal tt, s4)).
    { destruct emailEnabled; [|by eexists].
      destruct (sendEmailReport_run reportResult s3) as (s4 & -> & _).
      by eexists. }
    destruct Hsend as (s4 & Hsend). exists s4. split; [done|].
    rewrite (run_bind_eq _ _ _ _ _ Hreport).
    rewrite (run_bind_eq _ _ _ _ _ Hsend).
    rewrite (run_bind_eq _ _ _ _ _ (in_world_Date s4)).
    done.
  - exists (Throw e), s3.
    split; [done|]. split; [done|]. split; [reflexivity|].
    by rewrite (run_bind_throw_eq _ _ _ _ _ Hreport).
Qed.


Lemma generateSummary_counts (data : MonitoringData) :
  summary_totalCompetitors (generateSummary (processData data))
  = length (monitored data)
  /\ summary_websiteChanges (generateSummary (processData data))
     = total_changes (monitored data)
  /\ summary_totalEngagement (generateSummary (processData data)) = 0%nat.
Proof.
  destruct (processData_competitors data) as (Hc & Hw).
  split; [|split; [|done]].
  - change (summary_totalCompetitors _)
      with (length (competitors (processData data))).
    by rewrite Hc, length_map.
  - change (summary_websiteChanges _)
      with (countTotalChanges (processData data)).
    unfold countTotalChanges. by rewrite Hw, sum_changes_filter.
Qed.

Lemma report_keeps_agent (data : MonitoringData) (s s3 : System)
    (c : Completion ReportResult) :
  generateWeeklyReport data s = (c, s3) -> agent_state s3 = agent_state s.
Proof.
  intros Hrun.
  pose proof (keeps_generateWeeklyReport path_join reports calendar
                getReportPeriod apply_template stringify_report
                default_template templatesDir report_format
                agent_state data agent_state_part s) as Hkeeps.
  by rewrite Hrun in Hkeeps.
Qed.

(** X23: the running flag of [runAnalysis].  While a run is under way a
    second call throws "Analysis already running" and changes nothing.
    Otherwise the run ends, by returning or by throwing, with the flag
    down again.  When it returns, the result reports success and
    [lastRun] is the clock reading of the end of the run; when it
    throws, the error is logged last, and [lastRun] and the mails sent
    are as they were before. *)
Theorem runAnalysis_guard_and_release (s : System) :
  (isRunning s = true -> runAnalysis s = (Throw already_running, s))
  /\ (isRunning s = false ->
      exists c s',
        runAnalysis s = (c, s')
        /\ isRunning s' = false
        /\ match c with
           | Normal result =>
               success result = true
               /\ lastRun s' = Some (now (world s'))
           | Throw e =>
               lastRun s' = lastRun s
               /\ outbox s' = outbox s
               /\ last (notices s') = Some (AnalysisFailed e)
           end).
Proof.
  split.
  { intros Hbusy. unfold runAnalysis. by rewrite Hbusy. }
  intros Hidle.
  destruct (runAnalysis_run s Hidle) as (competitors & s1 & Hget & Hrun).
  destruct (getCompetitors_returns competitors_file parse_competitors
              (snd (notice StartingAnalysis (set_isRunning true s))))
    as (cs' & s1' & Hget' & _ & _ & _ & Hlast1 & Hout1 & _).
  rewrite Hget in Hget'. injection Hget' as <- <-.
  cbn [snd notice set_isRunning lastRun outbox] in Hlast1, Hout1.
  destruct Hrun as [[-> ->]|(Hne & results & w2 & c & s3 & _ & _ & Hreport & Hrun)].
  { do 2 eexists. split; [reflexivity|]. split; [done|].
    split; [done|]. split; [done|]. apply last_snoc. }
  apply report_keeps_agent in Hreport. injection Hreport as _ Hlast3 _ Hout3 _.
  cbn [snd notice set_world lastRun outbox] in Hlast3, Hout3.
  destruct c as [reportResult|e].
  - destruct Hrun as (s4 & _ & ->).
    do 2 eexists. split; [reflexivity|]. by repeat split.
  - rewrite Hrun. do 2 eexists. split; [reflexivity|]. split; [done|].
    cbn [snd notice set_isRunning lastRun outbox notices].
    split; [congruence|]. split; [congruence|]. apply last_snoc.
Qed.

(** What the competitors file gives when it is read: [[]] when it
    cannot be read or parsed. *)
Local Abbreviation on_file w :=
  (match files w !! competitors_file with
   | Some data =>
       match parse_competitors data with
       | Normal competitors => competitors
       | Throw _ => []
       end
   | None => []
   end).

(** X24: without competitors there is no run.  When no competitors are
    loaded and the competitors file is missing, unreadable, or lists
    none, [runAnalysis] throws "No competitors configured" before
    anything is monitored: the files and the log of the monitor are
    untouched, no report is written, no mail is sent, and [lastRun] and
    the running flag are as before. *)
Theorem runAnalysis_without_competitors (s : System) :
  isRunning s = false ->
  loaded s = [] ->
  on_file (world s) = [] ->
  exists s',
    runAnalysis s = (Throw no_competitors, s')
    /\ world s' = world s
    /\ agent_state s' = agent_state s
    /\ last (notices s') = Some (AnalysisFailed no_competitors).
Proof.
  intros Hidle Hloaded Hfile.
  destruct (runAnalysis_run s Hidle) as (competitors & s1 & Hget & Hrun).
  destruct (getCompetitors_loads competitors_file parse_competitors
              (snd (notice StartingAnalysis (set_isRunning true s))) Hloaded)
    as (s1' & Hget' & Hl1 & Hw1 & _ & Hlast1 & Hout1 & Hmail1 & _).
  rewrite Hget in Hget'. injection Hget' as -> <-.
  cbn [snd notice set_isRunning world lastRun outbox mail_error]
    in Hl1, Hw1, Hlast1, Hout1, Hmail1.
  rewrite Hfile in Hl1.
  destruct Hrun as [[_ ->]|(Hne & _)]; [|by rewrite Hfile in Hne].
  eexists. split; [reflexivity|].
  cbn [snd notice set_isRunning world notices].
  split; [done|]. split; [|apply last_snoc].
  unfold agent_state. cbn [isRunning lastRun loaded outbox mail_error].
  by rewrite Hidle, Hlast1, Hl1, Hloaded, Hout1, Hmail1.
Qed.


(** X25: what a completed run reports.  When [runAnalysis] returns,
    competitors were loaded; the summary counts as competitors those
    whose [monitoring.website] is [true], which may be fewer than the
    competitors loaded and logged; the number of website changes logged
    is the one of the summary; there are at most two insights and one
    recommendation more than insights; at most one mail went out, and
    none when mailing is switched off or no html report is made. *)
Theorem runAnalysis_completed (s s' : System) (result : AnalysisResult) :
  runAnalysis s = (Normal result, s') ->
  loaded s' <> []
  /\ summary_totalCompetitors (analysis_summary result)
     = length (List.filter website_on (loaded s'))
  /\ (summary_totalCompetitors (analysis_summary result)
      <= length (loaded s'))%nat
  /\ last (notices s')
     = Some (AnalysisCompleted (length (loaded s'))
               (summary_websiteChanges (analysis_summary result))
               (analysis_reportId result))
  /\ (analysis_insights result <= 2)%nat
  /\ analysis_recommendations result = S (analysis_insights result)
  /\ (length (outbox s') <= S (length (outbox s)))%nat
  /\ (emailEnabled = false \/ ~ In (lit "html") (formats_of report_format) ->
      outbox s' = outbox s).
Proof.
  intros Hdone.
  assert (Hidle : isRunning s = false).
  { destruct (isRunning s) eqn:Hbusy; [|done].
    unfold runAnalysis in Hdone. by rewrite Hbusy in Hdone. }
  destruct (runAnalysis_run s Hidle) as (competitors & s1 & Hget & Hrun).
  destruct (getCompetitors_returns competitors_file parse_competitors
              (snd (notice StartingAnalysis (set_isRunning true s))))
    as (cs' & s1' & Hget' & Hl1 & _ & _ & _ & Hout1 & _).
  rewrite Hget in Hget'. injection Hget' as <- <-.
  cbn [snd notice set_isRunning outbox] in Hout1.
  destruct Hrun as [[_ Hrun]|(Hne & results & w2 & c & s3 & _ & Hlen
                              & Hreport & Hrun)]; [congruence|].
  destruct c as [reportResult|e]; [|congruence].
  destruct Hrun as (s4 & Hsend & Hrun). rewrite Hrun in Hdone.
  injection Hdone as <- <-.
  pose proof (report_keeps_agent _ _ _ _ Hreport) as Hagent.
  injection Hagent as _ _ Hl3 Hout3 _.
  cbn [snd notice set_world loaded outbox] in Hl3, Hout3.
  pose proof (generateWeeklyReport_returns path_join reports calendar
                getReportPeriod apply_template stringify_report
                default_template templatesDir report_format _ _ _ _ Hreport)
    as (_ & Hfiles & _ & Hinsights & Hle & Hrecs & Hsummary & _).
  destruct (generateSummary_counts (data_of results)) as (Hcount & Hchanges & _).
  change (monitored (data_of results)) with results in Hcount, Hchanges.
  assert (Hsent : loaded s4 = loaded s3
                  /\ (outbox s4 = outbox s3
                      \/ exists mail, outbox s4 = outbox s3 ++ [mail])
                  /\ (emailEnabled = false
                      \/ ~ In (lit "html") (formats_of report_format) ->
                      outbox s4 = outbox s3)).
  { destruct emailEnabled.
    - destruct (sendEmailReport_run reportResult s3)
        as (s4' & Hsend' & _ & _ & _ & Hl4 & _ & Hmail).
      rewrite Hsend in Hsend'. injection Hsend' as <-.
      split; [done|].
      destruct (file_of (result_files reportResult) (lit "html"))
        as [path|] eqn:Hpath.
      + split.
        * destruct (files (world s3) !! path), (mail_error s3);
            destruct Hmail as [Hmail _]; eauto.
        * intros [?|Hno]; [done|]. exfalso. apply Hno.
          rewrite Hfiles in Hpath. clear -Hpath.
          induction (formats_of report_format) as [|f l IH]; [done|].
          cbn [map file_of] in Hpath. case_bool_decide as Hf.
          -- by left.
          -- right. by apply IH.
      + destruct Hmail as [Hmail _]. split; [by left|done].
    - unfold run_ret in Hsend. injection Hsend as <-.
      split; [done|]. split; [by left|done]. }
  destruct Hsent as (Hl4 & Hout4 & Hnone).
  cbn [snd notice set_isRunning set_lastRun loaded outbox notices
       analysis_of analysis_summary analysis_reportId analysis_insights
       analysis_recommendations].
  assert (Hloaded : loaded s4 = competitors) by congruence.
  rewrite Hloaded, Hsummary, Hcount, Hchanges, Hlen, count_changes_total.
  split; [done|]. split; [done|]. split; [apply List.filter_length_le|].
  split; [apply last_snoc|]. split; [done|]. split; [done|]. split.
  - destruct Hout4 as [->|(mail & ->)]; rewrite ?length_app, Hout3, Hout1;
      simpl; lia.
  - intros Hoff. rewrite (Hnone Hoff). congruence.
Qed.

End AgentRuns.

Lemma runAnalysis_without_competitors_witness :
  exists s',
    example_runAnalysis (lit "all") true (at_rest ∅)
    = (Throw no_competitors, s')
    /\ world s' = world (at_rest ∅)
    /\ agent_state s' = agent_state (at_rest ∅)
    /\ last (notices s') = Some (AnalysisFailed no_competitors).
Proof.
  apply (runAnalysis_without_competitors Node.sha256_hex Node.JSON_stringify
           Node.JSON_parse Node.path_join Node.reports browser_fetch);
    reflexivity.
Defined.

Lemma runAnalysis_completed_witness :
  exists result s',
    example_runAnalysis (lit "all") true office = (Normal result, s')
    /\ summary_totalCompetitors (analysis_summary result) = 1%nat
    /\ length (loaded s') = 2%nat
    /\ analysis_recommendations result = S (analysis_insights result)
    /\ (length (outbox s') <= 1)%nat.
Proof.
  destruct (example_runAnalysis (lit "all") true office)
    as [[result|e] s'] eqn:Hrun.
  - exists result, s'. split; [reflexivity|].
    assert (Hloaded : loaded s' = [acme_entry; bolt_entry]).
    { change s' with (snd (Normal result, s')). rewrite <- Hrun.
      vm_compute. reflexivity. }
    unfold example_runAnalysis in Hrun.
    destruct (runAnalysis_completed Node.sha256_hex Node.JSON_stringify
                Node.JSON_parse Node.path_join Node.reports browser_fetch
                _ _ _ _ _ _ _ _ _ _ office s' result Hrun)
      as (_ & Hcount & _ & _ & _ & Hrecs & Hout & _).
    rewrite Hloaded in Hcount.
    split; [exact Hcount|]. split; [by rewrite Hloaded|].
    split; [exact Hrecs|exact Hout].
  - exfalso. assert (H : fst (example_runAnalysis (lit "all") true office)
                         = Throw e) by (by rewrite Hrun).
    vm_compute in H. discriminate H.
Defined.

(** * The analysis and the mail *)

Lemma agree_refl (s : System) : agree s s.
Proof. by repeat split. Qed.













Section MailFailures.

Context (sha256_hex : jsstring -> jsstring)
        (JSON_stringify : Content -> jsstring)
        (JSON_parse : jsstring -> option Content)
        (path_join : jsstring -> jsstring -> jsstring)
        (reports : jsstring)
        (this_getPageContent : jsstring -> M (option Content))
        (calendar : jsstring -> Z * Z * Z)
        (getReportPeriod : jsstring -> jsstring)
        (apply_template : jsstring -> ReportData -> Completion jsstring)
        (stringify_report : ReportData -> jsstring)
        (default_template templatesDir report_format : jsstring)
        (emailEnabled : bool)
        (competitors_file : jsstring)
        (parse_competitors : jsstring -> Completion (list CompetitorEntry)).

Local Abbreviation runAnalysis :=
  (runAnalysis sha256_hex JSON_stringify JSON_parse path_join reports
     this_getPageContent calendar getReportPeriod apply_template
     stringify_report default_template templatesDir report_format
     emailEnabled competitors_file parse_competitors).
Local Abbreviation generateWeeklyReport :=
  (generateWeeklyReport path_join reports calendar getReportPeriod
     apply_template stringify_report default_template templatesDir
     report_format).
Local Abbreviation getReportPath := (getReportPath path_join reports).



(** ** Finding a report again *)

Lemma getReportPath_run (reportId : jsstring) (s : System) :
  getReportPath reportId s
  = (Normal (match files (world s) !! report_file path_join reports reportId
                                        (lit "html") with
             | Some _ =>
                 Some (report_file path_join reports reportId (lit "html"))
             | None => None
             end), s).
Proof.
  unfold getReportPath, run_try, run_bind, in_world, access, report_file.
  cbv zeta.
  replace (lit "competitors-report-" ++ reportId ++ lit ".html")
    with (lit "competitors-report-" ++ reportId ++ lit "." ++ lit "html")
    by done.
  destruct (files (world s) !! _); by rewrite set_world_same.
Qed.

(** X27: a saved html report is found again.  [getReportPath] never
    throws and changes nothing; it answers with the path of the html
    report exactly when that file is there.  After [generateWeeklyReport]
    has returned in a configuration that makes html reports, asking for
    the id it returned gives the very file it listed under html. *)
Theorem getReportPath_finds_saved_report (data : MonitoringData)
    (s s' : System) (reportResult : ReportResult) (reportId : jsstring) :
  (exists found,
     getReportPath reportId s = (Normal found, s)
     /\ (found <> None
         <-> is_Some (files (world s)
                        !! report_file path_join reports reportId (lit "html"))))
  /\ (generateWeeklyReport data s = (Normal reportResult, s') ->
      In (lit "html") (formats_of report_format) ->
      exists path,
        file_of (result_files reportResult) (lit "html") = Some path
        /\ getReportPath (result_reportId reportResult) s'
           = (Normal (Some path), s')).
Proof.
  split.
  - rewrite getReportPath_run. eexists. split; [reflexivity|].
    destruct (files (world s) !! _) as [text|].
    + split; [eauto|done].
    + split; [done|]. by intros [? ?].
  - intros Hrun Hhtml.
    pose proof (generateWeeklyReport_returns path_join reports calendar
                  getReportPeriod apply_template stringify_report
                  default_template templatesDir report_format _ _ _ _ Hrun)
      as (Hid & Hfiles & Hthere & _).
    rewrite Hid in *. set (id := report_id_of _) in *.
    assert (Hpath : file_of (result_files reportResult) (lit "html")
                    = Some (report_file path_join reports id (lit "html"))).
    { rewrite Hfiles. clear -Hhtml.
      induction (formats_of report_format) as [|f l IH]; [done|].
      cbn [map file_of]. case_bool_decide as Hf; [by subst f|].
      apply IH. by destruct Hhtml. }
    eexists. split; [exact Hpath|]. rewrite getReportPath_run.
    assert (Hin : In (lit "html", report_file path_join reports id (lit "html"))
                    (result_files reportResult)).
    { rewrite Hfiles. apply in_map_iff. eauto. }
    apply list_elem_of_In in Hin.
    pose proof (proj1 (Forall_forall _ _) Hthere _ Hin) as [text Htext].
    cbn [snd] in Htext. by rewrite Htext.
Qed.

End MailFailures.


(** * Report ids and monitoring switches *)

Lemma digits_of_length (k : nat) :
  forall (fuel : nat) (n : Z) (acc : jsstring),
    10 ^ Z.of_nat k <= n < 10 ^ Z.of_nat (S k) -> (k < fuel)%nat ->
    length (digits_of fuel n acc) = (length acc + S k)%nat.
Proof.
  induction k as [|k IH]; intros fuel n acc Hn Hfuel;
    (destruct fuel as [|fuel]; [lia|]); cbn [digits_of]; cbv zeta.
  - change (10 ^ Z.of_nat 1) with 10 in Hn.
    destruct (Z.ltb_spec n 10); [|lia]. simpl. lia.
  - rewrite (Nat2Z.inj_succ (S k)), Z.pow_succ_r in Hn by lia.
    rewrite (Nat2Z.inj_succ k) in Hn.
    assert (10 <= 10 ^ Z.succ (Z.of_nat k)).
    { rewrite Z.pow_succ_r by lia.
      pose proof (Z.pow_pos_nonneg 10 (Z.of_nat k)). lia. }
    destruct (Z.ltb_spec n 10); [lia|].
    rewrite IH; [simpl; lia| |lia].
    rewrite Nat2Z.inj_succ. split.
    + apply Z.div_le_lower_bound; [lia|].
      rewrite Z.pow_succ_r in Hn by lia. lia.
    + apply Z.div_lt_upper_bound; lia.
Qed.

Lemma two_digit_fields :
  forallb (fun k => (length (padStart2 (string_of_Z (Z.of_nat k))) =? 2)%nat
                    && (value_from 0 (padStart2 (string_of_Z (Z.of_nat k)))
                        =? Z.of_nat k))
    (seq 0 100) = true.
Proof. vm_compute. reflexivity. Qed.

Lemma year_length (year : Z) :
  1000 <= year <= 9999 -> length (string_of_Z year) = 4%nat.
Proof.
  intros Hy. unfold string_of_Z. destruct (Z.ltb_spec year 0); [lia|].
  unfold string_of_nonneg. rewrite (digits_of_length 3); [done|simpl; lia|].
  assert (3 <= Z.log2 year); [|lia].
  apply Z.log2_le_pow2; simpl; lia.
Qed.

Lemma field_padded (k : Z) :
  0 <= k <= 99 ->
  length (padStart2 (string_of_Z k)) = 2%nat
  /\ value_from 0 (padStart2 (string_of_Z k)) = k.
Proof.
  intros Hk. pose proof two_digit_fields as Hall.
  rewrite forallb_forall in Hall.
  specialize (Hall (Z.to_nat k)). rewrite Z2Nat.id in Hall by lia.
  assert (Hin : In (Z.to_nat k) (seq 0 100)) by (apply in_seq; lia).
  apply Hall, andb_true_iff in Hin as [Hlen Hval].
  split; [by apply Nat.eqb_eq|by apply Z.eqb_eq].
Qed.

(** X28: report ids of calendar dates.  For a date with a four-digit
    year the id is "weekly-" followed by the year, the month counted
    from 1 and the day, month and day padded to two digits: 17 code
    units in all.  Two dates have the same id only when they are the
    same date, so reports of different days never share a file, and
    reports of the same day always do. *)
Theorem report_id_per_day (year month date : Z) :
  calendar_date year month date ->
  length (report_id year month date) = 17%nat
  /\ value_from 0 (take 4 (drop 7 (report_id year month date))) = year
  /\ value_from 0 (take 2 (drop 12 (report_id year month date))) = month + 1
  /\ value_from 0 (take 2 (drop 15 (report_id year month date))) = date
  /\ forall year' month' date',
       calendar_date year' month' date' ->
       report_id year month date = report_id year' month' date' ->
       year = year' /\ month = month' /\ date = date'.
Proof.
  assert (Hparts : forall y m d, calendar_date y m d ->
            length (report_id y m d) = 17%nat
            /\ value_from 0 (take 4 (drop 7 (report_id y m d))) = y
            /\ value_from 0 (take 2 (drop 12 (report_id y m d))) = m + 1
            /\ value_from 0 (take 2 (drop 15 (report_id y m d))) = d).
  { intros y m d (Hy & Hm & Hd). unfold report_id.
    pose proof (year_length y Hy) as Hylen.
    destruct (field_padded (m + 1)) as [Hmlen Hmval]; [lia|].
    destruct (field_padded d) as [Hdlen Hdval]; [lia|].
    set (Y := string_of_Z y) in *. set (Mo := padStart2 _) in *.
    set (D := padStart2 (string_of_Z d)) in *.
    assert (HY : exists a b c e, Y = [a; b; c; e]).
    { destruct Y as [|a [|b [|c [|e [|]]]]]; try done. eauto. }
    assert (HM : exists a b, Mo = [a; b]).
    { destruct Mo as [|a [|b [|]]]; try done. eauto. }
    assert (HD : exists a b, D = [a; b]).
    { destruct D as [|a [|b [|]]]; try done. eauto. }
    destruct HY as (y1 & y2 & y3 & y4 & HY), HM as (m1 & m2 & HM),
      HD as (d1 & d2 & HD).
    assert (Hyval : value_from 0 Y = y).
    { unfold Y, string_of_Z. destruct (Z.ltb_spec y 0); [lia|].
      apply value_of_string_of_nonneg. lia. }
    rewrite HY, HM, HD in *. by repeat split. }
  intros Hdate. destruct (Hparts year month date Hdate) as (Hl & Hy & Hm & Hd).
  split; [done|]. split; [done|]. split; [done|]. split; [done|].
  intros year' month' date' Hdate' Heq.
  destruct (Hparts year' month' date' Hdate') as (_ & Hy' & Hm' & Hd').
  rewrite <- Heq in Hy', Hm', Hd'. lia.
Qed.

Lemma report_id_per_day_witness :
  length (report_id 2024 0 1) = 17%nat
  /\ report_id 2024 0 1 = lit "weekly-2024-01-01"
  /\ report_id 2024 0 1 <> report_id 2024 1 1.
Proof.
  destruct (report_id_per_day 2024 0 1) as (Hlen & _ & _ & _ & Hinj).
  { unfold calendar_date. lia. }
  split; [exact Hlen|]. split; [reflexivity|].
  intros Heq. apply Hinj in Heq; [lia|]. unfold calendar_date. lia.
Defined.

(** X29: the loader and the monitor read the monitoring switches
    differently.  For the loader a switch that is missing counts as on:
    a competitor without monitoring settings is active and has every
    kind of monitoring, and the competitors with a kind of monitoring
    are among the active ones, in the order of the file.  [monitorAll]
    takes up a competitor only when its website switch is [true], and
    does not look at [enabled]: it passes over a competitor without
    settings, and monitors one that is disabled but has the website
    switch on. *)
Theorem monitoring_switches (competitors : list CompetitorEntry)
    (monitoringType : jsstring) :
  competitors_with_monitoring competitors monitoringType
    `sublist_of` active_competitors competitors
  /\ active_competitors competitors `sublist_of` competitors
  /\ (forall comp, In comp competitors -> monitoring comp = None ->
        In comp (competitors_with_monitoring competitors monitoringType)
        /\ monitoring_website (monitor_view comp) = false)
  /\ (forall comp, In comp competitors ->
        switch comp (lit "enabled") = Some false ->
        switch comp (lit "website") = Some true ->
        ~ In comp (active_competitors competitors)
        /\ monitoring_website (monitor_view comp) = true)
  /\ List.filter monitoring_website (map monitor_view competitors)
     = map monitor_view
         (List.filter
            (fun comp => bool_decide (switch comp (lit "website") = Some true))
            competitors).
Proof.
  split; [|split; [|split; [|split]]].
  - unfold competitors_with_monitoring, active_competitors.
    induction competitors as [|c cs IH]; [done|]. cbn [List.filter].
    destruct (not_false (switch c (lit "enabled"))); cbn [andb]; [|done].
    destruct (not_false (switch c monitoringType));
      [by apply sublist_skip|by apply sublist_cons].
  - unfold active_competitors.
    induction competitors as [|c cs IH]; [done|]. cbn [List.filter].
    destruct (not_false _); [by apply sublist_skip|by apply sublist_cons].
  - intros comp Hin Hnone. split.
    + apply filter_In. split; [done|]. unfold switch. by rewrite Hnone.
    + unfold monitor_view, switch. by rewrite Hnone.
  - intros comp Hin Hoff Hon. split.
    + intros [_ Hactive]%filter_In. by rewrite Hoff in Hactive.
    + unfold monitor_view. cbn [monitoring_website]. by rewrite Hon.
  - apply website_on_view.
Qed.
